(** * CryptFS: a shallow embedding of the metadata protocol, the stores and
    the node engine, with the properties of the specification checked
    against the Go sources.

    Conventions of the embedding.
    - Go unsigned integers are [Z] with the wrap-around written out
      ([uint8], [uint16], [uint32], [uint64]); Go [int] is [Z].
    - A Go [string] is a [string]; a Go [[]byte] that is only read is a
      [list byte]; where the code tests a slice against [nil] the slice is
      a [bytes] ([Nil] or [Slice l]).
    - A Go [error] is an [option error] ([None] is [nil]).
    - A function that can panic returns an [outcome]; a method of a mutable
      object is a function in the state-and-panic monad [Go S]. *)

From Stdlib Require Import ZArith List Lia.
From Stdlib Require Import Strings.String Strings.Ascii Strings.Byte.
From stdpp Require Import base option list gmap strings.

Local Open Scope string_scope.
Local Open Scope list_scope.
Local Open Scope Z_scope.

(** ** Machine integers *)

Definition uint8 (z : Z) : Z := z mod 2 ^ 8.
Definition uint16 (z : Z) : Z := z mod 2 ^ 16.
Definition uint32 (z : Z) : Z := z mod 2 ^ 32.
Definition uint64 (z : Z) : Z := z mod 2 ^ 64.

Definition is_uint16 (z : Z) : Prop := 0 <= z < 2 ^ 16.
Definition is_uint64 (z : Z) : Prop := 0 <= z < 2 ^ 64.

(** ** Bytes, slices and strings *)

Definition byte_of_Z (z : Z) : byte :=
  match Byte.of_N (Z.to_N (z mod 256)) with
  | Some b => b
  | None => "000"%byte
  end.

Definition Z_of_byte (b : byte) : Z := Z.of_N (Byte.to_N b).

(** Big-endian encoding of [v] on [n] bytes, and the value of a big-endian
    byte sequence (what [encoding/binary]'s [BigEndian] computes). *)
Fixpoint be_bytes (n : nat) (v : Z) : list byte :=
  match n with
  | O => []
  | S k => byte_of_Z (v / 2 ^ (8 * Z.of_nat k)) :: be_bytes k v
  end.

Fixpoint be_value (acc : Z) (l : list byte) : Z :=
  match l with
  | [] => acc
  | b :: t => be_value (acc * 256 + Z_of_byte b) t
  end.

(** [make([]byte, n)]: [n] zero bytes. *)
Definition make (n : Z) : list byte := replicate (Z.to_nat n) "000"%byte.

Definition len (l : list byte) : Z := Z.of_nat (length l).
Definition strlen (s : string) : Z := Z.of_nat (String.length s).

(** A byte slice whose nil-ness the code observes. *)
Inductive bytes : Type :=
| Nil
| Slice (data : list byte).

Definition data_of (b : bytes) : list byte :=
  match b with
  | Nil => []
  | Slice l => l
  end.

Definition is_nil (b : bytes) : bool :=
  match b with
  | Nil => true
  | Slice _ => false
  end.

#[global] Instance byte_eq_dec : EqDecision byte := Byte.byte_eq_dec.
#[global] Instance bytes_eq_dec : EqDecision bytes.
Proof. solve_decision. Defined.

(** [bytes.Equal]: content equality, a nil slice equals an empty one. *)
Definition bytes_Equal (a b : bytes) : bool :=
  bool_decide (data_of a = data_of b).

(** ** Panics and the state monad of mutable objects *)

Inductive outcome (A : Type) : Type :=
| Done (a : A)
| Panic (reason : string).
Arguments Done {A} a.
Arguments Panic {A} reason.

Definition obind {A B} (x : outcome A) (f : A -> outcome B) : outcome B :=
  match x with
  | Done a => f a
  | Panic r => Panic r
  end.

Definition Go (S A : Type) : Type := S -> outcome (A * S).

Definition ret {S A} (a : A) : Go S A := fun s => Done (a, s).
Definition bind {S A B} (m : Go S A) (f : A -> Go S B) : Go S B :=
  fun s => match m s with
           | Done (a, s') => f a s'
           | Panic r => Panic r
           end.
Definition panic {S A} (r : string) : Go S A := fun _ => Panic r.
Definition get_state {S} : Go S S := fun s => Done (s, s).
Definition set_state {S} (s : S) : Go S unit := fun _ => Done (tt, s).
Definition modify {S} (f : S -> S) : Go S unit := fun s => Done (tt, f s).
Definition lift {S A} (x : outcome A) : Go S A :=
  fun s => match x with
           | Done a => Done (a, s)
           | Panic r => Panic r
           end.

(** Running a method of a field of a compound object. *)
Definition on_fst {S T A} (m : Go S A) : Go (S * T) A :=
  fun st => match m (fst st) with
            | Done (a, s') => Done (a, (s', snd st))
            | Panic r => Panic r
            end.
Definition on_snd {S T A} (m : Go T A) : Go (S * T) A :=
  fun st => match m (snd st) with
            | Done (a, t') => Done (a, (fst st, t'))
            | Panic r => Panic r
            end.

Declare Scope go_scope.
Delimit Scope go_scope with go.
Notation "x <- m ;; k" := (bind m (fun x => k))
  (at level 100, m at next level, right associativity) : go_scope.
Notation "m ;;; k" := (bind m (fun _ => k))
  (at level 100, right associativity) : go_scope.
Notation "x <~ m ;; k" := (obind m (fun x => k))
  (at level 100, m at next level, right associativity) : go_scope.
Local Open Scope go_scope.

(** Slice expressions [b[i:]], [b[:j]] and [b[i:j]] on a slice whose length
    is its capacity (every buffer below comes from [make]). *)
Definition slice_from (b : list byte) (i : Z) : outcome (list byte) :=
  if bool_decide (0 <= i <= len b) then Done (drop (Z.to_nat i) b)
  else Panic "slice bounds out of range".

Definition slice_to (b : list byte) (j : Z) : outcome (list byte) :=
  if bool_decide (0 <= j <= len b) then Done (take (Z.to_nat j) b)
  else Panic "slice bounds out of range".

Definition slice_range (b : list byte) (i j : Z) : outcome (list byte) :=
  if bool_decide (0 <= i <= j /\ j <= len b)
  then Done (take (Z.to_nat (j - i)) (drop (Z.to_nat i) b))
  else Panic "slice bounds out of range".

(** ** Errors and formatting ([errors], [fmt]) *)

(** Error values. [errors_New] is a sentinel made by [errors.New] (its text
    identifies it: the sentinels of this program have distinct texts);
    [fmt_errorString] is the result of [fmt.Errorf] without a wrapped error;
    [fmt_wrapError] the result of [fmt.Errorf] with a [%w] operand. *)
Inductive error : Type :=
| errors_New (text : string)
| fmt_errorString (text : string)
| fmt_wrapError (msg : string) (err : error).

#[global] Instance error_eq_dec : EqDecision error.
Proof. solve_decision. Defined.

(** The [Error()] method. *)
Definition Error (e : error) : string :=
  match e with
  | errors_New t => t
  | fmt_errorString t => t
  | fmt_wrapError m _ => m
  end.

(** [errors.Is]: equality with the target somewhere along the [Unwrap]
    chain. *)
Fixpoint errors_Is_chain (e target : error) : bool :=
  bool_decide (e = target) ||
  match e with
  | fmt_wrapError _ inner => errors_Is_chain inner target
  | _ => false
  end.

Definition errors_Is (e : option error) (target : error) : bool :=
  match e with
  | None => false
  | Some e => errors_Is_chain e target
  end.

Definition io_EOF : error := errors_New "EOF".
Definition io_ErrUnexpectedEOF : error := errors_New "unexpected EOF".

(** The fragment of Go's [fmt] package that the program uses: the verbs
    [%s %d %v %x %q %w], the zero flag, a width and a precision. Operands
    are tagged with their Go type. A verb applied to an operand it does not
    support prints Go's bad-verb form, [%!verb(type=value)]. *)
Module fmt.

Inductive arg : Type :=
| ArgString (s : string)
| ArgBytes (b : list byte)
| ArgInt (z : Z)
| ArgKind (k : Z)
| ArgError (e : option error).

Definition digit_char (n : Z) : ascii :=
  match String.get (Z.to_nat n) "0123456789abcdef" with
  | Some c => c
  | None => "?"%char
  end.

Definition hex_of_byte (b : byte) : string :=
  String (digit_char (Z_of_byte b / 16))
         (String (digit_char (Z_of_byte b mod 16)) EmptyString).

Definition hex_of_bytes (l : list byte) : string :=
  String.concat EmptyString (List.map hex_of_byte l).

Fixpoint decimal_digits (fuel : nat) (z : Z) (acc : string) : string :=
  match fuel with
  | O => acc
  | S k =>
      let acc' := String (digit_char (z mod 10)) acc in
      if z / 10 =? 0 then acc' else decimal_digits k (z / 10) acc'
  end.

(** Base-ten text of an integer ([%d], and [%v] on integer types). *)
Definition decimal (z : Z) : string :=
  if z <? 0 then "-" +:+ decimal_digits (Z.to_nat (Z.log2 (- z) + 1)) (- z) EmptyString
  else decimal_digits (Z.to_nat (Z.log2 z + 1)) z EmptyString.

(** [strconv.Quote] on the bytes of a string. ASCII is exact; a byte above
    0x7f is printed as a [\x] escape, which is what Go prints when the byte
    is not part of a valid UTF-8 sequence. *)
Definition quote_byte (b : byte) : string :=
  let z := Z_of_byte b in
  if z =? 34 then "\" +:+ String (ascii_of_byte b) EmptyString
  else if z =? 92 then "\\"
  else if (32 <=? z) && (z <=? 126) then String (ascii_of_byte b) EmptyString
  else if z =? 7 then "\a"
  else if z =? 8 then "\b"
  else if z =? 12 then "\f"
  else if z =? 10 then "\n"
  else if z =? 13 then "\r"
  else if z =? 9 then "\t"
  else if z =? 11 then "\v"
  else "\x" +:+ hex_of_byte b.

Definition quote (l : list byte) : string :=
  String "034"%char
    (String.concat EmptyString (List.map quote_byte l) +:+ String "034"%char EmptyString).

Record directive : Type := { zero : bool; wid : option nat; prec : option nat }.

Definition truncate (d : directive) (l : list byte) : list byte :=
  match prec d with
  | Some p => take p l
  | None => l
  end.

Fixpoint padding (n : nat) (c : ascii) : string :=
  match n with
  | O => EmptyString
  | S k => String c (padding k c)
  end.

Definition pad (d : directive) (s : string) : string :=
  match wid d with
  | Some w => padding (w - String.length s) (if zero d then "0" else " ")%char +:+ s
  | None => s
  end.

Definition bad_verb (verb : ascii) (type value : string) : string :=
  "%!" +:+ String verb ("(" +:+ type +:+ "=" +:+ value +:+ ")").

(** One operand under one verb. [message.Kind] has no [String] method (its
    method is spelled [STring]), so it is formatted as the integer type it
    is: [%v] and [%d] print the number, [%s] is a bad verb. *)
Definition render (d : directive) (verb : ascii) (a : arg) : string :=
  match a with
  | ArgString s =>
      if bool_decide (verb = "s"%char) || bool_decide (verb = "v"%char)
      then pad d (string_of_list_byte (truncate d (list_byte_of_string s)))
      else if bool_decide (verb = "q"%char)
      then pad d (quote (truncate d (list_byte_of_string s)))
      else if bool_decide (verb = "x"%char)
      then pad d (hex_of_bytes (truncate d (list_byte_of_string s)))
      else bad_verb verb "string" s
  | ArgBytes b =>
      if bool_decide (verb = "s"%char)
      then pad d (string_of_list_byte (truncate d b))
      else if bool_decide (verb = "q"%char)
      then pad d (quote (truncate d b))
      else if bool_decide (verb = "x"%char)
      then pad d (hex_of_bytes (truncate d b))
      else bad_verb verb "[]uint8" (hex_of_bytes b)
  | ArgInt z =>
      if bool_decide (verb = "d"%char) || bool_decide (verb = "v"%char)
      then pad d (decimal z)
      else bad_verb verb "int" (decimal z)
  | ArgKind k =>
      if bool_decide (verb = "d"%char) || bool_decide (verb = "v"%char)
      then pad d (decimal k)
      else bad_verb verb "message.Kind" (decimal k)
  | ArgError (Some e) =>
      if bool_decide (verb = "w"%char) || bool_decide (verb = "v"%char)
         || bool_decide (verb = "s"%char)
      then pad d (Error e)
      else bad_verb verb "*errors.errorString" (Error e)
  | ArgError None => "%!" +:+ String verb "(<nil>)"
  end.

Inductive mode : Type :=
| Text
| Flags (z : bool)
| Width (z : bool) (w : nat)
| Prec (z : bool) (w : option nat) (p : nat).

Record printer : Type := {
  pmode : mode;
  pargs : list arg;
  pout : string;
  pwrapped : option error
}.

Definition digit_of (c : ascii) : option nat :=
  let n := nat_of_ascii c in
  if (48 <=? n)%nat && (n <=? 57)%nat then Some (n - 48)%nat else None.

Definition emit (p : printer) (c : ascii) : printer :=
  {| pmode := Text; pargs := pargs p; pout := pout p +:+ String c EmptyString;
     pwrapped := pwrapped p |}.

Definition with_mode (p : printer) (m : mode) : printer :=
  {| pmode := m; pargs := pargs p; pout := pout p; pwrapped := pwrapped p |}.

Definition do_verb (p : printer) (d : directive) (verb : ascii) : printer :=
  match pargs p with
  | [] => {| pmode := Text; pargs := [];
             pout := pout p +:+ "%!" +:+ String verb "(MISSING)";
             pwrapped := pwrapped p |}
  | a :: rest =>
      {| pmode := Text; pargs := rest; pout := pout p +:+ render d verb a;
         pwrapped := match pwrapped p, a with
                     | None, ArgError (Some e) =>
                         if bool_decide (verb = "w"%char) then Some e else None
                     | w, _ => w
                     end |}
  end.

Definition step (p : printer) (c : ascii) : printer :=
  match pmode p with
  | Text => if bool_decide (c = "%"%char) then with_mode p (Flags false) else emit p c
  | Flags z =>
      if bool_decide (c = "%"%char) then emit p c
      else if bool_decide (c = "0"%char) then with_mode p (Flags true)
      else if bool_decide (c = "."%char) then with_mode p (Prec z None 0)
      else match digit_of c with
           | Some n => with_mode p (Width z n)
           | None => do_verb p {| zero := z; wid := None; prec := None |} c
           end
  | Width z w =>
      if bool_decide (c = "."%char) then with_mode p (Prec z (Some w) 0)
      else match digit_of c with
           | Some n => with_mode p (Width z (10 * w + n))
           | None => do_verb p {| zero := z; wid := Some w; prec := None |} c
           end
  | Prec z w q =>
      match digit_of c with
      | Some n => with_mode p (Prec z w (10 * q + n))
      | None => do_verb p {| zero := z; wid := w; prec := Some q |} c
      end
  end.

Definition run (format : string) (args : list arg) : printer :=
  fold_left step (list_ascii_of_string format)
    {| pmode := Text; pargs := args; pout := EmptyString; pwrapped := None |}.

Definition Sprintf (format : string) (args : list arg) : string :=
  pout (run format args).

(** [fmt.Errorf]: the text is that of [Sprintf]; the result wraps the
    operand of [%w] when that operand is an error, and is a plain error
    when there is none or when it is nil. *)
Definition Errorf (format : string) (args : list arg) : error :=
  let p := run format args in
  match pwrapped p with
  | Some e => fmt_wrapError (pout p) e
  | None => fmt_errorString (pout p)
  end.

End fmt.

(** [copy(dst, src)]: the new contents of [dst]. *)
Definition copy (dst src : list byte) : list byte :=
  take (length dst) (src ++ drop (length src) dst).

(** ** Streams ([io], [bytes.Buffer]) *)

(** [io.Writer]: [Write p] returns the number of bytes written and an
    error. *)
Class Writer (W : Type) : Type := {
  Write : list byte -> Go W (Z * option error)
}.

(** [io.Reader], through [io.ReadFull]: [ReadFull n] is
    [io.ReadFull(r, p)] with [len(p) = n]; it returns the bytes stored at
    the front of [p] (their number is the count that [ReadFull] returns) and
    the error. *)
Class Reader (R : Type) : Type := {
  ReadFull : Z -> Go R (list byte * option error)
}.

(** [bytes.Buffer]: the unread bytes. *)
Module Buffer.

Abbreviation Buffer := (list byte).

Definition Write (p : list byte) : Go Buffer (Z * option error) :=
  fun b => Done ((len p, None), b ++ p).

Definition ReadFull (n : Z) : Go Buffer (list byte * option error) :=
  fun b =>
    if bool_decide (n <= 0) then Done (([], None), b)
    else if bool_decide (len b = 0) then Done (([], Some io_EOF), b)
    else if bool_decide (len b < n) then Done ((b, Some io_ErrUnexpectedEOF), [])
    else Done ((take (Z.to_nat n) b, None), drop (Z.to_nat n) b).

End Buffer.

#[global] Instance Buffer_Writer : Writer Buffer.Buffer := {| Write := Buffer.Write |}.
#[global] Instance Buffer_Reader : Reader Buffer.Buffer := {| ReadFull := Buffer.ReadFull |}.

(** ** Package [bits] *)

Module bits.

(** Modelled from the spec: package [pkg/bits] is not among the sources; the
    specification describes it as fixed-width, big-endian and
    length-prefixed ([u16] length, then the bytes) serialization helpers.
    [put enc b] stores [enc] at the front of the slice [b] and returns what
    the front of [b] now holds together with the tail slice after it; a
    slice that is too short panics. *)
Definition put (enc b : list byte) : outcome (list byte * list byte) :=
  if bool_decide (length enc <= length b)%nat
  then Done (enc, drop (length enc) b)
  else Panic "index out of range".

(** Modelled from the spec: [bits.Put8], one byte. *)
Definition Put8 (b : list byte) (v : Z) := put (be_bytes 1 v) b.
(** Modelled from the spec: [bits.Put16], two bytes, big-endian. *)
Definition Put16 (b : list byte) (v : Z) := put (be_bytes 2 v) b.
(** Modelled from the spec: [bits.Put32], four bytes, big-endian. *)
Definition Put32 (b : list byte) (v : Z) := put (be_bytes 4 v) b.
(** Modelled from the spec: [bits.Put64], eight bytes, big-endian. *)
Definition Put64 (b : list byte) (v : Z) := put (be_bytes 8 v) b.
(** Modelled from the spec: [bits.Putb], a [u16] length and the bytes. *)
Definition Putb (b : list byte) (v : list byte) := put (be_bytes 2 (len v) ++ v) b.
(** Modelled from the spec: [bits.Puts], a [u16] length and the bytes of
    the string. *)
Definition Puts (b : list byte) (v : string) := Putb b (list_byte_of_string v).

(** Modelled from the spec: reading [n] big-endian bytes from the front of
    a slice gives the value and the tail; a short slice panics. *)
Definition get (n : nat) (b : list byte) : outcome (Z * list byte) :=
  if bool_decide (n <= length b)%nat
  then Done (be_value 0 (take n b), drop n b)
  else Panic "index out of range".

(** Modelled from the spec: [bits.Get8]. *)
Definition Get8 (b : list byte) := get 1 b.
(** Modelled from the spec: [bits.Get16]. *)
Definition Get16 (b : list byte) := get 2 b.
(** Modelled from the spec: [bits.Get64]. *)
Definition Get64 (b : list byte) := get 8 b.

(** Modelled from the spec: [bits.Get32]. *)
Definition Get32 (b : list byte) := get 4 b.

(** Modelled from the spec: [bits.Getb], a [u16] length and as many bytes after
    it, with the tail; a slice that is too short panics. *)
Definition Getb (b : list byte) : outcome (list byte * list byte) :=
  nb <~ Get16 b;;
  let n := Z.to_nat (fst nb) in
  if bool_decide (n <= length (snd nb))%nat
  then Done (take n (snd nb), drop n (snd nb))
  else Panic "slice bounds out of range".

(** Modelled from the spec: [bits.Gets], a [u16] length and the bytes of the
    string. *)
Definition Gets (b : list byte) : outcome (string * list byte) :=
  vb <~ Getb b;;
  Done (string_of_list_byte (fst vb), snd vb).

End bits.

(** ** Package [message] *)

Module message.

(** [Kind] is a [uint8]. *)
Definition Kind : Type := Z.
Definition KindGet : Kind := 0.
Definition KindPut : Kind := 1.
Definition KindError : Kind := 2.
Definition KindAuth : Kind := 3.
Definition kindCount : Kind := 4.

(** The method of [Kind] that the source spells [STring]. *)
Definition STring (k : Kind) : string :=
  if k =? KindGet then "GET"
  else if k =? KindPut then "PUT"
  else if k =? kindCount then "Count"
  else if k =? KindAuth then "AUTH"
  else if k =? KindError then "ERROR"
  else "UNKNOWN".

Record Message : Type := {
  kind : Kind;
  tag : Z;
  key : string;
  value : string;
  version : Z
}.

Definition accessorPanic (m : Message) (accessorName : string) : string :=
  fmt.Sprintf "cannot call .%s for message of kind %v"
    [fmt.ArgString accessorName; fmt.ArgKind (kind m)].

Module Message.

Definition Kind (m : Message) : Kind := kind m.
Definition Tag (m : Message) : Z := tag m.

Definition Key (m : Message) : outcome string :=
  if (kind m =? KindGet) || (kind m =? KindPut) then Done (key m)
  else Panic (accessorPanic m "Key").

Definition Value (m : Message) : outcome string :=
  if (kind m =? KindAuth) || (kind m =? KindError) || (kind m =? KindPut)
  then Done (value m)
  else Panic (accessorPanic m "Value").

Definition Version (m : Message) : outcome Z :=
  if kind m =? KindPut then Done (version m)
  else Panic (accessorPanic m "Version").

Definition ForBroadcast (m : Message) : outcome Message :=
  if negb (kind m =? KindPut)
  then Panic (fmt.Sprintf "attempting to broadcast a message of kind: %v"
                [fmt.ArgKind (kind m)])
  else Done {| kind := kind m; tag := 0; key := key m; value := value m;
               version := version m |}.

End Message.

(** The zero value of [Message] ([var out Message]). *)
Definition zero_Message : Message :=
  {| kind := 0; tag := 0; key := EmptyString; value := EmptyString; version := 0 |}.

Definition NewGetMessage (tag : Z) (key : string) : Message :=
  {| kind := KindGet; tag := tag; key := key; value := EmptyString; version := 0 |}.

Definition NewPutMessage (tag : Z) (key value : string) (version : Z) : Message :=
  {| kind := KindPut; tag := tag; key := key; value := value; version := version |}.

Definition NewErrorMessage (tag : Z) (message : string) : Message :=
  {| kind := KindError; tag := tag; key := EmptyString; value := message; version := 0 |}.

Definition NewAuthMessage (tag : Z) (password : string) : Message :=
  {| kind := KindAuth; tag := tag; key := EmptyString; value := password; version := 0 |}.

Definition ErrUnderflow : error := errors_New "underflow".
Definition ErrBadMessage : error := errors_New "bad message".

(** *** Encoder *)

Module Encoder.

Record Encoder : Type := { buf : list byte; off : Z }.

(** [new(Encoder)]. *)
Definition new : Encoder := {| buf := []; off := 0 |}.

Definition makeroom (required : Z) : Go Encoder unit :=
  fun e =>
    if bool_decide (len (buf e) >= required) then Done (tt, e)
    else
      let larger := make required in
      Done (tt, {| buf := copy larger (buf e); off := off e |}).

(** The pattern of [put8], [put16], [put64] and [puts]: a [bits] writer
    applied to [e.buf[e.off:]], which shares the array of [e.buf]; then
    [e.off] advances by [width]. *)
Definition put_at (writer : list byte -> outcome (list byte * list byte))
    (width : Z) : Go Encoder unit :=
  fun e =>
    s <~ slice_from (buf e) (off e);;
    w <~ writer s;;
    Done (tt, {| buf := take (Z.to_nat (off e)) (buf e) ++ fst w ++ snd w;
                 off := off e + width |}).

Definition put8 (v : Z) : Go Encoder unit := put_at (fun b => bits.Put8 b v) 1.
Definition put16 (v : Z) : Go Encoder unit := put_at (fun b => bits.Put16 b v) 2.
Definition put64 (v : Z) : Go Encoder unit := put_at (fun b => bits.Put64 b v) 8.
Definition puts (v : string) : Go Encoder unit :=
  put_at (fun b => bits.Puts b v) (2 + strlen v).

(** The [switch m.kind] of [Encode]: [true] when a case matched. *)
Definition encode_body (m : Message) : Go Encoder bool :=
  e <- get_state;;
  if kind m =? KindGet then
    makeroom (off e + 2 + strlen (key m));;;
    puts (key m);;;
    ret true
  else if kind m =? KindPut then
    makeroom (off e + 12 + strlen (key m) + strlen (value m));;;
    puts (key m);;;
    puts (value m);;;
    put64 (version m);;;
    ret true
  else if (kind m =? KindAuth) || (kind m =? KindError) then
    makeroom (off e + 2 + strlen (value m));;;
    puts (value m);;;
    ret true
  else ret false.

Definition Encode {W} {HW : Writer W} (m : Message) : Go (Encoder * W) (option error) :=
  on_fst (modify (fun e => {| buf := buf e; off := 0 |}));;;
  on_fst (makeroom 3);;;
  on_fst (put8 (uint8 (kind m)));;;
  on_fst (put16 (tag m));;;
  matched <- on_fst (encode_body m);;
  if negb matched then ret (Some ErrBadMessage)
  else
    e <- on_fst get_state;;
    out <- lift (slice_to (buf e) (off e));;
    r <- on_snd (Write out);;
    match snd r with
    | Some err => ret (Some err)
    | None =>
        if negb (fst r =? off e)
        then ret (Some (fmt.Errorf "wrote %d of %d bytes: %w"
                          [fmt.ArgInt (fst r); fmt.ArgInt (off e);
                           fmt.ArgError (Some ErrUnderflow)]))
        else ret None
    end.

End Encoder.

(** *** Decoder *)

Module Decoder.

Record Decoder : Type := { buf : list byte; off : Z; err : option error }.

(** [new(Decoder)]. *)
Definition new : Decoder := {| buf := []; off := 0; err := None |}.

(** [get8], [get16] and [get64]: a [bits] reader applied to
    [d.buf[d.off:]]; then [d.off] advances by [width]. *)
Definition get_at (reader : list byte -> outcome (Z * list byte)) (width : Z)
  : Go Decoder Z :=
  fun d =>
    s <~ slice_from (buf d) (off d);;
    v <~ reader s;;
    Done (fst v, {| buf := buf d; off := off d + width; err := err d |}).

Definition get8 : Go Decoder Z := get_at bits.Get8 1.
Definition get16 : Go Decoder Z := get_at bits.Get16 2.
Definition get64 : Go Decoder Z := get_at bits.Get64 8.

Definition gets (n : Z) : Go Decoder string :=
  fun d =>
    b <~ slice_range (buf d) (off d) (off d + n);;
    Done (string_of_list_byte b,
          {| buf := buf d; off := off d + n; err := err d |}).

(** [read(r, n)], with [n] a [uint16]. *)
Definition read {R} {HR : Reader R} (n : Z) : Go (Decoder * R) unit :=
  fun dr =>
    let d := fst dr in
    let r := snd dr in
    let d1 :=
      if bool_decide (len (buf d) - off d < n)
      then let larger := make (off d + n) in
           {| buf := copy larger (buf d); off := off d; err := err d |}
      else d in
    match err d1 with
    | Some _ => Done (tt, (d1, r))
    | None =>
        dst <~ slice_to (buf d1) n;;
        res <~ ReadFull (len dst) r;;
        let data := fst (fst res) in
        let m := len data in
        let rerr := snd (fst res) in
        let buf2 := data ++ drop (length data) (buf d1) in
        let err2 :=
          match rerr with
          | None =>
              if negb (uint16 m =? n)
              then Some (fmt.Errorf "read %d of %d bytes: %w"
                           [fmt.ArgInt m; fmt.ArgInt n;
                            fmt.ArgError (Some ErrUnderflow)])
              else None
          | Some e => Some e
          end in
        Done (tt, ({| buf := buf2; off := 0; err := err2 |}, snd res))
    end.

(** [Decode(r, m)]: the message that [m] points to after the call, and the
    returned error. *)
Definition Decode {R} {HR : Reader R} (m : Message) : Go (Decoder * R) (Message * option error) :=
  on_fst (modify (fun d => {| buf := buf d; off := off d; err := None |}));;;
  read 5;;;
  k <- on_fst get8;;
  t <- on_fst get16;;
  let m := {| kind := k; tag := t; key := key m; value := value m;
              version := version m |} in
  m' <-
    (if kind m =? KindGet then
       n <- on_fst get16;;
       read n;;;
       s <- on_fst (gets n);;
       ret {| kind := kind m; tag := tag m; key := s; value := value m;
              version := version m |}
     else if kind m =? KindPut then
       n <- on_fst get16;;
       read (uint16 (n + 2));;;
       ks <- on_fst (gets n);;
       n <- on_fst get16;;
       read (uint16 (n + 8));;;
       vs <- on_fst (gets n);;
       ver <- on_fst get64;;
       ret {| kind := kind m; tag := tag m; key := ks; value := vs;
              version := ver |}
     else if (kind m =? KindAuth) || (kind m =? KindError) then
       n <- on_fst get16;;
       read n;;;
       s <- on_fst (gets n);;
       ret {| kind := kind m; tag := tag m; key := key m; value := s;
              version := version m |}
     else ret m);;
  d <- on_fst get_state;;
  ret (m', err d).

End Decoder.

(** *** Text for the logs *)

(** [unicode.IsPrint] on an ASCII rune: the characters from the space to the
    tilde. *)
Definition printable (c : ascii) : bool :=
  (32 <=? nat_of_ascii c)%nat && (nat_of_ascii c <=? 126)%nat.

(** What the loop of [repr] finds. *)
Inductive verdict : Type :=
| NotPrintable
| TooLong
| Short.

(** The loop of [repr], from index [i]. [range] over a string yields runes:
    a byte below 0x80 is the rune itself, at the index of the byte; a byte
    from 0x80 on starts a rune above [unicode.MaxASCII], or is invalid and
    comes out as U+FFFD, which is above it as well. So the loop runs over
    the bytes up to the first one that is not printable ASCII. *)
Fixpoint scan (i : nat) (any : string) : verdict :=
  match any with
  | EmptyString => Short
  | String r rest =>
      if negb (printable r) then NotPrintable
      else if (11 <? i)%nat then TooLong
      else scan (S i) rest
  end.

(** [repr], with the depth of the recursion bounded by [fuel]. *)
Fixpoint repr (fuel : nat) (any : string) : option string :=
  match fuel with
  | O => None
  | S fuel =>
      match scan 0 any with
      | NotPrintable => repr fuel (fmt.Sprintf "%x" [fmt.ArgString any])
      | TooLong => Some (String.substring 0 8 any +:+ "...")
      | Short => Some any
      end
  end.

(** *** The round trip of the tests *)

(** [packunpack] of [TestMessageWhatYouEncodeIsWhatYouDecode], on the
    encoder, the decoder and the buffer that its calls share: the message
    decoded, and the two errors that the test asserts to be nil. *)
Definition packunpack (in_ : Message)
  : Go (Encoder.Encoder * (Decoder.Decoder * Buffer.Buffer))
       (Message * (option error * option error)) :=
  fun st =>
    let encoder := fst st in
    let decoder := fst (snd st) in
    let buf := snd (snd st) in
    e <~ Encoder.Encode in_ (encoder, buf);;
    d <~ Decoder.Decode zero_Message (decoder, snd (snd e));;
    Done ((fst (fst d), (fst e, snd (fst d))),
          (fst (snd e), (fst (snd d), snd (snd d)))).

End message.

#[global] Instance byte_countable : Countable byte.
Proof.
  refine (inj_countable Byte.to_N Byte.of_N _).
  intros b; apply Byte.of_to_N.
Defined.

(** An error made by a library outside the program ([os], [net],
    [crypto/tls]), of which only the text is known: it is a value of its
    own, never identical to one of the program's sentinels. *)
Definition library_error (text : string) : error :=
  fmt_errorString text.

(** ** Package [storage] *)

Module storage.

Definition ErrNotFound : error := errors_New "Not found".
Definition ErrStalePut : error := errors_New "stale put".
Definition ErrInvalidStore : error :=
  errors_New "error: invalid or unsupproted store".

(** The [Store] interface: a key-value store. A receiver of the interface
    is its state [S]. *)
Module Store.
Class Store (S : Type) : Type := {
  Put : list byte -> list byte -> Go S (option error);
  Get : list byte -> Go S (bytes * option error)
}.
End Store.
Abbreviation Store := Store.Store.

(** The [VersionedStore] interface. *)
Module VersionedStore.
Class VersionedStore (S : Type) : Type := {
  Put : Z -> list byte -> list byte -> Go S (option error);
  Get : list byte -> Go S (Z * bytes * option error)
}.
End VersionedStore.
Abbreviation VersionedStore := VersionedStore.VersionedStore.

(** The [BlobStore] interface. *)
Module BlobStore.
Class BlobStore (S : Type) : Type := {
  Get : list byte -> Go S (bytes * option error);
  Put : list byte -> Go S (bytes * option error)
}.
End BlobStore.
Abbreviation BlobStore := BlobStore.BlobStore.

Definition dup (p : list byte) : list byte :=
  let q := make (len p) in
  copy q p.

(** *** The in-memory store *)

Module InMemorySTore.

Record InMemorySTore : Type := { m : gmap string bytes }.

Definition NewInMemoryStore : InMemorySTore := {| m := ∅ |}.

Definition Put (key value : list byte) : Go InMemorySTore (option error) :=
  fun s =>
    Done (None, {| m := <[string_of_list_byte key := Slice (dup value)]> (m s) |}).

Definition Get (key : list byte) : Go InMemorySTore (bytes * option error) :=
  fun s =>
    match m s !! string_of_list_byte key with
    | None =>
        Done ((Nil, Some (fmt.Errorf "%.40q: %w"
                            [fmt.ArgBytes key; fmt.ArgError (Some ErrNotFound)])), s)
    | Some value =>
        Done ((if is_nil value then Slice [] else value, None), s)
    end.

End InMemorySTore.

#[global] Instance InMemorySTore_Store : Store InMemorySTore.InMemorySTore :=
  {| Store.Put := InMemorySTore.Put; Store.Get := InMemorySTore.Get |}.

(** *** The versioned wrapper *)

Module VersionedWrapper.

Section Wrapper.
Context {S : Type} {HS : Store S}.

(** The receiver is the delegate; the mutex makes each call atomic, which
    is what a function of the state is. *)
Definition Put (version : Z) (key value : list byte) : Go S (option error) :=
  r <- Store.Get key;;
  let curr := fst r in
  let err := snd r in
  if bool_decide (err <> None) && negb (errors_Is err ErrNotFound) then ret err
  else
    stale <-
      match curr with
      | Nil => ret false
      | Slice c =>
          head <- lift (slice_range c 0 8);;
          let expectedVersion := uint64 (be_value 0 head + 1) in
          ret (version <? expectedVersion)
      end;;
    if (stale : bool) then ret (Some ErrStalePut)
    else
      let val := make (8 + len value) in
      let val := be_bytes 8 version ++ drop 8 val in
      let val := take 8 val ++ copy (drop 8 val) value in
      Store.Put key val.

Definition Get (key : list byte) : Go S (Z * bytes * option error) :=
  r <- Store.Get key;;
  let value := fst r in
  let err := snd r in
  match err with
  | None =>
      head <- lift (slice_to (data_of value) 8);;
      rest <- lift (slice_from (data_of value) 8);;
      ret (be_value 0 head, Slice rest, None)
  | Some _ => ret (0, value, err)
  end.

End Wrapper.
End VersionedWrapper.

#[global] Instance VersionedWrapper_VersionedStore {S} {HS : Store S} : VersionedStore S :=
  {| VersionedStore.Put := VersionedWrapper.Put;
     VersionedStore.Get := VersionedWrapper.Get |}.

(** *** The paired store *)

Module Paired.

Section Pair.
Context {F L : Type} {HF : Store F} {HL : Store L}.

(** The receiver is the pair of the fast and the slow store. The two log
    lines after the propagation are not part of the state. *)
Definition Get (Key : list byte) : Go (F * L) (bytes * option error) :=
  r <- on_fst (Store.Get Key);;
  let value := fst r in
  let err := snd r in
  if bool_decide (err <> None) then ret (value, err)
  else if negb (errors_Is err ErrNotFound) then ret (value, err)
  else
    r <- on_snd (Store.Get Key);;
    let value := fst r in
    let err := snd r in
    if bool_decide (err <> None) then ret (Nil, err)
    else
      ferr <- on_fst (Store.Put Key (data_of value));;
      ret (value, None).

End Pair.
End Paired.

(** *** The blob store *)

Module BlobStoreWrapper.

Section Blob.
(** [blake2b.Sum512], of [golang.org/x/crypto]. *)
Variable Sum512 : list byte -> list byte.
Context {S : Type} {HS : Store S}.

Definition Put (value : list byte) : Go S (bytes * option error) :=
  let hash := Sum512 value in
  let key := Slice hash in
  err <- Store.Put hash value;;
  ret (key, err).

Definition Get (key : list byte) : Go S (bytes * option error) :=
  Store.Get key.

End Blob.
End BlobStoreWrapper.

Definition BlobStoreWrapper_BlobStore (Sum512 : list byte -> list byte)
    {S} {HS : Store S} : BlobStore S :=
  {| BlobStore.Put := BlobStoreWrapper.Put Sum512;
     BlobStore.Get := BlobStoreWrapper.Get |}.

(** *** The on-disk store *)

(** The operating system as the program uses it ([os], [path/filepath]).
    The state [FS] is the file system; an error of the library is given by
    its text. *)
Class OS (FS : Type) : Type := {
  os_WriteFile : string -> list byte -> Z -> Go FS (option string);
  os_ReadFile : string -> Go FS (bytes * option string);
  os_MkdirAll : string -> Z -> Go FS (option string);
  (** [os.IsNotExist] on the library error with this text. *)
  is_not_exist : string -> bool;
  filepath_Join : list string -> string;
  filepath_Dir : string -> string
}.

(** A call of the operating system, for the record that [traced] keeps. *)
Inductive os_call : Type :=
| CallWriteFile (name : string) (data : list byte) (perm : Z)
| CallReadFile (name : string)
| CallMkdirAll (path : string) (perm : Z).

(** The same operating system, recording every call made to it. *)
Definition traced {FS} {HOS : OS FS} : OS (FS * list os_call) :=
  {| os_WriteFile name data perm :=
       (r <- on_fst (os_WriteFile name data perm);;
        on_snd (modify (fun t => t ++ [CallWriteFile name data perm]));;;
        ret r)%go;
     os_ReadFile name :=
       (r <- on_fst (os_ReadFile name);;
        on_snd (modify (fun t => t ++ [CallReadFile name]));;;
        ret r)%go;
     os_MkdirAll path perm :=
       (r <- on_fst (os_MkdirAll path perm);;
        on_snd (modify (fun t => t ++ [CallMkdirAll path perm]));;;
        ret r)%go;
     is_not_exist := is_not_exist;
     filepath_Join := filepath_Join;
     filepath_Dir := filepath_Dir |}.

Module DiskStore.

Record DiskStore : Type := { dir : string }.

Definition NewDiskStore (dir : string) : DiskStore := {| dir := dir |}.

Section Disk.
Context {FS : Type} {HOS : OS FS}.

(** [os.IsNotExist(err)]; it is false of the nil error. *)
Definition os_IsNotExist (err : option string) : bool :=
  match err with
  | None => false
  | Some text => is_not_exist text
  end.

Definition lib_error (err : option string) : option error :=
  library_error <$> err.

Definition lib_arg (err : option string) : fmt.arg :=
  fmt.ArgError (lib_error err).

Definition pathFor (s : DiskStore) (key : list byte) : outcome string :=
  let hex := fmt.Sprintf "%02x" [fmt.ArgBytes key] in
  if bool_decide (2 <= String.length hex)%nat
  then Done (filepath_Join [dir s; String.substring 0 2 hex; hex])
  else Panic "slice bounds out of range".

Definition Put (s : DiskStore) (key value : list byte) : Go FS (option error) :=
  p <- lift (pathFor s key);;
  err <- os_WriteFile p value 384;;
  if bool_decide (err <> None) then ret None
  else if negb (os_IsNotExist err)
  then ret (Some (fmt.Errorf "could not write %q: %w" [fmt.ArgString p; lib_arg err]))
  else
    err <- os_MkdirAll (filepath_Dir p) 448;;
    if bool_decide (err <> None)
    then ret (Some (fmt.Errorf "could not make dir for %q: %w"
                      [fmt.ArgString p; lib_arg err]))
    else
      err <- os_WriteFile p value 384;;
      ret (lib_error err).

Definition Get (s : DiskStore) (key : list byte) : Go FS (bytes * option error) :=
  p <- lift (pathFor s key);;
  r <- os_ReadFile p;;
  let value := fst r in
  let err := snd r in
  if os_IsNotExist err
  then ret (value, Some (fmt.Errorf "%x: %w"
                           [fmt.ArgBytes key; fmt.ArgError (Some ErrNotFound)]))
  else ret (value, lib_error err).

End Disk.
End DiskStore.

(** *** Applying a message to a versioned store *)

Section Apply.
Context {S : Type} {HV : VersionedStore S}.
Import message.

Definition ApplyMessage (in_ : Message) : Go S Message :=
  let inTag := Message.Tag in_ in
  let kind := Message.Kind in_ in
  if kind =? KindGet then
    k <- lift (Message.Key in_);;
    r <- VersionedStore.Get (list_byte_of_string k);;
    let version := fst (fst r) in
    let value := snd (fst r) in
    match snd r with
    | Some err => ret (NewErrorMessage inTag (Error err))
    | None =>
        k <- lift (Message.Key in_);;
        ret (NewPutMessage inTag k (string_of_list_byte (data_of value)) version)
    end
  else if kind =? KindPut then
    ver <- lift (Message.Version in_);;
    k <- lift (Message.Key in_);;
    v <- lift (Message.Value in_);;
    err <- VersionedStore.Put ver (list_byte_of_string k) (list_byte_of_string v);;
    match err with
    | Some err => ret (NewErrorMessage inTag (Error err))
    | None => ret in_
    end
  else if (kind =? KindAuth) || (kind =? KindError) then
    ret (NewErrorMessage inTag
           (fmt.Sprintf "messages of kind %s cannot be applied" [fmt.ArgKind kind]))
  else ret (NewErrorMessage inTag "unknown message kind").

End Apply.

End storage.

(** ** Package [server] *)

Module server.

Definition ErrPasswordWithoutTLS : error :=
  errors_New "must use TLS if authorization is required".

(** The fields of [options] but [store], which is the state of the versioned
    store and plays no part in [Listen]. *)
Record options : Type := {
  bind : string;
  tls : bool;
  certFile : string;
  keyFile : string;
  authHash : string
}.

Definition Option : Type := options -> options.

Definition WithBind (bind : string) : Option :=
  fun o => {| bind := bind; tls := tls o; certFile := certFile o;
              keyFile := keyFile o; authHash := authHash o |}.

Definition WithKeyPair (certFile keyFile : string) : Option :=
  fun o => {| bind := bind o; tls := true; certFile := certFile;
              keyFile := keyFile; authHash := authHash o |}.

Definition WithAuthHash (value : string) : Option :=
  fun o => {| bind := bind o; tls := tls o; certFile := certFile o;
              keyFile := keyFile o; authHash := value |}.

(** The network as [Listen] uses it ([net], [crypto/tls]): [N] is the state
    of the host's sockets, [Cert] a loaded certificate, [Ln] a listener. An
    error of the library is given by its text. *)
Class Net (N Cert Ln : Type) : Type := {
  tls_LoadX509KeyPair : string -> string -> Go N (Cert * option string);
  tls_Listen : string -> string -> Cert -> Go N (option Ln * option string);
  net_Listen : string -> string -> Go N (option Ln * option string);
  Addr : Ln -> string
}.

Section Listen.
Context {N Cert Ln : Type} {HN : Net N Cert Ln}.

(** The fields of [Server] that [Listen] reads and writes. *)
Record Server : Type := { opts : options; ln : option Ln }.

Definition New (opts : list Option) : Server :=
  let zero := {| bind := EmptyString; tls := false; certFile := EmptyString;
                 keyFile := EmptyString; authHash := EmptyString |} in
  let o := {| bind := ":8000"; tls := tls zero; certFile := certFile zero;
              keyFile := keyFile zero; authHash := authHash zero |} in
  {| opts := fold_left (fun acc (f : Option) => f acc) opts o; ln := None |}.

Definition set_ln (l : option Ln) (s : Server) : Server :=
  {| opts := opts s; ln := l |}.

(** [Listen]: the address and the error. *)
Definition Listen : Go (Server * N) (string * option error) :=
  s <- on_fst get_state;;
  r <-
    (if tls (opts s) then
       c <- on_snd (tls_LoadX509KeyPair (certFile (opts s)) (keyFile (opts s)));;
       match snd c with
       | None =>
           l <- on_snd (tls_Listen "tcp" (bind (opts s)) (fst c));;
           on_fst (modify (set_ln (fst l)));;;
           ret (inr (library_error <$> snd l))
       | Some e => ret (inr (Some (library_error e)))
       end
     else
       if negb (String.eqb (authHash (opts s)) EmptyString)
       then ret (inl (EmptyString, Some ErrPasswordWithoutTLS))
       else
         l <- on_snd (net_Listen "tcp" (bind (opts s)));;
         on_fst (modify (set_ln (fst l)));;;
         ret (inr (library_error <$> snd l)));;
  match r with
  | inl early => ret early
  | inr (Some err) => ret (EmptyString, Some err)
  | inr None =>
      s <- on_fst get_state;;
      match ln s with
      | Some l => ret (Addr l, None)
      | None => panic "invalid memory address or nil pointer dereference"
      end
  end.

End Listen.
End server.

(** ** Package [node] *)

Module node.
Import storage.

Definition NodeKeyLen : Z := 20.
Definition modeNotLoaded : Z := 4294967295.

(** [syscall.Errno] values, [fs.OK] and the [unix] flags of [setxattr]. *)
Definition OK : Z := 0.
Definition EIO : Z := 5.
Definition EEXIST : Z := 17.
Definition ENODATA : Z := 61.
Definition ERANGE : Z := 34.
Definition XATTR_CREATE : Z := 1.
Definition XATTR_REPLACE : Z := 2.

(** A [*CryptNode]. *)
Abbreviation addr := positive.

(** The fields of [CryptNode]; the embedded [fs.Inode], the pointer to the
    factory and the mutex are left to the callers. [Time] is the time in
    nanoseconds since the epoch; a map field is [None] while it is the nil
    map; [Key] is the array of [NodeKeyLen] bytes. *)
Record CryptNode : Type := {
  shouldSaveMetadata : bool;
  shouldReloadMetadata : bool;
  shouldSaveContent : bool;
  User : Z;
  Group : Z;
  Mode : Z;
  Time : Z;
  name : string;
  Key : list byte;
  version : Z;
  xattrs : option (gmap string bytes);
  contentKey : bytes;
  content : bytes;
  Children : option (gmap string addr)
}.

(** [var node CryptNode]. *)
Definition zero_CryptNode : CryptNode :=
  {| shouldSaveMetadata := false; shouldReloadMetadata := false;
     shouldSaveContent := false; User := 0; Group := 0; Mode := 0; Time := 0;
     name := EmptyString; Key := make NodeKeyLen; version := 0; xattrs := None;
     contentKey := Nil; content := Nil; Children := None |}.

Definition set_shouldSaveMetadata (v : bool) (n : CryptNode) : CryptNode :=
  {| shouldSaveMetadata := v; shouldReloadMetadata := shouldReloadMetadata n;
     shouldSaveContent := shouldSaveContent n; User := User n; Group := Group n;
     Mode := Mode n; Time := Time n; name := name n; Key := Key n;
     version := version n; xattrs := xattrs n; contentKey := contentKey n;
     content := content n; Children := Children n |}.

Definition set_shouldReloadMetadata (v : bool) (n : CryptNode) : CryptNode :=
  {| shouldSaveMetadata := shouldSaveMetadata n; shouldReloadMetadata := v;
     shouldSaveContent := shouldSaveContent n; User := User n; Group := Group n;
     Mode := Mode n; Time := Time n; name := name n; Key := Key n;
     version := version n; xattrs := xattrs n; contentKey := contentKey n;
     content := content n; Children := Children n |}.

Definition set_shouldSaveContent (v : bool) (n : CryptNode) : CryptNode :=
  {| shouldSaveMetadata := shouldSaveMetadata n;
     shouldReloadMetadata := shouldReloadMetadata n;
     shouldSaveContent := v; User := User n; Group := Group n;
     Mode := Mode n; Time := Time n; name := name n; Key := Key n;
     version := version n; xattrs := xattrs n; contentKey := contentKey n;
     content := content n; Children := Children n |}.

Definition set_version (v : Z) (n : CryptNode) : CryptNode :=
  {| shouldSaveMetadata := shouldSaveMetadata n;
     shouldReloadMetadata := shouldReloadMetadata n;
     shouldSaveContent := shouldSaveContent n; User := User n; Group := Group n;
     Mode := Mode n; Time := Time n; name := name n; Key := Key n;
     version := v; xattrs := xattrs n; contentKey := contentKey n;
     content := content n; Children := Children n |}.

Definition set_xattrs (v : option (gmap string bytes)) (n : CryptNode) : CryptNode :=
  {| shouldSaveMetadata := shouldSaveMetadata n;
     shouldReloadMetadata := shouldReloadMetadata n;
     shouldSaveContent := shouldSaveContent n; User := User n; Group := Group n;
     Mode := Mode n; Time := Time n; name := name n; Key := Key n;
     version := version n; xattrs := v; contentKey := contentKey n;
     content := content n; Children := Children n |}.

Definition set_contentKey (v : bytes) (n : CryptNode) : CryptNode :=
  {| shouldSaveMetadata := shouldSaveMetadata n;
     shouldReloadMetadata := shouldReloadMetadata n;
     shouldSaveContent := shouldSaveContent n; User := User n; Group := Group n;
     Mode := Mode n; Time := Time n; name := name n; Key := Key n;
     version := version n; xattrs := xattrs n; contentKey := v;
     content := content n; Children := Children n |}.

(** The nodes that pointers point to. *)
Abbreviation heap := (gmap addr CryptNode).

(** A map read: the nil map reads as the empty map. *)
Definition entries {K V} `{Countable K} (m : option (gmap K V)) : gmap K V :=
  match m with
  | Some m => m
  | None => ∅
  end.

(** *** The node factory *)

(** The registry of the factory; [Root], the inode generator and the stores
    are not touched by the registration. *)
Record CryptNodeFactory : Type := {
  known : option (gmap (list byte) addr)
}.

(** A node that escapes ([&node]) lives at an address that was not in use. *)
Definition allocate (n : CryptNode) : Go heap addr :=
  fun h => let a := fresh (dom h) in Done (a, <[a := n]> h).

Definition addKnown (node : addr) : Go (CryptNodeFactory * heap) unit :=
  fun fh =>
    let factory := fst fh in
    let h := snd fh in
    let known0 :=
      match known factory with
      | None => ∅
      | Some k => k
      end in
    match h !! node with
    | None => Panic "invalid memory address or nil pointer dereference"
    | Some n =>
        match known0 !! Key n with
        | Some _ => Done (tt, ({| known := Some known0 |}, h))
        | None => Done (tt, ({| known := Some (<[Key n := node]> known0) |}, h))
        end
    end.

Definition ExistingNode (name : string) (key : list byte)
  : Go (CryptNodeFactory * heap) addr :=
  let node := zero_CryptNode in
  let node :=
    {| shouldSaveMetadata := shouldSaveMetadata node;
       shouldReloadMetadata := shouldReloadMetadata node;
       shouldSaveContent := shouldSaveContent node; User := User node;
       Group := Group node; Mode := modeNotLoaded; Time := Time node;
       name := name; Key := key; version := version node;
       xattrs := xattrs node; contentKey := contentKey node;
       content := content node; Children := Children node |} in
  a <- on_snd (allocate node);;
  addKnown a;;;
  ret a.

(** [getKnown]: the registered node, or the nil pointer. *)
Definition getKnown (key : list byte) : Go (CryptNodeFactory * heap) (option addr) :=
  fh <- get_state;;
  match known (fst fh) with
  | None => ret None
  | Some k => ret (k !! key)
  end.

(** *** Serialization *)

(** A write through the cursor [b] of [serialize]: the state is the part of
    [buf] already behind the cursor and the slice [b] itself. *)
Definition emit (writer : list byte -> outcome (list byte * list byte))
  : Go (list byte * list byte) unit :=
  fun c =>
    w <~ writer (snd c);;
    Done (tt, (fst c ++ fst w, snd w)).

Fixpoint for_each {S A} (l : list A) (body : A -> Go S unit) : Go S unit :=
  match l with
  | [] => ret tt
  | x :: rest => body x;;; for_each rest body
  end.

(** [serialize]. Go leaves the order in which [range] visits a map open; the
    order here is that of [map_to_list]. A child pointer is dereferenced for
    its key. *)
Definition serialize (h : heap) (node : CryptNode) : outcome (list byte) :=
  let xs := map_to_list (entries (xattrs node)) in
  let cs := map_to_list (entries (Children node)) in
  let size := 24 + len (data_of (contentKey node)) in
  let size :=
    fold_left (fun size av => size + 4 + strlen (fst av) + len (data_of (snd av)))
      xs size in
  let size :=
    fold_left (fun size c => size + 4 + NodeKeyLen + strlen (fst c)) cs size in
  let buf := make size in
  r <~ (emit (fun b => bits.Put32 b (uint32 (User node)));;;
        emit (fun b => bits.Put32 b (uint32 (Group node)));;;
        emit (fun b => bits.Put32 b (uint32 (Mode node)));;;
        emit (fun b => bits.Put64 b (uint64 (Time node)));;;
        emit (fun b => bits.Putb b (data_of (contentKey node)));;;
        emit (fun b => bits.Put16 b (uint16 (Z.of_nat (length xs))));;;
        for_each xs (fun av =>
          emit (fun b => bits.Puts b (fst av));;;
          emit (fun b => bits.Putb b (data_of (snd av))));;;
        for_each cs (fun c =>
          match h !! snd c with
          | None => panic "invalid memory address or nil pointer dereference"
          | Some childNode =>
              emit (fun b => bits.Puts b (fst c));;;
              emit (fun b => bits.Putb b (Key childNode))
          end)) ([], buf);;
  Done (fst (snd r) ++ snd (snd r)).

(** *** Saving *)

Section Sync.
Context {M B : Type} {HM : VersionedStore M} {HB : BlobStore B}.

(** The state of a method of a node: the node, the metadata store and the
    blob store of its factory. *)
Definition world : Type := CryptNode * (M * B).

Definition on_node {A} (m : Go CryptNode A) : Go world A := on_fst m.
Definition on_Metadata {A} (m : Go M A) : Go world A := on_snd (on_fst m).
Definition on_Blobs {A} (m : Go B A) : Go world A := on_snd (on_snd m).

Definition saveMetadata (h : heap) : Go world (option error) :=
  node <- on_node get_state;;
  value <- lift (serialize h node);;
  err <- on_Metadata (VersionedStore.Put (uint64 (version node + 1)) (Key node) value);;
  match err with
  | Some e => ret (Some e)
  | None =>
      on_node (modify (fun n => set_version (uint64 (version n + 1)) n));;;
      ret None
  end.

(** The first [if] of [sync]: the errno it returns, or [None] when control
    goes on to the second. *)
Definition sync_content : Go world (option Z) :=
  node <- on_node get_state;;
  if shouldSaveContent node then
    let prev := contentKey node in
    r <- on_Blobs (BlobStore.Put (data_of (content node)));;
    on_node (modify (set_contentKey (fst r)));;;
    match snd r with
    | Some err => ret (Some EIO)
    | None =>
        on_node (modify (set_shouldSaveContent false));;;
        node <- on_node get_state;;
        (if negb (bytes_Equal prev (contentKey node))
         then on_node (modify (set_shouldSaveMetadata true))
         else ret tt);;;
        ret None
    end
  else ret None.

(** The second [if] of [sync] and the final return. *)
Definition sync_metadata (h : heap) : Go world Z :=
  node <- on_node get_state;;
  if shouldSaveMetadata node then
    err <- saveMetadata h;;
    match err with
    | Some e =>
        (if errors_Is err ErrStalePut
         then on_node (modify (set_shouldReloadMetadata true))
         else ret tt);;;
        ret EIO
    | None =>
        on_node (modify (set_shouldSaveMetadata false));;;
        ret OK
    end
  else ret OK.

Definition sync (h : heap) : Go world Z :=
  early <- sync_content;;
  match early with
  | Some errno => ret errno
  | None => sync_metadata h
  end.

(** *** Extended attributes *)

(** [m[k] = v]: an assignment to an entry of the nil map panics. *)
Definition assign (k : string) (v : bytes) : Go CryptNode unit :=
  fun n =>
    match xattrs n with
    | None => Panic "assignment to entry in nil map"
    | Some m => Done (tt, set_xattrs (Some (<[k := v]> m)) n)
    end.

(** [m[k]] as a value: the zero value, the nil slice, when [k] is absent. *)
Definition index (m : option (gmap string bytes)) (k : string) : bytes :=
  match entries m !! k with
  | Some v => v
  | None => Nil
  end.

Definition Setxattr (h : heap) (attr : string) (data : list byte) (flags : Z)
  : Go world Z :=
  on_node (modify (fun n =>
    match xattrs n with
    | None => set_xattrs (Some ∅) n
    | Some _ => n
    end));;;
  node <- on_node get_state;;
  let ok := bool_decide (is_Some (entries (xattrs node) !! attr)) in
  if (flags =? XATTR_CREATE) && ok then ret EEXIST
  else if (flags =? XATTR_REPLACE) && negb (flags =? XATTR_CREATE) && negb ok
  then ret ENODATA
  else
    let rbdata := index (xattrs node) attr in
    on_node (assign attr (Slice ([] ++ data)));;;
    on_node (modify (set_shouldSaveMetadata true));;;
    errno <- sync h;;
    (if negb (errno =? 0) then
       if negb (is_nil rbdata) then on_node (assign attr rbdata)
       else on_node (modify (fun n => set_xattrs (delete attr <$> xattrs n) n))
     else ret tt);;;
    ret errno.

(** [Getxattr] into a destination of [dest] bytes: the number it returns,
    the bytes copied and the errno. *)
Definition Getxattr (attr : string) (dest : Z) : Go world (Z * list byte * Z) :=
  node <- on_node get_state;;
  match xattrs node with
  | None => ret (0, [], ENODATA)
  | Some m =>
      match m !! attr with
      | None => ret (0, [], ENODATA)
      | Some value =>
          if len (data_of value) >? dest
          then ret (uint32 (len (data_of value)), [], ERANGE)
          else ret (uint32 (len (data_of value)), data_of value, 0)
      end
  end.

End Sync.

(** *** The versioned store of the node tests *)

(** [fakeVersionedStore], the store that the tests of the package install
    to make saving fail: every call returns the next error of [errs], or
    [err] when [errs] is empty. *)
Module fakeVersionedStore.

Record fakeVersionedStore : Type := {
  err : option error;
  errs : list (option error)
}.

Definition next : Go fakeVersionedStore (option error) :=
  fun s =>
    match errs s with
    | e :: rest => Done (e, {| err := err s; errs := rest |})
    | [] => Done (err s, s)
    end.

Definition Get (key : list byte) : Go fakeVersionedStore (Z * bytes * option error) :=
  e <- next;; ret (0, Nil, e).

Definition Put (version : Z) (key value : list byte)
  : Go fakeVersionedStore (option error) := next.

Definition setErr (e : option error) : Go fakeVersionedStore unit :=
  modify (fun s => {| err := e; errs := errs s |}).

Definition setErrSequence (es : list (option error)) : Go fakeVersionedStore unit :=
  modify (fun s => {| err := err s; errs := es |}).

End fakeVersionedStore.

Definition fakeVersionedStore_VersionedStore
  : VersionedStore fakeVersionedStore.fakeVersionedStore :=
  {| VersionedStore.Put := fakeVersionedStore.Put;
     VersionedStore.Get := fakeVersionedStore.Get |}.

(** *** Further fields and constants *)

(** More [syscall.Errno] values, and the file types of the mode
    ([syscall.S_IFDIR], [S_IFREG], [S_IFLNK]). *)
Definition ENOENT : Z := 2.
Definition ENOTEMPTY : Z := 39.
Definition S_IFDIR : Z := 16384.
Definition S_IFREG : Z := 32768.
Definition S_IFLNK : Z := 40960.

Definition set_content (v : bytes) (n : CryptNode) : CryptNode :=
  {| shouldSaveMetadata := shouldSaveMetadata n;
     shouldReloadMetadata := shouldReloadMetadata n;
     shouldSaveContent := shouldSaveContent n; User := User n; Group := Group n;
     Mode := Mode n; Time := Time n; name := name n; Key := Key n;
     version := version n; xattrs := xattrs n; contentKey := contentKey n;
     content := v; Children := Children n |}.

Definition set_Children (v : option (gmap string addr)) (n : CryptNode) : CryptNode :=
  {| shouldSaveMetadata := shouldSaveMetadata n;
     shouldReloadMetadata := shouldReloadMetadata n;
     shouldSaveContent := shouldSaveContent n; User := User n; Group := Group n;
     Mode := Mode n; Time := Time n; name := name n; Key := Key n;
     version := version n; xattrs := xattrs n; contentKey := contentKey n;
     content := content n; Children := v |}.

Definition set_User (v : Z) (n : CryptNode) : CryptNode :=
  {| shouldSaveMetadata := shouldSaveMetadata n;
     shouldReloadMetadata := shouldReloadMetadata n;
     shouldSaveContent := shouldSaveContent n; User := v; Group := Group n;
     Mode := Mode n; Time := Time n; name := name n; Key := Key n;
     version := version n; xattrs := xattrs n; contentKey := contentKey n;
     content := content n; Children := Children n |}.

Definition set_Group (v : Z) (n : CryptNode) : CryptNode :=
  {| shouldSaveMetadata := shouldSaveMetadata n;
     shouldReloadMetadata := shouldReloadMetadata n;
     shouldSaveContent := shouldSaveContent n; User := User n; Group := v;
     Mode := Mode n; Time := Time n; name := name n; Key := Key n;
     version := version n; xattrs := xattrs n; contentKey := contentKey n;
     content := content n; Children := Children n |}.

Definition set_Mode (v : Z) (n : CryptNode) : CryptNode :=
  {| shouldSaveMetadata := shouldSaveMetadata n;
     shouldReloadMetadata := shouldReloadMetadata n;
     shouldSaveContent := shouldSaveContent n; User := User n; Group := Group n;
     Mode := v; Time := Time n; name := name n; Key := Key n;
     version := version n; xattrs := xattrs n; contentKey := contentKey n;
     content := content n; Children := Children n |}.

Definition set_Time (v : Z) (n : CryptNode) : CryptNode :=
  {| shouldSaveMetadata := shouldSaveMetadata n;
     shouldReloadMetadata := shouldReloadMetadata n;
     shouldSaveContent := shouldSaveContent n; User := User n; Group := Group n;
     Mode := Mode n; Time := v; name := name n; Key := Key n;
     version := version n; xattrs := xattrs n; contentKey := contentKey n;
     content := content n; Children := Children n |}.

(** *** Invalidating the cache *)

(** [InvalidateCache]: the node registered under the key of the mutation
    lives in the heap. The log lines are not part of the state (the call of
    [mutation.String()] that they make returns for every message). *)
Definition InvalidateCache (mutation : message.Message)
  : Go (CryptNodeFactory * heap) unit :=
  k <- lift (message.Message.Key mutation);;
  if negb (strlen k =? NodeKeyLen) then ret tt
  else
    k <- lift (message.Message.Key mutation);;
    let key := copy (make NodeKeyLen) (list_byte_of_string k) in
    node <- getKnown key;;
    match node with
    | None => ret tt
    | Some a =>
        fh <- get_state;;
        match snd fh !! a with
        | None => panic "invalid memory address or nil pointer dereference"
        | Some n =>
            ver <- lift (message.Message.Version mutation);;
            if ver <=? version n then ret tt
            else on_snd (modify (fun h : heap =>
                                   <[a := set_shouldReloadMetadata true n]> h))
        end
    end.

(** *** Operations on a node *)

Section Operations.
Context {M B : Type} {HM : VersionedStore M} {HB : BlobStore B}.

(** [node.Children[name] = child]: an assignment to an entry of the nil map
    panics. *)
Definition assign_child (name : string) (child : addr) : Go CryptNode unit :=
  fun n =>
    match Children n with
    | None => Panic "assignment to entry in nil map"
    | Some m => Done (tt, set_Children (Some (<[name := child]> m)) n)
    end.

(** [delete(node.Children, name)]: nothing happens on the nil map. *)
Definition delete_child (name : string) : Go CryptNode unit :=
  modify (fun n => set_Children (delete name <$> Children n) n).

(** [Unlink]; the children are looked up in the heap [h] when the node is
    serialized. *)
Definition Unlink (h : heap) (name : string) : Go (world (M := M) (B := B)) Z :=
  node <- on_node get_state;;
  let child := entries (Children node) !! name in
  on_node (delete_child name);;;
  on_node (modify (set_shouldSaveMetadata true));;;
  errno <- sync h;;
  (if negb (errno =? 0) then
     match child with
     | Some c => on_node (assign_child name c)
     | None => ret tt
     end
   else ret tt);;;
  ret errno.

(** [Rmdir]. *)
Definition Rmdir (h : heap) (name : string) : Go (world (M := M) (B := B)) Z :=
  node <- on_node get_state;;
  match entries (Children node) !! name with
  | None => ret ENOENT
  | Some c =>
      match h !! c with
      | None => panic "invalid memory address or nil pointer dereference"
      | Some child =>
          if negb (Z.of_nat (size (entries (Children child))) =? 0)
          then ret ENOTEMPTY
          else
            on_node (delete_child name);;;
            on_node (modify (set_shouldSaveMetadata true));;;
            errno <- sync h;;
            (if negb (errno =? 0) then on_node (assign_child name c)
             else ret tt);;;
            ret errno
      end
  end.

(** [Flush]; the lines that it prints to the standard output are not part
    of the state. [Release] and [Fsync] are calls of [Flush]. *)
Definition Flush (h : heap) : Go (world (M := M) (B := B)) Z :=
  node <- on_node get_state;;
  let prev := contentKey node in
  errno <- sync h;;
  node <- on_node get_state;;
  (if negb (errno =? 0) && negb (bytes_Equal prev (contentKey node))
   then
     on_node (modify (set_contentKey prev));;;
     on_node (modify (set_content Nil))
   else ret tt);;;
  ret errno.

Definition Release (h : heap) : Go (world (M := M) (B := B)) Z := Flush h.
Definition Fsync (h : heap) (flags : Z) : Go (world (M := M) (B := B)) Z := Flush h.

(** [ensureContentLoaded]. *)
Definition ensureContentLoaded : Go (world (M := M) (B := B)) Z :=
  node <- on_node get_state;;
  if shouldSaveContent node then ret 0
  else if (Z.land (Mode node) S_IFREG =? 0) && (Z.land (Mode node) S_IFLNK =? 0)
  then ret 0
  else if len (data_of (contentKey node)) =? 0 then ret 0
  else if negb (len (data_of (content node)) =? 0) then ret 0
  else
    r <- on_Blobs (BlobStore.Get (data_of (contentKey node)));;
    match snd r with
    | Some _ => ret EIO
    | None =>
        on_node (modify (set_content (fst r)));;;
        ret 0
    end.

End Operations.

(** *** Reading and writing the content *)

(** [Read] into a destination of [dest] bytes at the offset [off] (an
    [int64], not above the length of the content where it is added to): the
    bytes of the result and the errno. *)
Definition Read (node : CryptNode) (dest off : Z) : outcome (bytes * Z) :=
  let content := data_of (content node) in
  if off >? len content then Done (Nil, 0)
  else
    let end_ := off + dest in
    let end_ := if end_ >? len content then len content else end_ in
    r <~ slice_range content off end_;;
    Done (Slice r, 0).

(** [Readlink]. *)
Definition Readlink (node : CryptNode) : bytes * Z := (content node, 0).

(** The content of a node as a Go slice: the bytes up to its length are
    [content node]; [spare] holds the bytes of its array from the length to
    the capacity, which a slice expression can bring back. The nil slice
    has no array. *)
Definition file : Type := CryptNode * list byte.

Definition array (f : file) : list byte :=
  match content (fst f) with
  | Nil => []
  | Slice c => c ++ snd f
  end.

(** [node.content[:size]], for a size within the capacity. *)
Definition reslice (size : Z) (f : file) : file :=
  match content (fst f) with
  | Nil => f
  | Slice _ =>
      (set_content (Slice (take (Z.to_nat size) (array f))) (fst f),
       drop (Z.to_nat size) (array f))
  end.

(** [resize]: the result is the previous slice (its bytes and its spare
    capacity). *)
Definition resize (size : Z) : Go file (bytes * list byte) :=
  fun f =>
    let previous := (content (fst f), snd f) in
    if size >? len (array f) then
      let larger := make size in
      Done (previous,
            (set_content (Slice (copy larger (data_of (content (fst f))))) (fst f), []))
    else Done (previous, reslice size f).

(** [copy(node.content[off:], data)]. *)
Definition write_at (off : Z) (data : list byte) : Go file unit :=
  fun f =>
    let c := data_of (content (fst f)) in
    dst <~ slice_from c off;;
    let written := take (Z.to_nat off) c ++ copy dst data in
    Done (tt, (set_content
                 (match content (fst f) with
                  | Nil => Nil
                  | Slice _ => Slice written
                  end) (fst f), snd f)).

(** [Write] of [data] at the offset [off], at the time [now] of
    [time.Now()]: the number of bytes written and the errno. The sum of the
    offset and the length is taken as it is: it is an [int64] in the source,
    the same number while it is below 2^63. *)
Definition Write (now : Z) (data : list byte) (off : Z) : Go file (Z * Z) :=
  let sz := len data in
  f <- get_state;;
  (if off + sz >? len (data_of (content (fst f)))
   then previous <- resize (uint64 (off + sz));; ret tt
   else ret tt);;;
  write_at off data;;;
  modify (fun f : file => (set_Time now (fst f), snd f));;;
  (if sz >? 0
   then modify (fun f : file => (set_shouldSaveContent true (fst f), snd f))
   else ret tt);;;
  ret (uint32 sz, 0).

(** *** Changing the attributes *)

(** What [Setattr] reads from its [*fuse.SetAttrIn]: the results of
    [GetMTime], [GetUID], [GetGID], [GetMode] and [GetSize], [None] when the
    second result is false. *)
Record SetAttrIn : Type := {
  GetMTime : option Z;
  GetUID : option Z;
  GetGID : option Z;
  GetMode : option Z;
  GetSize : option Z
}.

Section Attributes.
Context {M B : Type} {HM : VersionedStore M} {HB : BlobStore B}.

(** The state of [Setattr]: the node with the stores of its factory, and
    the spare capacity of its content. *)
Definition on_world {A} (m : Go (world (M := M) (B := B)) A)
  : Go (world (M := M) (B := B) * list byte) A := on_fst m.

Definition on_content {A} (m : Go file A)
  : Go (world (M := M) (B := B) * list byte) A :=
  fun st =>
    match m (fst (fst st), snd st) with
    | Done (a, f') => Done (a, ((fst f', snd (fst st)), snd f'))
    | Panic r => Panic r
    end.

(** An assignment to a field when the value is there. *)
Definition when {A S} (v : option A) (f : A -> Go S unit) : Go S unit :=
  match v with
  | Some a => f a
  | None => ret tt
  end.

Definition Setattr (h : heap) (now : Z) (in_ : SetAttrIn)
  : Go (world (M := M) (B := B) * list byte) Z :=
  st <- get_state;;
  let node := fst (fst st) in
  let rbtime := (fun _ => Time node) <$> GetMTime in_ in
  when (GetMTime in_) (fun t => on_world (on_node (modify (set_Time t))));;;
  let rbuser := (fun _ => User node) <$> GetUID in_ in
  when (GetUID in_) (fun uid => on_world (on_node (modify (set_User uid))));;;
  let rbgroup := (fun _ => Group node) <$> GetGID in_ in
  when (GetGID in_) (fun gid => on_world (on_node (modify (set_Group gid))));;;
  let rbmode := (fun _ => Mode node) <$> GetMode in_ in
  when (GetMode in_) (fun mode =>
    on_world (on_node (modify (fun n =>
      set_Mode (Z.lor (Z.land (Mode n) 4294963200) (Z.land mode 4095)) n))));;;
  rbcontent <-
    match GetSize in_ with
    | Some size =>
        previous <- on_content (resize size);;
        on_world (on_node (modify (set_Time now)));;;
        on_world (on_node (modify (set_shouldSaveContent true)));;;
        ret (Some previous)
    | None => ret None
    end;;
  on_world (on_node (modify (set_shouldSaveMetadata true)));;;
  errno <- on_world (sync h);;
  (if negb (errno =? 0) then
     when rbtime (fun t => on_world (on_node (modify (set_Time t))));;;
     when rbuser (fun u => on_world (on_node (modify (set_User u))));;;
     when rbgroup (fun g => on_world (on_node (modify (set_Group g))));;;
     when rbmode (fun m => on_world (on_node (modify (set_Mode m))));;;
     when rbcontent (fun previous : bytes * list byte =>
       on_content (modify (fun f : file =>
         (set_content (fst previous) (fst f), snd previous))))
   else ret tt);;;
  ret errno.

End Attributes.

(** *** Loading the metadata *)

(** The conversion to [int64]. *)
Definition int64 (z : Z) : Z := (z + 2 ^ 63) mod 2 ^ 64 - 2 ^ 63.

(** The state of [unserialize]: the node, and the registry and the heap of
    its factory. *)
Definition loading : Type := CryptNode * (CryptNodeFactory * heap).

(** The loop over the attributes: [nxattr] rounds, each reading a name and
    a value from [b]; the result is the rest of [b]. *)
Fixpoint read_xattrs (nxattr : nat) (b : list byte) : Go CryptNode (list byte) :=
  match nxattr with
  | O => ret b
  | S nxattr =>
      ab <- lift (bits.Gets b);;
      vb <- lift (bits.Getb (snd ab));;
      assign (fst ab) (Slice (fst vb));;;
      read_xattrs nxattr (snd vb)
  end.

(** The loop over the children, [for len(b) > 0]. Every round takes four
    bytes or more from [b], so a [fuel] of the length of [b] is never used
    up. *)
Fixpoint read_children (fuel : nat) (b : list byte) : Go loading unit :=
  match fuel with
  | O => ret tt
  | S fuel =>
      if len b >? 0 then
        nb <- lift (bits.Gets b);;
        kb <- lift (bits.Getb (snd nb));;
        let key := copy (make NodeKeyLen) (fst kb) in
        child <- on_snd (ExistingNode (fst nb) key);;
        on_fst (assign_child (fst nb) child);;;
        read_children fuel (snd kb)
      else ret tt
  end.

(** [unserialize]. The time of the node is its [UnixNano]. *)
Definition unserialize (b : list byte) : Go loading unit :=
  ub <- lift (bits.Get32 b);;
  on_fst (modify (set_User (fst ub)));;;
  gb <- lift (bits.Get32 (snd ub));;
  on_fst (modify (set_Group (fst gb)));;;
  mb <- lift (bits.Get32 (snd gb));;
  on_fst (modify (set_Mode (fst mb)));;;
  tb <- lift (bits.Get64 (snd mb));;
  on_fst (modify (set_Time (int64 (fst tb))));;;
  cb <- lift (bits.Getb (snd tb));;
  on_fst (modify (set_contentKey (Slice (fst cb))));;;
  node <- on_fst get_state;;
  (if negb (Z.land (Mode node) S_IFDIR =? 0)
   then on_fst (modify (set_Children (Some ∅)))
   else ret tt);;;
  xb <- lift (bits.Get16 (snd cb));;
  (if fst xb >? 0 then on_fst (modify (set_xattrs (Some ∅))) else ret tt);;;
  b <- on_fst (read_xattrs (Z.to_nat (fst xb)) (snd xb));;
  if len b >? 0 then read_children (length b) b else ret tt.

Definition set_Key (v : list byte) (n : CryptNode) : CryptNode :=
  {| shouldSaveMetadata := shouldSaveMetadata n;
     shouldReloadMetadata := shouldReloadMetadata n;
     shouldSaveContent := shouldSaveContent n; User := User n; Group := Group n;
     Mode := Mode n; Time := Time n; name := name n; Key := v;
     version := version n; xattrs := xattrs n; contentKey := contentKey n;
     content := content n; Children := Children n |}.

Section Loading.
Context {M : Type} {HM : VersionedStore M}.

(** [LoadMetadata]: the state is that of [unserialize] with the metadata
    store of the factory. *)
Definition LoadMetadata (key : list byte) : Go (loading * M) (option error) :=
  r <- on_snd (VersionedStore.Get key);;
  let version := fst (fst r) in
  let b := snd (fst r) in
  match snd r with
  | Some err => ret (Some err)
  | None =>
      on_fst (on_fst (modify (set_Key key)));;;
      on_fst (on_fst (modify (set_version version)));;;
      on_fst (unserialize (data_of b));;;
      ret None
  end.

End Loading.

(** *** The generator of inode numbers *)

Module InodeNumbersGenerator.

(** The two channels of a generator: the numbers that wait in the buffer of
    [nextCh] (of capacity 42), the oldest first, and whether [stopCh] is
    closed. Nothing is ever sent on [stopCh]. *)
Record InodeNumbersGenerator : Type := {
  nextCh : list Z;
  stopCh : bool
}.

Definition NewInodeNumbersGenerator : InodeNumbersGenerator :=
  {| nextCh := []; stopCh := false |}.

(** A goroutine that runs [Start]: in its loop, with the value of [ino], or
    returned. *)
Inductive goroutine : Type :=
  | Looping (ino : Z)
  | Returned.

(** The two cases of the [select] of [Start]; [None] is a case that is not
    ready. The send is ready when the buffer has room (a receiver that waits
    takes the number from the buffer at once), the receive from [stopCh]
    when the channel is closed. When both are ready [select] takes either. *)
Definition case_send (r : goroutine) (g : InodeNumbersGenerator)
  : option (goroutine * InodeNumbersGenerator) :=
  match r with
  | Looping ino =>
      if bool_decide (length (nextCh g) < 42)%nat
      then Some (Looping (uint64 (ino + 1)),
                 {| nextCh := nextCh g ++ [ino]; stopCh := stopCh g |})
      else None
  | Returned => None
  end.

Definition case_stop (r : goroutine) (g : InodeNumbersGenerator)
  : option (goroutine * InodeNumbersGenerator) :=
  match r with
  | Looping _ => if stopCh g then Some (Returned, g) else None
  | Returned => None
  end.

(** [Start], up to its loop. *)
Definition Start : goroutine := Looping 2.

(** [Stop]: closing a closed channel panics. *)
Definition Stop : Go InodeNumbersGenerator unit :=
  fun g =>
    if stopCh g then Panic "close of closed channel"
    else Done (tt, {| nextCh := nextCh g; stopCh := true |}).

(** [Next]; [None] is a receive that blocks. *)
Definition Next (g : InodeNumbersGenerator) : option (Z * InodeNumbersGenerator) :=
  match nextCh g with
  | v :: rest => Some (v, {| nextCh := rest; stopCh := stopCh g |})
  | [] => None
  end.

(** A generator with the goroutines that run its [Start], in the order of
    the calls. *)
Record system : Type := {
  generator : InodeNumbersGenerator;
  loops : list goroutine
}.

(** What happens to a generator: a call of [Start], [Next] or [Stop], or a
    round of the loop of the [i]-th [Start] through one case of its
    [select]. *)
Inductive event : Type :=
  | CallStart
  | Sends (i : nat)
  | Quits (i : nat)
  | CallNext
  | CallStop.

(** One event: the number a [Next] returns, if it is one, and the system
    after it. [None] is an event that cannot happen in the system: a case
    that is not ready, a [Next] that blocks, a [Stop] that panics. *)
Definition exec (e : event) (s : system) : option (option Z * system) :=
  match e with
  | CallStart =>
      Some (None, {| generator := generator s; loops := loops s ++ [Start] |})
  | Sends i =>
      r ← loops s !! i;
      rg ← case_send r (generator s);
      Some (None, {| generator := snd rg; loops := <[i := fst rg]> (loops s) |})
  | Quits i =>
      r ← loops s !! i;
      rg ← case_stop r (generator s);
      Some (None, {| generator := snd rg; loops := <[i := fst rg]> (loops s) |})
  | CallNext =>
      vg ← Next (generator s);
      Some (Some (fst vg), {| generator := snd vg; loops := loops s |})
  | CallStop =>
      match Stop (generator s) with
      | Done (_, g) => Some (None, {| generator := g; loops := loops s |})
      | Panic _ => None
      end
  end.

(** A sequence of events: the numbers that the calls of [Next] return, in
    the order of the calls. *)
Fixpoint run (es : list event) (s : system) : option (list Z * system) :=
  match es with
  | [] => Some ([], s)
  | e :: rest =>
      vs ← exec e s;
      out ← run rest (snd vs);
      Some (match fst vs with Some v => v :: fst out | None => fst out end, snd out)
  end.

(** The calls of [Start] among the events. *)
Definition starts (es : list event) : nat :=
  length (List.filter (fun e => match e with CallStart => true | _ => false end) es).

End InodeNumbersGenerator.

End node.

(** * The vocabulary of the statements *)

(** The predicates and the functions in which the properties below are
    stated. *)

Module Statements.
Import storage node.

(** The version that the versioned wrapper reads back from a stored
    value. *)
Definition stored_version (value : list byte) : Z := be_value 0 (take 8 value).

(** The contract of a raw store: a put returns, and after a put that
    succeeded a get of the same key returns the value that was put. *)
Record honours_contract (S : Type) {HS : Store S} : Prop := {
  put_returns : forall k v (s : S), exists err s', Store.Put k v s = Done (err, s');
  get_after_put : forall k v (s s' : S),
    Store.Put k v s = Done (None, s') ->
    exists b s'', Store.Get k s' = Done ((b, None), s'') /\ data_of b = v
}.

(** The node that [ExistingNode] builds. *)
Definition discovered (name : string) (key : list byte) : CryptNode :=
  {| shouldSaveMetadata := false; shouldReloadMetadata := false;
     shouldSaveContent := false; User := 0; Group := 0; Mode := modeNotLoaded;
     Time := 0; name := name; Key := key; version := 0; xattrs := None;
     contentKey := Nil; content := Nil; Children := None |}.

(** The node after the content was stored under [key]: the content flag is
    cleared, the content key is [key], and the metadata flag is raised when
    [key] differs from the previous content key. *)
Definition after_content (key : bytes) (n : CryptNode) : CryptNode :=
  let n1 := set_shouldSaveContent false (set_contentKey key n) in
  if negb (bytes_Equal (contentKey n) key) then set_shouldSaveMetadata true n1
  else n1.

(** The first step of [sync] is over without an error: there was no content
    to save, or the blob put succeeded and returned a key. *)
Definition content_done {B : Type} {HB : BlobStore B}
    (n : CryptNode) (b : B) (n1 : CryptNode) (b1 : B) : Prop :=
  (shouldSaveContent n = false /\ n1 = n /\ b1 = b) \/
  (shouldSaveContent n = true /\
   exists key, BlobStore.Put (data_of (content n)) b = Done ((key, None), b1) /\
               n1 = after_content key n).

(** Every child pointer of the node points to a node of the heap, whose key
    has the [NodeKeyLen] bytes of the array type. *)
Definition children_loaded (h : heap) (n : CryptNode) : Prop :=
  forall child a, entries (Children n) !! child = Some a ->
    exists c, h !! a = Some c /\ len (Key c) = NodeKeyLen.

(** The values of the attributes of a node are slices, not nil: [Setxattr]
    stores a copy made by [append], which is not nil. *)
Definition values_not_nil (n : CryptNode) : Prop :=
  forall k v, entries (xattrs n) !! k = Some v -> is_nil v = false.

(** The node on which [Setxattr] calls [sync]: the attribute is set to a
    copy of the data and the metadata flag is raised. *)
Definition staged (attr : string) (data : list byte) (n : CryptNode) : CryptNode :=
  set_shouldSaveMetadata true
    (set_xattrs (Some (<[attr := Slice data]> (entries (xattrs n)))) n).

(** The flags let the operation through. *)
Definition admitted (attr : string) (flags : Z) (n : CryptNode) : Prop :=
  (flags = XATTR_CREATE -> entries (xattrs n) !! attr = None) /\
  (flags = XATTR_REPLACE -> is_Some (entries (xattrs n) !! attr)).

End Statements.

(** The wire format of the messages, as the specification lays it out. *)
Module Wire.
Import message.

(** A length-prefixed string. *)
Definition prefixed (s : string) : list byte :=
  be_bytes 2 (strlen s) ++ list_byte_of_string s.

(** The body of a message, by kind. *)
Definition body (m : Message) : list byte :=
  if kind m =? KindGet then prefixed (key m)
  else if kind m =? KindPut then
    prefixed (key m) ++ prefixed (value m) ++ be_bytes 8 (version m)
  else prefixed (value m).

(** The bytes of a message: kind, tag, body. *)
Definition wire (m : Message) : list byte :=
  be_bytes 1 (kind m) ++ be_bytes 2 (tag m) ++ body m.

(** The four kinds. *)
Definition known_kind (k : Z) : Prop :=
  k = KindGet \/ k = KindPut \/ k = KindError \/ k = KindAuth.

(** A message that the wire format can carry and the decoder can read
    back: one of the four kinds, with a 16-bit tag; the key of a GET and the
    value of an ERROR or AUTH of 65535 bytes at most; for a PUT, a key of
    65533 bytes at most, a value of 65527 bytes at most and a 64-bit
    version. *)
Definition transmissible (m : Message) : Prop :=
  is_uint16 (tag m) /\
  ((kind m = KindGet /\ strlen (key m) <= 65535) \/
   (kind m = KindPut /\ strlen (key m) <= 65533 /\ strlen (value m) <= 65527 /\
    is_uint64 (version m)) \/
   ((kind m = KindError \/ kind m = KindAuth) /\ strlen (value m) <= 65535)).

(** The message that [Decode] leaves in [m0] after reading the bytes of
    [m]: kind and tag are those of [m], and so are the fields that the kind
    uses; the others are those of [m0]. *)
Definition decoded (m0 m : Message) : Message :=
  {| kind := kind m;
     tag := tag m;
     key := if (kind m =? KindGet) || (kind m =? KindPut) then key m else key m0;
     value := if kind m =? KindGet then value m0 else value m;
     version := if kind m =? KindPut then version m else version m0 |}.

(** What the encoder has written so far. *)
Definition written (e : Encoder.Encoder) : list byte :=
  take (Z.to_nat (Encoder.off e)) (Encoder.buf e).

(** A decoder with buffer [b] at offset [o], no error pending. *)
Definition at_offset (b : list byte) (o : Z) : Decoder.Decoder :=
  {| Decoder.buf := b; Decoder.off := o; Decoder.err := None |}.

(** The round trip of the codec test: a fresh encoder writes the message to
    an empty buffer, a fresh decoder reads a message from that buffer into a
    zero message. The result is the encoder's error, the decoded message and
    the decoder's error. *)
Definition roundtrip (m : Message) : outcome (option error * (Message * option error)) :=
  e <~ Encoder.Encode m (Encoder.new, ([] : Buffer.Buffer));;
  d <~ Decoder.Decode zero_Message (Decoder.new, snd (snd e));;
  Done (fst e, fst d).

(** Equality of messages, and a round trip that returns the message [m]
    with no error on either side. *)
Definition Message_eqb (a b : Message) : bool :=
  (kind a =? kind b) && (tag a =? tag b) && String.eqb (key a) (key b) &&
  String.eqb (value a) (value b) && (version a =? version b).

Definition returns_message
    (r : outcome (option error * (Message * option error))) (m : Message) : bool :=
  match r with
  | Done (None, (m', None)) => Message_eqb m' m
  | _ => false
  end.

End Wire.

(** * The data of the examples *)

Module Fixtures.
Import storage node Statements.

(** A key, a value, and in-memory stores: an empty one, and one that holds
    the value under the key. *)
Definition k1 : list byte := list_byte_of_string "k".
Definition v1 : list byte := list_byte_of_string "v".
Definition fast0 : InMemorySTore.InMemorySTore := InMemorySTore.NewInMemoryStore.
Definition slow0 : InMemorySTore.InMemorySTore :=
  {| InMemorySTore.m := {[ "k" := Slice v1 ]} |}.

(** The raw store of a versioned wrapper: empty; after [Put 1 k "a"]; the
    same entry at version 5 with the value "b"; the entry at version 0. *)
Definition empty_store : InMemorySTore.InMemorySTore := InMemorySTore.NewInMemoryStore.
Definition at1 : InMemorySTore.InMemorySTore :=
  {| InMemorySTore.m := {[ "k" := Slice (be_bytes 8 1 ++ list_byte_of_string "a") ]} |}.
Definition at5 : InMemorySTore.InMemorySTore :=
  {| InMemorySTore.m := {[ "k" := Slice (be_bytes 8 5 ++ list_byte_of_string "b") ]} |}.
Definition at0 : InMemorySTore.InMemorySTore :=
  {| InMemorySTore.m := {[ "k" := Slice (be_bytes 8 0 ++ list_byte_of_string "a") ]} |}.

(** A host: its state is the list of the addresses bound so far; a key pair
    loads when both file names are non-empty; a listener is its address. *)
Definition host : Type := list string.

Definition host_Net : server.Net host (string * string) string := {|
  server.tls_LoadX509KeyPair certFile keyFile := fun n =>
    if String.eqb certFile EmptyString || String.eqb keyFile EmptyString
    then Done (((certFile, keyFile), Some "open : no such file or directory"), n)
    else Done (((certFile, keyFile), None), n);
  server.tls_Listen network address cert := fun n =>
    Done ((Some address, None), address :: n);
  server.net_Listen network address := fun n =>
    Done ((Some address, None), address :: n);
  server.Addr l := l
|}.

(** A stand-in for the digest: the length of the value on eight bytes, then
    its first byte. *)
Definition short_sum (v : list byte) : list byte := be_bytes 8 (len v) ++ take 1 v.

(** A registry that knows the all-zero key, registered to the node at
    address 1. *)
Definition key0 : list byte := make NodeKeyLen.
Definition heap1 : heap := {[ 1%positive := discovered "first" key0 ]}.
Definition factory1 : CryptNodeFactory := {| known := Some {[ key0 := 1%positive ]} |}.

(** A raw store that rejects every put. *)
Module rejecting.
Definition Put (key value : list byte) : Go unit (option error) :=
  ret (Some (library_error "read-only file system")).
Definition Get (key : list byte) : Go unit (bytes * option error) :=
  ret (Nil, Some ErrNotFound).
End rejecting.

Definition rejecting_Store : Store unit :=
  {| Store.Put := rejecting.Put; Store.Get := rejecting.Get |}.

(** Blob stores: the blob wrapper, with [short_sum] for the digest, over the
    in-memory store and over the store that rejects every put. *)
Definition memory_blobs : BlobStore InMemorySTore.InMemorySTore :=
  BlobStoreWrapper_BlobStore short_sum.
Definition rejecting_blobs : BlobStore unit :=
  BlobStoreWrapper_BlobStore short_sum (HS := rejecting_Store).

(** A file with the content "data" that was written and not yet saved, and
    the key of that content. *)
Definition dirty : CryptNode :=
  {| shouldSaveMetadata := false; shouldReloadMetadata := false;
     shouldSaveContent := true; User := 1000; Group := 1000; Mode := 33188;
     Time := 1; name := "file"; Key := make NodeKeyLen; version := 0;
     xattrs := None; contentKey := Nil;
     content := Slice (list_byte_of_string "data"); Children := None |}.

Definition data_key : bytes := Slice (short_sum (list_byte_of_string "data")).

(** The store of the node tests: answering [ErrStalePut], and made to fail
    as the rollback tests do ([ko]). *)
Definition stale : fakeVersionedStore.fakeVersionedStore :=
  {| fakeVersionedStore.err := Some ErrStalePut; fakeVersionedStore.errs := [] |}.

Definition ko : fakeVersionedStore.fakeVersionedStore :=
  {| fakeVersionedStore.err := Some (errors_New "computer bought the farm");
     fakeVersionedStore.errs := [] |}.

(** A node with the attribute "key" set to "old value". *)
Definition tagged : CryptNode :=
  set_xattrs (Some {[ "key" := Slice (list_byte_of_string "old value") ]})
    zero_CryptNode.

(** A string of [n] zero bytes. *)
Definition zeros (n : Z) : string := string_of_list_byte (make n).

End Fixtures.

(** * The vocabulary of the further properties *)

Module Conditions.
Import message storage node.

(** Every value of the raw store of a versioned wrapper carries the eight
    bytes of a version. *)
Definition well_versioned (s : InMemorySTore.InMemorySTore) : Prop :=
  forall k c, InMemorySTore.m s !! k = Some c -> 8 <= len (data_of c).

(** Every character of the string is printable ASCII. *)
Fixpoint all_printable (s : string) : bool :=
  match s with
  | EmptyString => true
  | String c rest => printable c && all_printable rest
  end.

(** A message made by one of the four constructors. *)
Definition constructed (m : Message) : Prop :=
  (exists t k, m = NewGetMessage t k) \/
  (exists t k v ver, m = NewPutMessage t k v ver) \/
  (exists t v, m = NewErrorMessage t v) \/
  (exists t v, m = NewAuthMessage t v).

(** Every pointer of the registry points to a node of the heap. *)
Definition registered (f : CryptNodeFactory) (h : heap) : Prop :=
  forall key a, entries (known f) !! key = Some a -> is_Some (h !! a).

(** The heap after a mutation with the key [k] and the version [ver] has
    reached the cache: the node registered under the key, when the key has
    the length of a node key and the version of the node is below [ver], is
    marked for a reload; nothing else changes. *)
Definition invalidated (f : CryptNodeFactory) (h : heap) (k : string) (ver : Z)
  : heap :=
  if negb (strlen k =? NodeKeyLen) then h
  else
    match entries (known f) !! list_byte_of_string k with
    | None => h
    | Some a =>
        match h !! a with
        | None => h
        | Some n =>
            if ver <=? version n then h
            else <[a := set_shouldReloadMetadata true n]> h
        end
    end.

(** The node on which [Unlink] and [Rmdir] call [sync]: the child is
    deleted from the map and the metadata flag is raised. *)
Definition detached (name : string) (n : CryptNode) : CryptNode :=
  set_shouldSaveMetadata true (set_Children (delete name <$> Children n) n).

(** The node and the spare capacity of its content on which [Setattr]
    calls [sync]: the attributes of the request are assigned, the content
    has the size of the request, the flags are raised. *)
Definition requested (now : Z) (in_ : SetAttrIn) (f : file) : file :=
  let n := fst f in
  let n := match GetMTime in_ with Some t => set_Time t n | None => n end in
  let n := match GetUID in_ with Some uid => set_User uid n | None => n end in
  let n := match GetGID in_ with Some gid => set_Group gid n | None => n end in
  let n :=
    match GetMode in_ with
    | Some mode => set_Mode (Z.lor (Z.land (Mode n) 4294963200) (Z.land mode 4095)) n
    | None => n
    end in
  let f :=
    match GetSize in_ with
    | Some size =>
        match resize size (n, snd f) with
        | Done (_, f') => (set_shouldSaveContent true (set_Time now (fst f')), snd f')
        | Panic _ => (n, snd f)
        end
    | None => (n, snd f)
    end in
  (set_shouldSaveMetadata true (fst f), snd f).

Section Readers.
Context {R : Type} {HR : Reader R}.

(** The read error [e] is pending in the decoder, and the reader is [r1]. *)
Definition pending (e : error) (r1 : R) (st : Decoder.Decoder * R) : Prop :=
  Decoder.err (fst st) = Some e /\ snd st = r1.

(** The action keeps a pending error pending and the reader untouched. *)
Definition keeps {A} (e : error) (r1 : R) (m : Go (Decoder.Decoder * R) A) : Prop :=
  forall st a st', pending e r1 st -> m st = Done (a, st') -> pending e r1 st'.

(** The error that the action returns is the error of the decoder. *)
Definition reports (m : Go (Decoder.Decoder * R) (Message * option error)) : Prop :=
  forall st a st', m st = Done (a, st') -> snd a = Decoder.err (fst st').

End Readers.

(** The bytes that [serialize] writes for an attribute and for a child of
    the key [key], and for a node whose children have the keys [keys]. *)
Definition serialized_attr (av : string * bytes) : list byte :=
  (be_bytes 2 (len (list_byte_of_string (fst av))) ++ list_byte_of_string (fst av)) ++
  (be_bytes 2 (len (data_of (snd av))) ++ data_of (snd av)).

Definition serialized_child (ck : string * list byte) : list byte :=
  (be_bytes 2 (len (list_byte_of_string (fst ck))) ++ list_byte_of_string (fst ck)) ++
  (be_bytes 2 (len (snd ck)) ++ snd ck).

Definition serialized (n : CryptNode) (keys : list (string * list byte)) : list byte :=
  be_bytes 4 (uint32 (User n)) ++ be_bytes 4 (uint32 (Group n)) ++
  be_bytes 4 (uint32 (Mode n)) ++ be_bytes 8 (uint64 (Time n)) ++
  (be_bytes 2 (len (data_of (contentKey n))) ++ data_of (contentKey n)) ++
  be_bytes 2 (uint16 (Z.of_nat (length (map_to_list (entries (xattrs n)))))) ++
  concat (map serialized_attr (map_to_list (entries (xattrs n)))) ++
  concat (map serialized_child keys).

(** The keys of the children of a node, by name: the key of a child is
    that of the node at its address in the heap. *)
Definition child_keys (h : heap) (n : CryptNode) : gmap string (list byte) :=
  omap (fun a => Key <$> h !! a) (entries (Children n)).

(** The names and the keys of the children in the order of [serialize]. *)
Definition keys_in_order (h : heap) (n : CryptNode) : list (string * list byte) :=
  omap (fun c : string * addr => (fun k => (fst c, Key k)) <$> h !! snd c)
       (map_to_list (entries (Children n))).

(** The numbers 2, 3, 4, ... in this order, as [uint64]. *)
Definition in_sequence (l : list Z) : Prop :=
  forall k v, l !! k = Some v -> v = uint64 (2 + Z.of_nat k).

(** What a run of a generator keeps, [received] being the numbers that
    [Next] has returned: the buffer is within its capacity and, while
    [Start] was called once at most, the numbers received and buffered are
    in sequence and the loop holds the number after them. *)
Definition kept (received : list Z) (s : InodeNumbersGenerator.system) : Prop :=
  let buffer := InodeNumbersGenerator.nextCh (InodeNumbersGenerator.generator s) in
  (length buffer <= 42)%nat /\
  ((length (InodeNumbersGenerator.loops s) <= 1)%nat ->
   let issued := received ++ buffer in
   in_sequence issued /\
   (forall ino, InodeNumbersGenerator.loops s = [InodeNumbersGenerator.Looping ino] ->
                ino = uint64 (2 + Z.of_nat (length issued))) /\
   (InodeNumbersGenerator.loops s = [] -> issued = [])).

End Conditions.

(** * The data of the further examples *)

Module Samples.
Import message storage node.

(** A writer that takes four bytes of every write at most and reports no
    error; its state is what it has taken. *)
Definition truncating : Writer (list byte) :=
  Build_Writer (list byte)
    (fun p w => Done ((len (take 4 p), None), w ++ take 4 p)).

(** A writer that fails every write. *)
Definition broken : Writer unit :=
  Build_Writer unit
    (fun p w => Done ((0, Some (library_error "broken pipe")), w)).

(** The first two bytes of a PUT message, in a buffer to read from. *)
Definition short_header : Buffer.Buffer := be_bytes 1 KindPut ++ be_bytes 1 7.

(** A registry that knows the key "node-key-of-20-bytes" of a node at
    version 3, at address 1. *)
Definition key20 : string := "node-key-of-20-bytes".
Definition heap20 : heap :=
  {[ 1%positive := set_version 3 (Statements.discovered "file" (list_byte_of_string key20)) ]}.
Definition factory20 : CryptNodeFactory :=
  {| known := Some {[ list_byte_of_string key20 := 1%positive ]} |}.

(** A directory with the child "a", the node at address 1 of [heap1], and
    with the child "b", a directory at address 2 that holds an entry. *)
Definition dir1 : CryptNode :=
  set_Children (Some {[ "a" := 1%positive; "b" := 2%positive ]})
    (set_Mode 16877 (Statements.discovered "dir" (make NodeKeyLen))).
Definition heap2 : heap :=
  <[2%positive :=
      set_Children (Some {[ "c" := 1%positive ]})
        (Statements.discovered "b" (make NodeKeyLen))]> Fixtures.heap1.

(** A message of a kind that does not exist. *)
Definition odd : Message :=
  {| message.kind := 9; message.tag := 1; message.key := "k";
     message.value := "v"; message.version := 1 |}.

(** A request for the owner 0, the permissions 0600 and the size 2. *)
Definition owner_mode_size : SetAttrIn :=
  {| GetMTime := None; GetUID := Some 0; GetGID := None; GetMode := Some 384;
     GetSize := Some 2 |}.

(** The directory [dir1] with the attribute "user.k" of the value "v". *)
Definition tagged_dir : CryptNode :=
  set_xattrs (Some {[ "user.k" := Slice (list_byte_of_string "v") ]}) dir1.

End Samples.

(** * Properties *)

(** ** Reasoning about the monad *)

Ltac go_unfold :=
  unfold bind, ret, lift, on_fst, on_snd, modify, get_state, set_state, panic,
    obind in *.

(** Case analysis on the innermost scrutinee of the goal. *)
Ltac break_match :=
  match goal with
  | |- context [match ?x with _ => _ end] =>
      lazymatch x with
      | context [match _ with _ => _ end] => fail
      | _ => destruct x
      end
  end.

Lemma bind_done {S A B} (m : Go S A) (f : A -> Go S B) (s s' : S) (a : A) :
  m s = Done (a, s') -> bind m f s = f a s'.
Proof. intros Hm. unfold bind. rewrite Hm. reflexivity. Qed.

Lemma on_fst_done {S T A} (m : Go S A) (s s' : S) (t : T) (a : A) :
  m s = Done (a, s') -> on_fst m (s, t) = Done (a, (s', t)).
Proof. intros Hm. unfold on_fst. cbn [fst snd]. rewrite Hm. reflexivity. Qed.

Lemma on_snd_done {S T A} (m : Go T A) (s : S) (t t' : T) (a : A) :
  m t = Done (a, t') -> on_snd m (s, t) = Done (a, (s, t')).
Proof. intros Hm. unfold on_snd. cbn [fst snd]. rewrite Hm. reflexivity. Qed.

Lemma bind_bind {S A B C} (m : Go S A) (f : A -> Go S B) (g : B -> Go S C) (s : S) :
  bind (bind m f) g s = bind m (fun a => bind (f a) g) s.
Proof. unfold bind. destruct (m s) as [[a s']|r]; reflexivity. Qed.

(** One step of a sequence whose first action is known to return. *)
Ltac step H := rewrite ?bind_bind; rewrite (bind_done _ _ _ _ _ H).

(** ** Bytes and big-endian numbers *)

Lemma Z_of_byte_of_Z (z : Z) : Z_of_byte (byte_of_Z z) = z mod 256.
Proof.
  unfold Z_of_byte, byte_of_Z.
  assert (Hb : 0 <= z mod 256 < 256) by (apply Z.mod_pos_bound; lia).
  destruct (Byte.of_N (Z.to_N (z mod 256))) as [b|] eqn:E.
  - apply Byte.to_of_N in E. rewrite E. lia.
  - apply Byte.of_N_None_iff in E. lia.
Qed.

Lemma length_be_bytes (n : nat) (v : Z) : length (be_bytes n v) = n.
Proof. induction n as [|n IH]; simpl; [reflexivity|]. rewrite IH. reflexivity. Qed.

Lemma be_value_be_bytes (n : nat) (acc v : Z) :
  be_value acc (be_bytes n v) = acc * 2 ^ (8 * Z.of_nat n) + v mod 2 ^ (8 * Z.of_nat n).
Proof.
  revert acc. induction n as [|n IH]; intros acc.
  - simpl. rewrite Z.mod_1_r. lia.
  - cbn [be_bytes be_value]. rewrite IH, Z_of_byte_of_Z.
    replace (8 * Z.of_nat (S n)) with (8 * Z.of_nat n + 8) by lia.
    rewrite Z.pow_add_r by lia.
    change (2 ^ 8) with 256.
    assert (Hp : 0 < 2 ^ (8 * Z.of_nat n)) by (apply Z.pow_pos_nonneg; lia).
    rewrite (Z.rem_mul_r v (2 ^ (8 * Z.of_nat n)) 256) by lia.
    ring.
Qed.

Lemma be_value_be_bytes_small (n : nat) (v : Z) :
  0 <= v < 2 ^ (8 * Z.of_nat n) -> be_value 0 (be_bytes n v) = v.
Proof. intros Hv. rewrite be_value_be_bytes. rewrite Z.mod_small by exact Hv. lia. Qed.

Lemma length_list_byte_of_string (s : string) :
  length (list_byte_of_string s) = String.length s.
Proof.
  unfold list_byte_of_string. rewrite length_map.
  induction s as [|c s IH]; simpl; [reflexivity|]. rewrite IH. reflexivity.
Qed.

Lemma len_list_byte_of_string (s : string) : len (list_byte_of_string s) = strlen s.
Proof. unfold len, strlen. rewrite length_list_byte_of_string. reflexivity. Qed.

Lemma len_app (a b : list byte) : len (a ++ b) = len a + len b.
Proof. unfold len. rewrite length_app. lia. Qed.

Lemma len_be_bytes (n : nat) (v : Z) : len (be_bytes n v) = Z.of_nat n.
Proof. unfold len. rewrite length_be_bytes. reflexivity. Qed.

Lemma len_nonneg (l : list byte) : 0 <= len l.
Proof. unfold len. lia. Qed.

Lemma strlen_nonneg (s : string) : 0 <= strlen s.
Proof. unfold strlen. lia. Qed.

Lemma copy_make (n : Z) (p : list byte) :
  len p <= n -> copy (make n) p = p ++ make (n - len p).
Proof.
  unfold copy, make, len. intros Hle.
  rewrite length_replicate, drop_replicate, take_app_ge by (rewrite ?length_replicate; lia).
  f_equal. rewrite take_replicate. f_equal. lia.
Qed.

Lemma dup_eq (p : list byte) : storage.dup p = p.
Proof.
  unfold storage.dup. rewrite copy_make by lia.
  replace (len p - len p) with 0 by lia. unfold make. simpl.
  apply app_nil_r.
Qed.

Lemma length_copy (dst src : list byte) : length (copy dst src) = length dst.
Proof.
  unfold copy. rewrite length_take, length_app, length_drop. lia.
Qed.

(** ** The versioned wrapper (C1) *)

Module VersionedFacts.
Import storage Statements Fixtures.

(** What [Put] does over the in-memory store, for a key whose stored value
    (if any) carries a version prefix: an absent key accepts every version;
    a present key rejects the versions below the successor of the stored
    one and accepts all the others, the successor and everything above
    it. *)
Lemma Put_in_memory (version : Z) (key value : list byte)
    (s : InMemorySTore.InMemorySTore) :
  (forall c, InMemorySTore.m s !! string_of_list_byte key = Some c ->
             8 <= len (data_of c)) ->
  VersionedWrapper.Put version key value s =
    match InMemorySTore.m s !! string_of_list_byte key with
    | Some c =>
        if version <? uint64 (stored_version (data_of c) + 1)
        then Done (Some ErrStalePut, s)
        else Done (None, {| InMemorySTore.m :=
               <[string_of_list_byte key := Slice (be_bytes 8 version ++ value)]>
                 (InMemorySTore.m s) |})
    | None =>
        Done (None, {| InMemorySTore.m :=
               <[string_of_list_byte key := Slice (be_bytes 8 version ++ value)]>
                 (InMemorySTore.m s) |})
    end.
Proof.
  intros Hwf.
  assert (Hl : length (be_bytes 8 version) = 8%nat) by reflexivity.
  assert (Hval : dup (take 8 (be_bytes 8 version ++ drop 8 (make (8 + len value))) ++
      copy (drop 8 (be_bytes 8 version ++ drop 8 (make (8 + len value)))) value)
      = be_bytes 8 version ++ value).
  { rewrite dup_eq.
    rewrite take_app_length' by exact Hl.
    rewrite drop_app_length' by exact Hl.
    f_equal. unfold make, copy, len.
    rewrite drop_replicate, length_replicate.
    rewrite drop_replicate.
    replace (Z.to_nat (8 + Z.of_nat (length value)) - 8 - length value)%nat with 0%nat by lia.
    rewrite app_nil_r.
    apply take_ge. lia. }
  unfold VersionedWrapper.Put, Store.Get, Store.Put, InMemorySTore_Store.
  unfold InMemorySTore.Get, InMemorySTore.Put. go_unfold.
  destruct (InMemorySTore.m s !! string_of_list_byte key) as [c|] eqn:Hc.
  - specialize (Hwf c eq_refl).
    destruct c as [|c]; [unfold len in Hwf; simpl in Hwf; lia|].
    cbn [data_of is_nil fst snd] in *.
    unfold slice_range.
    rewrite (bool_decide_eq_true_2 (0 <= 0 <= 8 /\ 8 <= len c)) by lia.
    replace (Z.to_nat (8 - 0)) with 8%nat by lia.
    replace (Z.to_nat 0) with 0%nat by lia. rewrite drop_0.
    fold (stored_version c).
    cbn [bool_decide decide_rel andb errors_Is negb].
    destruct (version <? uint64 (stored_version c + 1)); [reflexivity|].
    rewrite Hval. reflexivity.
  - cbn [fst snd]. rewrite Hval. reflexivity.
Qed.

(** C1, at the inputs where the code leaves the rule: with [k] stored at
    version 1, the put at version 5 (not the successor 2) succeeds and
    version 5 is what a get then returns; on the empty store the put at
    version 0 succeeds. The put at the stored version itself is stale. *)
Theorem Put_accepts_skipped_and_zero_version :
  VersionedWrapper.Put 1 k1 (list_byte_of_string "a") empty_store = Done (None, at1) /\
  VersionedWrapper.Put 5 k1 (list_byte_of_string "b") at1 = Done (None, at5) /\
  VersionedWrapper.Get k1 at5 =
    Done ((5, Slice (list_byte_of_string "b"), None), at5) /\
  VersionedWrapper.Put 0 k1 (list_byte_of_string "a") empty_store = Done (None, at0) /\
  VersionedWrapper.Put 1 k1 (list_byte_of_string "b") at1 = Done (Some ErrStalePut, at1).
Proof. repeat split; vm_compute; reflexivity. Qed.

End VersionedFacts.

(** ** The paired store (C2) *)

Module PairedFacts.
Import storage Fixtures.

Section Facts.
Context {F L : Type} {HF : Store F} {HL : Store L}.

(** Whatever the fast store answers is the answer of [Paired.Get]: the slow
    store is never asked, the first test returns on every error, the second
    on the nil error. *)
Lemma Get_is_fast_Get (Key : list byte) (st : F * L) :
  Paired.Get Key st = on_fst (Store.Get Key) st.
Proof.
  unfold Paired.Get. go_unfold.
  destruct (Store.Get Key st.1) as [[[value err] f']|r]; [|reflexivity].
  destruct err as [e|]; reflexivity.
Qed.

End Facts.

(** C2, at a key held by the slow store only: the slow store has the value,
    and [Paired.Get] returns the fast store's not-found error and no value,
    leaving both stores as they were. *)
Theorem Get_slow_only_key_not_found :
  Store.Get k1 slow0 = Done ((Slice v1, None), slow0) /\
  Paired.Get k1 (fast0, slow0) =
    Done ((Nil, Some (fmt.Errorf "%.40q: %w"
                        [fmt.ArgBytes k1; fmt.ArgError (Some ErrNotFound)])),
          (fast0, slow0)) /\
  errors_Is (Some (fmt.Errorf "%.40q: %w"
                     [fmt.ArgBytes k1; fmt.ArgError (Some ErrNotFound)]))
    ErrNotFound = true.
Proof. repeat split; vm_compute; reflexivity. Qed.

End PairedFacts.

(** ** The registry of the node factory (C3) *)

Module FactoryFacts.
Import node Statements Fixtures.

(** C3, as the code has it. When [key] is registered to the node at [a0],
    [ExistingNode name key] leaves the registry as it is, so [getKnown key]
    still answers [a0]; it allocates a node with that key, that name and the
    mode "not loaded" at an address that was free, and returns this new
    node, which is not the registered one. *)
Theorem ExistingNode_registered_key (f : CryptNodeFactory) (h : heap)
    (name : string) (key : list byte) (k : gmap (list byte) addr) (a0 : addr) :
  known f = Some k -> k !! key = Some a0 -> a0 ∈ dom h ->
  exists a,
    let h' := <[a := discovered name key]> h in
    ExistingNode name key (f, h) = Done (a, (f, h')) /\
    h !! a = None /\ a <> a0 /\
    getKnown key (f, h') = Done (Some a0, (f, h')).
Proof.
  intros Hk Hkey Ha0.
  exists (fresh (dom h)).
  assert (Hfresh : fresh (dom h) ∉ dom h) by apply is_fresh.
  cbn zeta. split; [|split; [|split]].
  - unfold ExistingNode, allocate, addKnown. go_unfold. cbn [fst snd].
    rewrite lookup_insert_eq. cbn [Key]. rewrite Hk, Hkey.
    destruct f as [kn]. cbn in Hk. subst kn. reflexivity.
  - apply not_elem_of_dom. exact Hfresh.
  - intros Heq. rewrite Heq in Hfresh. contradiction.
  - unfold getKnown. go_unfold. cbn [fst snd]. rewrite Hk, Hkey. reflexivity.
Qed.

Lemma ExistingNode_registered_key_witness :
  exists a,
    let h' := <[a := discovered "again" key0]> heap1 in
    ExistingNode "again" key0 (factory1, heap1) = Done (a, (factory1, h')) /\
    heap1 !! a = None /\ a <> 1%positive /\
    getKnown key0 (factory1, h') = Done (Some 1%positive, (factory1, h')).
Proof.
  apply (ExistingNode_registered_key factory1 heap1 "again" key0
           {[ key0 := 1%positive ]} 1%positive).
  - reflexivity.
  - reflexivity.
  - vm_compute. reflexivity.
Defined.

(** C3 as the specification words it, that re-registering a key returns
    the registered node, fails: with the all-zero key registered to
    the node at address 1, [ExistingNode] returns the node at address 2. *)
Lemma ExistingNode_returns_a_new_node :
  getKnown key0 (factory1, heap1) = Done (Some 1%positive, (factory1, heap1)) /\
  ExistingNode "again" key0 (factory1, heap1) =
    Done (2%positive, (factory1, <[2%positive := discovered "again" key0]> heap1)) /\
  2%positive <> 1%positive.
Proof. split; [|split]; [vm_compute; reflexivity | vm_compute; reflexivity | discriminate]. Qed.

End FactoryFacts.

(** ** Saving a node (C4) *)

Module SerializeFacts.
Import storage node Statements.

Lemma emit_put (enc : list byte) (c : list byte * list byte) :
  len enc <= len (snd c) ->
  emit (bits.put enc) c = Done (tt, (fst c ++ enc, drop (length enc) (snd c))).
Proof.
  intros Hroom. unfold emit, bits.put.
  rewrite bool_decide_eq_true_2 by (unfold len in Hroom; lia). reflexivity.
Qed.

Lemma emit_room (enc : list byte) (c : list byte * list byte) :
  len enc <= len (snd c) ->
  exists c', emit (bits.put enc) c = Done (tt, c') /\
             len (snd c') = len (snd c) - len enc.
Proof.
  intros Hroom. eexists. split; [apply emit_put; exact Hroom|].
  cbn [snd]. unfold len in *. rewrite length_drop. lia.
Qed.

(** A loop of writes through the cursor returns when the buffer has room
    for the sum of what its iterations write. *)
Lemma for_each_room {A} (cost : A -> Z) (P : A -> Prop)
    (body : A -> Go (list byte * list byte) unit) (l : list A) :
  (forall x c, P x -> cost x <= len (snd c) ->
     exists c', body x c = Done (tt, c') /\ len (snd c') = len (snd c) - cost x) ->
  (forall x, 0 <= cost x) ->
  Forall P l ->
  forall (c : list byte * list byte) (size : Z),
    fold_left (fun size x => size + cost x) l size - size <= len (snd c) ->
    exists c', for_each l body c = Done (tt, c') /\
               len (snd c') =
                 len (snd c) - (fold_left (fun size x => size + cost x) l size - size).
Proof.
  intros Hbody Hcost HP. induction HP as [|x l Hx HP IH]; intros c size Hroom.
  - cbn in *. exists c. split; [reflexivity|]. lia.
  - cbn [fold_left for_each] in *.
    assert (Hmono : forall (k : list A) (z : Z),
              z <= fold_left (fun size x => size + cost x) k z).
    { induction k as [|y k IHk]; intros z; cbn; [lia|].
      specialize (IHk (z + cost y)). specialize (Hcost y). lia. }
    pose proof (Hmono l (size + cost x)) as Hm. specialize (Hcost x).
    destruct (Hbody x c Hx) as (c1 & Hb1 & Hl1); [lia|].
    destruct (IH c1 (size + cost x)) as (c' & Hf & Hl'); [lia|].
    exists c'. split.
    + rewrite (bind_done _ _ _ _ _ Hb1). exact Hf.
    + lia.
Qed.

(** [serialize] returns for every node whose children are in the heap: the
    buffer that it allocates has room for everything that it writes. *)
Lemma serialize_returns (h : heap) (n : CryptNode) :
  children_loaded h n -> exists value, serialize h n = Done value.
Proof.
  intros Hch. unfold serialize.
  set (xs := map_to_list (entries (xattrs n))).
  set (cs := map_to_list (entries (Children n))).
  set (xcost := fun av : string * bytes => 4 + strlen av.1 + len (data_of av.2)).
  set (ccost := fun c : string * addr => 4 + NodeKeyLen + strlen c.1).
  set (s0 := 24 + len (data_of (contentKey n))).
  assert (Hx : fold_left (fun size av => size + 4 + strlen av.1 + len (data_of av.2)) xs s0
               = fold_left (fun size x => size + xcost x) xs s0).
  { generalize s0. induction xs as [|x xs IH]; intros z; cbn; [reflexivity|].
    rewrite <- IH. f_equal. unfold xcost. lia. }
  rewrite Hx. set (s1 := fold_left (fun size x => size + xcost x) xs s0).
  assert (Hc : fold_left (fun size c => size + 4 + NodeKeyLen + strlen c.1) cs s1
               = fold_left (fun size x => size + ccost x) cs s1).
  { generalize s1. induction cs as [|x cs' IH]; intros z; cbn; [reflexivity|].
    rewrite <- IH. f_equal. unfold ccost. lia. }
  rewrite Hc. set (s2 := fold_left (fun size x => size + ccost x) cs s1).
  assert (Hmono : forall {A} (cost : A -> Z) (k : list A) (z : Z),
            (forall x, 0 <= cost x) -> z <= fold_left (fun size x => size + cost x) k z).
  { intros A cost k. induction k as [|y k IHk]; intros z Hcost; cbn; [lia|].
    specialize (IHk (z + cost y) Hcost). specialize (Hcost y). lia. }
  assert (Hxc : forall x, 0 <= xcost x).
  { intros x. unfold xcost. pose proof (strlen_nonneg x.1).
    pose proof (len_nonneg (data_of x.2)). lia. }
  assert (Hcc : forall x, 0 <= ccost x).
  { intros x. unfold ccost, NodeKeyLen. pose proof (strlen_nonneg x.1). lia. }
  pose proof (Hmono _ xcost xs s0 Hxc) as H01. fold s1 in H01.
  pose proof (Hmono _ ccost cs s1 Hcc) as H12. fold s2 in H12.
  pose proof (len_nonneg (data_of (contentKey n))) as Hck.
  assert (Hbuf : len (make s2) = s2).
  { unfold make, len. rewrite length_replicate. subst s0. lia. }
  (* the fixed part *)
  destruct (emit_room (be_bytes 4 (uint32 (User n))) ([], make s2))
    as (c1 & Hc1 & Hl1); [cbn [snd]; rewrite Hbuf, len_be_bytes; subst s0; lia|].
  cbn [snd] in Hl1. rewrite Hbuf, len_be_bytes in Hl1.
  destruct (emit_room (be_bytes 4 (uint32 (Group n))) c1)
    as (c2 & Hc2 & Hl2); [rewrite Hl1, len_be_bytes; subst s0; lia|].
  rewrite Hl1, len_be_bytes in Hl2.
  destruct (emit_room (be_bytes 4 (uint32 (Mode n))) c2)
    as (c3 & Hc3 & Hl3); [rewrite Hl2, len_be_bytes; subst s0; lia|].
  rewrite Hl2, len_be_bytes in Hl3.
  destruct (emit_room (be_bytes 8 (uint64 (Time n))) c3)
    as (c4 & Hc4 & Hl4); [rewrite Hl3, len_be_bytes; subst s0; lia|].
  rewrite Hl3, len_be_bytes in Hl4.
  set (ck := be_bytes 2 (len (data_of (contentKey n))) ++ data_of (contentKey n)).
  assert (Hlck : len ck = 2 + len (data_of (contentKey n))).
  { subst ck. rewrite len_app, len_be_bytes. lia. }
  destruct (emit_room ck c4) as (c5 & Hc5 & Hl5); [rewrite Hl4, Hlck; subst s0; lia|].
  rewrite Hl4, Hlck in Hl5.
  destruct (emit_room (be_bytes 2 (uint16 (Z.of_nat (length xs)))) c5)
    as (c6 & Hc6 & Hl6); [rewrite Hl5, len_be_bytes; subst s0; lia|].
  rewrite Hl5, len_be_bytes in Hl6.
  (* the attributes *)
  destruct (for_each_room xcost (fun _ => True)
              (fun av => (emit (fun b => bits.Puts b av.1);;;
                          emit (fun b => bits.Putb b (data_of av.2)))%go) xs)
    with (c := c6) (size := s0) as (c7 & Hc7 & Hl7).
  { intros x c _ Hroom. unfold bits.Puts, bits.Putb.
    set (e1 := be_bytes 2 (len (list_byte_of_string x.1)) ++ list_byte_of_string x.1).
    set (e2 := be_bytes 2 (len (data_of x.2)) ++ data_of x.2).
    assert (He1 : len e1 = 2 + strlen x.1).
    { subst e1. rewrite len_app, len_be_bytes, len_list_byte_of_string. lia. }
    assert (He2 : len e2 = 2 + len (data_of x.2)).
    { subst e2. rewrite len_app, len_be_bytes. lia. }
    unfold xcost in Hroom. pose proof (strlen_nonneg x.1).
    pose proof (len_nonneg (data_of x.2)).
    destruct (emit_room e1 c) as (d1 & Hd1 & Hr1); [lia|].
    destruct (emit_room e2 d1) as (d2 & Hd2 & Hr2); [lia|].
    exists d2. split.
    - rewrite (bind_done _ _ _ _ _ Hd1). exact Hd2.
    - unfold xcost. lia. }
  { exact Hxc. }
  { apply Forall_forall. intros; exact I. }
  { fold s1. lia. }
  fold s1 in Hl7.
  (* the children *)
  destruct (for_each_room ccost (fun c => exists k, h !! c.2 = Some k /\ len (Key k) = NodeKeyLen)
              (fun c => match h !! c.2 with
                        | None => panic "invalid memory address or nil pointer dereference"
                        | Some childNode =>
                            (emit (fun b => bits.Puts b c.1);;;
                             emit (fun b => bits.Putb b (Key childNode)))%go
                        end) cs)
    with (c := c7) (size := s1) as (c8 & Hc8 & Hl8).
  { intros x c (k & Hk & Hlen) Hroom. rewrite Hk. unfold bits.Puts, bits.Putb.
    set (e1 := be_bytes 2 (len (list_byte_of_string x.1)) ++ list_byte_of_string x.1).
    set (e2 := be_bytes 2 (len (Key k)) ++ Key k).
    assert (He1 : len e1 = 2 + strlen x.1).
    { subst e1. rewrite len_app, len_be_bytes, len_list_byte_of_string. lia. }
    assert (He2 : len e2 = 2 + NodeKeyLen).
    { subst e2. rewrite len_app, len_be_bytes. lia. }
    unfold ccost in Hroom. pose proof (strlen_nonneg x.1). unfold NodeKeyLen in *.
    destruct (emit_room e1 c) as (d1 & Hd1 & Hr1); [lia|].
    destruct (emit_room e2 d1) as (d2 & Hd2 & Hr2); [lia|].
    exists d2. split.
    - rewrite (bind_done _ _ _ _ _ Hd1). exact Hd2.
    - unfold ccost, NodeKeyLen. lia. }
  { exact Hcc. }
  { apply Forall_forall. intros [child a] Hin. cbn [snd].
    apply (Hch child a). subst cs. apply elem_of_map_to_list. exact Hin. }
  { fold s2. lia. }
  (* the sequence *)
  unfold bits.Put32, bits.Put64, bits.Put16, bits.Putb at 1.
  fold ck.
  step Hc1. step Hc2. step Hc3. step Hc4. step Hc5. step Hc6. step Hc7.
  rewrite Hc8. cbn [obind]. eexists. reflexivity.
Qed.

End SerializeFacts.

Module SyncFacts.
Import storage node Statements Fixtures.

Section Facts.
Context {M B : Type} {HM : VersionedStore M} {HB : BlobStore B}.

Lemma sync_content_error (n : CryptNode) (m : M) (b b' : B) (key : bytes) (e : error) :
  shouldSaveContent n = true ->
  BlobStore.Put (data_of (content n)) b = Done ((key, Some e), b') ->
  sync_content (n, (m, b)) = Done (Some EIO, (set_contentKey key n, (m, b'))).
Proof.
  intros Hs Hput. unfold sync_content, on_node, on_Blobs. go_unfold.
  cbn [fst snd]. rewrite Hs. cbn [fst snd]. rewrite Hput. reflexivity.
Qed.

Lemma sync_content_done (n n1 : CryptNode) (m : M) (b b1 : B) :
  content_done n b n1 b1 ->
  sync_content (n, (m, b)) = Done (None, (n1, (m, b1))).
Proof.
  intros [(Hs & -> & ->) | (Hs & key & Hput & ->)];
    unfold sync_content, on_node, on_Blobs; go_unfold; cbn [fst snd]; rewrite Hs;
    cbn [fst snd].
  - reflexivity.
  - rewrite Hput. cbn [fst snd]. unfold after_content.
    cbn [contentKey set_contentKey set_shouldSaveContent].
    destruct (bytes_Equal (contentKey n) key); reflexivity.
Qed.

Lemma sync_metadata_put (h : heap) (n1 : CryptNode) (m m' : M) (b1 : B)
    (value : list byte) (err : option error) :
  shouldSaveMetadata n1 = true ->
  serialize h n1 = Done value ->
  VersionedStore.Put (uint64 (version n1 + 1)) (Key n1) value m = Done (err, m') ->
  sync_metadata h (n1, (m, b1)) =
    match err with
    | None =>
        Done (OK, (set_shouldSaveMetadata false
                     (set_version (uint64 (version n1 + 1)) n1), (m', b1)))
    | Some e =>
        Done (EIO, ((if errors_Is (Some e) ErrStalePut
                     then set_shouldReloadMetadata true n1 else n1), (m', b1)))
    end.
Proof.
  intros Hs Hser Hput.
  unfold sync_metadata, saveMetadata, on_node, on_Metadata. go_unfold.
  cbn [fst snd]. rewrite Hs. cbn [fst snd]. rewrite Hser. cbn [fst snd].
  rewrite Hput. cbn [fst snd].
  destruct err as [e|]; [|reflexivity].
  destruct (errors_Is (Some e) ErrStalePut); reflexivity.
Qed.

(** C4. [sync] on every node [n], metadata store [m] and blob store [b]:
    - when the content flag is set and the blob put fails, [sync] returns
      [EIO]; no flag and no version changes (the content key is the key that
      the failed put returned);
    - otherwise the first step leaves [n1] ([content_done]), where after a
      blob put the content flag is cleared, the content key is the new key,
      and the metadata flag is raised exactly when the new key differs from
      the old one. Then, when the metadata flag of [n1] is not set, [sync]
      returns [OK] with [n1]; when it is set, the serialized node is put at
      [version + 1]: on success [sync] returns [OK], the version is
      [version + 1] (as a [uint64]) and the flag is cleared; on [ErrStalePut]
      the reload flag is set and [EIO] returned; on another error [EIO] is
      returned and the node is [n1], nothing cleared. *)
Theorem sync_steps (h : heap) (n : CryptNode) (m : M) (b : B) :
  (forall key e b',
     shouldSaveContent n = true ->
     BlobStore.Put (data_of (content n)) b = Done ((key, Some e), b') ->
     sync h (n, (m, b)) = Done (EIO, (set_contentKey key n, (m, b'))) /\
     shouldSaveContent (set_contentKey key n) = true /\
     shouldSaveMetadata (set_contentKey key n) = shouldSaveMetadata n /\
     shouldReloadMetadata (set_contentKey key n) = shouldReloadMetadata n /\
     version (set_contentKey key n) = version n) /\
  (forall key,
     shouldSaveContent (after_content key n) = false /\
     contentKey (after_content key n) = key /\
     shouldSaveMetadata (after_content key n) =
       shouldSaveMetadata n || negb (bytes_Equal (contentKey n) key) /\
     shouldReloadMetadata (after_content key n) = shouldReloadMetadata n /\
     version (after_content key n) = version n) /\
  (forall n1 b1,
     content_done n b n1 b1 ->
     (shouldSaveMetadata n1 = false ->
      sync h (n, (m, b)) = Done (OK, (n1, (m, b1)))) /\
     (shouldSaveMetadata n1 = true ->
      forall value err m',
        serialize h n1 = Done value ->
        VersionedStore.Put (uint64 (version n1 + 1)) (Key n1) value m = Done (err, m') ->
        match err with
        | None =>
            exists n2,
              sync h (n, (m, b)) = Done (OK, (n2, (m', b1))) /\
              n2 = set_shouldSaveMetadata false
                     (set_version (uint64 (version n1 + 1)) n1) /\
              version n2 = uint64 (version n1 + 1) /\
              (0 <= version n1 < 2 ^ 64 - 1 -> version n2 = version n1 + 1) /\
              shouldSaveMetadata n2 = false
        | Some e =>
            if errors_Is (Some e) ErrStalePut
            then sync h (n, (m, b)) =
                   Done (EIO, (set_shouldReloadMetadata true n1, (m', b1))) /\
                 shouldReloadMetadata (set_shouldReloadMetadata true n1) = true /\
                 shouldSaveMetadata (set_shouldReloadMetadata true n1) = true
            else sync h (n, (m, b)) = Done (EIO, (n1, (m', b1)))
        end)).
Proof.
  split; [|split].
  - intros key e b' Hs Hput. split; [|repeat split; try reflexivity; exact Hs].
    unfold sync. unfold bind at 1.
    rewrite (sync_content_error n m b b' key e Hs Hput). reflexivity.
  - intros key. unfold after_content.
    destruct (bytes_Equal (contentKey n) key); cbn;
      rewrite ?orb_true_r, ?orb_false_r; repeat split; reflexivity.
  - intros n1 b1 Hdone.
    assert (Hsync : sync h (n, (m, b)) = sync_metadata h (n1, (m, b1))).
    { unfold sync. unfold bind at 1.
      rewrite (sync_content_done n n1 m b b1 Hdone). reflexivity. }
    rewrite Hsync. split.
    + intros Hs. unfold sync_metadata, on_node. go_unfold. cbn [fst snd].
      rewrite Hs. reflexivity.
    + intros Hs value err m' Hser Hput.
      rewrite (sync_metadata_put h n1 m m' b1 value err Hs Hser Hput).
      destruct err as [e|].
      * destruct (errors_Is (Some e) ErrStalePut); [|reflexivity].
        repeat split; try reflexivity. exact Hs.
      * eexists. split; [reflexivity|]. repeat split; try reflexivity.
        intros Hr. cbn. unfold uint64. apply Z.mod_small. lia.
Qed.

End Facts.

Lemma sync_steps_witness :
  (sync (HM := VersionedWrapper_VersionedStore) (HB := rejecting_blobs) ∅
     (dirty, (InMemorySTore.NewInMemoryStore, tt)) =
     Done (EIO, (set_contentKey data_key dirty, (InMemorySTore.NewInMemoryStore, tt)))) /\
  (exists n2 m' b1,
     sync (HM := VersionedWrapper_VersionedStore) (HB := memory_blobs) ∅
       (dirty, (InMemorySTore.NewInMemoryStore, InMemorySTore.NewInMemoryStore)) =
       Done (OK, (n2, (m', b1))) /\
     version n2 = 1 /\ shouldSaveMetadata n2 = false /\
     shouldSaveContent n2 = false /\ contentKey n2 = data_key) /\
  (exists b1,
     sync (HM := fakeVersionedStore_VersionedStore) (HB := memory_blobs) ∅
       (dirty, (stale, InMemorySTore.NewInMemoryStore)) =
       Done (EIO, (set_shouldReloadMetadata true (after_content data_key dirty),
                   (stale, b1)))).
Proof.
  split; [|split].
  - apply (proj1 (sync_steps (HM := VersionedWrapper_VersionedStore)
                    (HB := rejecting_blobs) ∅ dirty
                    InMemorySTore.NewInMemoryStore tt)
             data_key (library_error "read-only file system") tt);
      reflexivity.
  - destruct (proj2 (proj2 (sync_steps (HM := VersionedWrapper_VersionedStore)
                    (HB := memory_blobs) ∅ dirty
                    InMemorySTore.NewInMemoryStore InMemorySTore.NewInMemoryStore))
             (after_content data_key dirty)
             {| InMemorySTore.m :=
                  {[ string_of_list_byte (data_of data_key) :=
                       Slice (list_byte_of_string "data") ]} |}) as [_ Hput].
    + right. split; [reflexivity|]. exists data_key. split; vm_compute; reflexivity.
    + specialize (Hput eq_refl).
      edestruct (Hput _ None _ ltac:(vm_compute; reflexivity)
                   ltac:(vm_compute; reflexivity)) as (n2 & Hs & -> & Hv & _ & Hf).
      eexists _, _, _. split; [exact Hs|]. repeat split; vm_compute; reflexivity.
  - destruct (proj2 (proj2 (sync_steps (HM := fakeVersionedStore_VersionedStore)
                    (HB := memory_blobs) ∅ dirty
                    stale InMemorySTore.NewInMemoryStore))
             (after_content data_key dirty)
             {| InMemorySTore.m :=
                  {[ string_of_list_byte (data_of data_key) :=
                       Slice (list_byte_of_string "data") ]} |}) as [_ Hput].
    + right. split; [reflexivity|]. exists data_key. split; vm_compute; reflexivity.
    + specialize (Hput eq_refl).
      pose proof (Hput _ (Some ErrStalePut) stale ltac:(vm_compute; reflexivity)
                    ltac:(vm_compute; reflexivity)) as Hs.
      cbn in Hs. destruct Hs as [Hs _].
      eexists. exact Hs.
Defined.

End SyncFacts.

(** ** The message codec (C5) *)

Module CodecFacts.
Import message Wire Fixtures.

(** C5, at the messages where the code leaves the property. A PUT message
    whose key has 65534 or 65535 bytes, or whose value has 65528 bytes, is
    well-formed and is encoded, and decoding the bytes panics: the decoder
    adds 2, respectively 8, to the 16-bit length before it reads, the sum
    wraps around, and the slice of the key or of the value then exceeds the
    buffer. One byte less and the round trip succeeds. *)
Theorem Decode_panics_on_long_put :
  strlen (zeros 65534) = 65534 /\
  roundtrip (NewPutMessage 7 (zeros 65534) "v" 1) = Panic "slice bounds out of range" /\
  roundtrip (NewPutMessage 7 (zeros 65535) "v" 1) = Panic "slice bounds out of range" /\
  strlen (zeros 65528) = 65528 /\
  roundtrip (NewPutMessage 7 "k" (zeros 65528) 1) = Panic "slice bounds out of range" /\
  returns_message (roundtrip (NewPutMessage 7 (zeros 65533) (zeros 65527) 1))
    (NewPutMessage 7 (zeros 65533) (zeros 65527) 1) = true.
Proof.
  split; [|split; [|split; [|split; [|split]]]]; vm_compute; reflexivity.
Qed.

Example roundtrip_get : roundtrip (NewGetMessage 42 "name") =
  Done (None, (NewGetMessage 42 "name", None)).
Proof. vm_compute. reflexivity. Qed.

Example roundtrip_put : roundtrip (NewPutMessage 43 "name" "mark" 666) =
  Done (None, (NewPutMessage 43 "name" "mark" 666, None)).
Proof. vm_compute. reflexivity. Qed.

Example roundtrip_error : roundtrip (NewErrorMessage 44 "neutrinos hit the memory bank") =
  Done (None, (NewErrorMessage 44 "neutrinos hit the memory bank", None)).
Proof. vm_compute. reflexivity. Qed.

Example roundtrip_auth : roundtrip (NewAuthMessage 45 "s3cr3t") =
  Done (None, (NewAuthMessage 45 "s3cr3t", None)).
Proof. vm_compute. reflexivity. Qed.

End CodecFacts.

(** *** The round trip within the limits of the decoder *)

Module RoundTrip.
Import message Wire.

Lemma len_prefixed (s : string) : len (prefixed s) = 2 + strlen s.
Proof.
  unfold prefixed. rewrite len_app, len_be_bytes, len_list_byte_of_string. lia.
Qed.

(** *** The encoder *)

Lemma makeroom_spec (required : Z) (e : Encoder.Encoder) :
  0 <= Encoder.off e <= len (Encoder.buf e) ->
  exists e',
    Encoder.makeroom required e = Done (tt, e') /\
    Encoder.off e' = Encoder.off e /\
    required <= len (Encoder.buf e') /\
    len (Encoder.buf e) <= len (Encoder.buf e') /\
    written e' = written e.
Proof.
  intros Hoff. unfold Encoder.makeroom.
  destruct (bool_decide (len (Encoder.buf e) >= required)) eqn:Hd.
  - apply bool_decide_eq_true_1 in Hd. exists e. repeat split; try reflexivity; lia.
  - apply bool_decide_eq_false_1 in Hd.
    eexists. split; [reflexivity|]. cbn [Encoder.off Encoder.buf].
    rewrite copy_make by lia. rewrite len_app.
    assert (Hm : len (make (required - len (Encoder.buf e))) =
                 required - len (Encoder.buf e)).
    { unfold make, len. rewrite length_replicate. unfold len in Hd. lia. }
    rewrite Hm. repeat split; try lia.
    unfold written. cbn [Encoder.off Encoder.buf].
    apply take_app_le. unfold len in Hoff. lia.
Qed.

Lemma put_at_spec (enc : list byte) (e : Encoder.Encoder) :
  0 <= Encoder.off e ->
  Encoder.off e + len enc <= len (Encoder.buf e) ->
  exists e',
    Encoder.put_at (bits.put enc) (len enc) e = Done (tt, e') /\
    Encoder.off e' = Encoder.off e + len enc /\
    len (Encoder.buf e') = len (Encoder.buf e) /\
    written e' = written e ++ enc.
Proof.
  intros Hoff Hroom. unfold Encoder.put_at, slice_from.
  pose proof (len_nonneg enc) as Hn.
  rewrite bool_decide_eq_true_2 by lia. cbn [obind].
  unfold bits.put. rewrite bool_decide_eq_true_2
    by (rewrite length_drop; unfold len in *; lia).
  cbn [obind fst snd]. eexists. split; [reflexivity|].
  cbn [Encoder.off Encoder.buf].
  assert (Hlen : length (take (Z.to_nat (Encoder.off e)) (Encoder.buf e))
                 = Z.to_nat (Encoder.off e)).
  { rewrite length_take. unfold len in *. lia. }
  split; [reflexivity|]. split.
  - unfold len in *. rewrite !length_app, length_drop, length_drop, Hlen. lia.
  - unfold written. cbn [Encoder.off Encoder.buf].
    replace (Z.to_nat (Encoder.off e + len enc))
      with (Z.to_nat (Encoder.off e) + length enc)%nat by (unfold len; lia).
    rewrite <- Hlen at 1. rewrite app_assoc.
    rewrite take_app_length'; [reflexivity|].
    rewrite length_app, Hlen. reflexivity.
Qed.

Lemma put_fixed_spec (n : nat) (v : Z) (e : Encoder.Encoder) :
  0 <= Encoder.off e ->
  Encoder.off e + Z.of_nat n <= len (Encoder.buf e) ->
  exists e',
    Encoder.put_at (fun b => bits.put (be_bytes n v) b) (Z.of_nat n) e = Done (tt, e') /\
    Encoder.off e' = Encoder.off e + Z.of_nat n /\
    len (Encoder.buf e') = len (Encoder.buf e) /\
    written e' = written e ++ be_bytes n v.
Proof.
  intros Hoff Hroom.
  rewrite <- (len_be_bytes n v) in *.
  exact (put_at_spec (be_bytes n v) e Hoff Hroom).
Qed.

Lemma puts_spec (v : string) (e : Encoder.Encoder) :
  0 <= Encoder.off e ->
  Encoder.off e + 2 + strlen v <= len (Encoder.buf e) ->
  exists e',
    Encoder.puts v e = Done (tt, e') /\
    Encoder.off e' = Encoder.off e + 2 + strlen v /\
    len (Encoder.buf e') = len (Encoder.buf e) /\
    written e' = written e ++ prefixed v.
Proof.
  intros Hoff Hroom.
  unfold Encoder.puts, bits.Puts, bits.Putb.
  rewrite len_list_byte_of_string. fold (prefixed v).
  rewrite <- (len_prefixed v).
  destruct (put_at_spec (prefixed v) e Hoff) as (e' & Hp & Ho & Hl & Hw).
  { rewrite len_prefixed. lia. }
  exists e'. rewrite len_prefixed in Ho. repeat split; try assumption. lia.
Qed.

Lemma encode_body_spec (m : Message) (e : Encoder.Encoder) :
  known_kind (kind m) ->
  0 <= Encoder.off e <= len (Encoder.buf e) ->
  exists e',
    Encoder.encode_body m e = Done (true, e') /\
    0 <= Encoder.off e' <= len (Encoder.buf e') /\
    written e' = written e ++ body m.
Proof.
  intros Hk Hoff. unfold Encoder.encode_body, body.
  rewrite (bind_done _ _ e e e) by reflexivity.
  pose proof (strlen_nonneg (key m)) as Hkey.
  pose proof (strlen_nonneg (value m)) as Hval.
  destruct Hk as [-> | [-> | [-> | ->]]]; cbn [Z.eqb Pos.eqb KindGet KindPut KindError KindAuth orb].
  - destruct (makeroom_spec (Encoder.off e + 2 + strlen (key m)) e Hoff)
      as (e1 & H1 & Ho1 & Hr1 & _ & Hw1).
    rewrite (bind_done _ _ _ _ _ H1).
    destruct (puts_spec (key m) e1) as (e2 & H2 & Ho2 & Hl2 & Hw2); [lia|lia|].
    rewrite (bind_done _ _ _ _ _ H2).
    eexists. split; [reflexivity|]. split; [lia|]. rewrite Hw2, Hw1. reflexivity.
  - destruct (makeroom_spec
                (Encoder.off e + 12 + strlen (key m) + strlen (value m)) e Hoff)
      as (e1 & H1 & Ho1 & Hr1 & _ & Hw1).
    rewrite (bind_done _ _ _ _ _ H1).
    destruct (puts_spec (key m) e1) as (e2 & H2 & Ho2 & Hl2 & Hw2); [lia|lia|].
    rewrite (bind_done _ _ _ _ _ H2).
    destruct (puts_spec (value m) e2) as (e3 & H3 & Ho3 & Hl3 & Hw3); [lia|lia|].
    rewrite (bind_done _ _ _ _ _ H3).
    destruct (put_fixed_spec 8 (version m) e3) as (e4 & H4 & Ho4 & Hl4 & Hw4);
      [lia|lia|].
    unfold Encoder.put64, bits.Put64.
    rewrite (bind_done _ _ _ _ _ H4).
    eexists. split; [reflexivity|]. split; [lia|].
    rewrite Hw4, Hw3, Hw2, Hw1. rewrite <- !app_assoc. reflexivity.
  - destruct (makeroom_spec (Encoder.off e + 2 + strlen (value m)) e Hoff)
      as (e1 & H1 & Ho1 & Hr1 & _ & Hw1).
    rewrite (bind_done _ _ _ _ _ H1).
    destruct (puts_spec (value m) e1) as (e2 & H2 & Ho2 & Hl2 & Hw2); [lia|lia|].
    rewrite (bind_done _ _ _ _ _ H2).
    eexists. split; [reflexivity|]. split; [lia|]. rewrite Hw2, Hw1. reflexivity.
  - destruct (makeroom_spec (Encoder.off e + 2 + strlen (value m)) e Hoff)
      as (e1 & H1 & Ho1 & Hr1 & _ & Hw1).
    rewrite (bind_done _ _ _ _ _ H1).
    destruct (puts_spec (value m) e1) as (e2 & H2 & Ho2 & Hl2 & Hw2); [lia|lia|].
    rewrite (bind_done _ _ _ _ _ H2).
    eexists. split; [reflexivity|]. split; [lia|]. rewrite Hw2, Hw1. reflexivity.
Qed.

(** Encoding a message of a known kind to a buffer, from any state of the
    encoder: no error, and the buffer receives the bytes of the message. *)
Lemma Encode_spec (m : Message) (e : Encoder.Encoder) (w : Buffer.Buffer) :
  known_kind (kind m) ->
  exists e', Encoder.Encode m (e, w) = Done (None, (e', w ++ wire m)).
Proof.
  intros Hk. unfold Encoder.Encode.
  set (e0 := {| Encoder.buf := Encoder.buf e; Encoder.off := 0 |}).
  rewrite (bind_done _ _ (e, w) (e0, w) tt) by reflexivity.
  assert (Hoff0 : 0 <= Encoder.off e0 <= len (Encoder.buf e0)).
  { cbn. pose proof (len_nonneg (Encoder.buf e)). lia. }
  destruct (makeroom_spec 3 e0 Hoff0) as (e1 & H1 & Ho1 & Hr1 & _ & Hw1).
  rewrite (bind_done _ _ _ _ _ (on_fst_done _ _ _ w _ H1)).
  cbn [Encoder.off e0] in Ho1.
  destruct (put_fixed_spec 1 (uint8 (kind m)) e1) as (e2 & H2 & Ho2 & Hl2 & Hw2);
    [lia|lia|].
  unfold Encoder.put8, bits.Put8.
  rewrite (bind_done _ _ _ _ _ (on_fst_done _ _ _ w _ H2)).
  destruct (put_fixed_spec 2 (tag m) e2) as (e3 & H3 & Ho3 & Hl3 & Hw3);
    [lia|lia|].
  unfold Encoder.put16, bits.Put16.
  rewrite (bind_done _ _ _ _ _ (on_fst_done _ _ _ w _ H3)).
  destruct (encode_body_spec m e3 Hk) as (e4 & H4 & Ho4 & Hw4); [lia|].
  rewrite (bind_done _ _ _ _ _ (on_fst_done _ _ _ w _ H4)).
  cbn [negb].
  rewrite (bind_done _ _ (e4, w) (e4, w) e4) by reflexivity.
  assert (Hout : slice_to (Encoder.buf e4) (Encoder.off e4) = Done (written e4)).
  { unfold slice_to. rewrite bool_decide_eq_true_2 by lia. reflexivity. }
  rewrite (bind_done _ _ (e4, w) (e4, w) (written e4))
    by (unfold lift; rewrite Hout; reflexivity).
  rewrite (bind_done _ _ (e4, w) (e4, w ++ written e4) (len (written e4), None))
    by reflexivity.
  cbn [fst snd].
  assert (Hlen : len (written e4) = Encoder.off e4).
  { unfold written, len. rewrite length_take. unfold len in Ho4. lia. }
  rewrite Hlen, Z.eqb_refl. cbn [negb].
  exists e4. unfold ret. do 3 f_equal.
  rewrite Hw4, Hw3, Hw2, Hw1. unfold written, e0. cbn [Encoder.off Encoder.buf].
  cbn [Z.to_nat take app]. unfold wire.
  assert (Hu : be_bytes 1 (uint8 (kind m)) = be_bytes 1 (kind m)).
  { destruct Hk as [-> | [-> | [-> | ->]]]; reflexivity. }
  rewrite Hu, <- !app_assoc. reflexivity.
Qed.

(** *** The decoder *)

(** The bytes of a buffer at an offset, known from a prefix of the buffer. *)
Lemma window (b pre x post : list byte) (K o n : nat) :
  take K b = pre ++ x ++ post ->
  length pre = o -> length x = n -> (o + n <= K)%nat ->
  take n (drop o b) = x.
Proof.
  intros Hb Ho Hn Hle.
  rewrite take_drop_commute.
  replace (take (o + n) b) with (take (o + n) (take K b))
    by (rewrite take_take; f_equal; lia).
  rewrite Hb, <- take_drop_commute, <- Ho, drop_app_length, <- Hn.
  apply take_app_length.
Qed.

(** [read k] from a buffer that holds [k] bytes at least: the bytes are at
    the front of the decoder's buffer, the offset is zero, no error. *)
Lemma read_spec (d : Decoder.Decoder) (r : Buffer.Buffer) (k : Z) :
  Decoder.err d = None -> 0 <= Decoder.off d -> 0 <= k < 2 ^ 16 -> k <= len r ->
  exists b',
    Decoder.read k (d, r) =
      Done (tt, ({| Decoder.buf := b'; Decoder.off := 0; Decoder.err := None |},
                 drop (Z.to_nat k) r)) /\
    take (Z.to_nat k) b' = take (Z.to_nat k) r /\
    k <= len b'.
Proof.
  intros Herr Hoff Hk Hr. unfold Decoder.read. cbn [fst snd].
  set (d1 := if bool_decide (len (Decoder.buf d) - Decoder.off d < k)
             then {| Decoder.buf := copy (make (Decoder.off d + k)) (Decoder.buf d);
                     Decoder.off := Decoder.off d; Decoder.err := Decoder.err d |}
             else d).
  assert (Herr1 : Decoder.err d1 = None).
  { subst d1. destruct (bool_decide _); [cbn|]; exact Herr. }
  assert (Hlen1 : k <= len (Decoder.buf d1)).
  { subst d1. destruct (bool_decide _) eqn:Hd.
    - cbn [Decoder.buf]. unfold len. rewrite length_copy. unfold make.
      rewrite length_replicate. lia.
    - apply bool_decide_eq_false_1 in Hd. lia. }
  rewrite Herr1. unfold slice_to. rewrite bool_decide_eq_true_2 by lia.
  cbn [obind].
  assert (Hdst : len (take (Z.to_nat k) (Decoder.buf d1)) = k).
  { unfold len in *. rewrite length_take. lia. }
  rewrite Hdst. cbn [ReadFull Buffer_Reader]. unfold Buffer.ReadFull.
  destruct (bool_decide (k <= 0)) eqn:Hk0.
  - apply bool_decide_eq_true_1 in Hk0. assert (k = 0) by lia. subst k.
    cbn [obind fst snd len length Z.of_nat uint16 Z.modulo Z.eqb negb app drop].
    change (uint16 0 =? 0) with true. cbn [negb Z.to_nat drop].
    eexists. split; [reflexivity|]. split; [reflexivity|exact Hlen1].
  - apply bool_decide_eq_false_1 in Hk0.
    rewrite (bool_decide_eq_false_2 (len r = 0)) by lia.
    rewrite (bool_decide_eq_false_2 (len r < k)) by lia.
    cbn [obind fst snd].
    assert (Hdata : length (take (Z.to_nat k) r) = Z.to_nat k).
    { rewrite length_take. unfold len in Hr. lia. }
    assert (Hm : len (take (Z.to_nat k) r) = k) by (unfold len; rewrite Hdata; lia).
    rewrite Hm. unfold uint16. rewrite Z.mod_small by lia. rewrite Z.eqb_refl.
    cbn [negb]. rewrite Hdata. eexists. split; [reflexivity|]. split.
    + rewrite take_app_length'; [reflexivity|symmetry; exact Hdata].
    + rewrite len_app, Hm. pose proof (len_nonneg (drop (Z.to_nat k) (Decoder.buf d1))).
      lia.
Qed.

Lemma get_at_spec (n : nat) (d : Decoder.Decoder) :
  0 <= Decoder.off d -> Decoder.off d + Z.of_nat n <= len (Decoder.buf d) ->
  Decoder.get_at (bits.get n) (Z.of_nat n) d =
    Done (be_value 0 (take n (drop (Z.to_nat (Decoder.off d)) (Decoder.buf d))),
          {| Decoder.buf := Decoder.buf d; Decoder.off := Decoder.off d + Z.of_nat n;
             Decoder.err := Decoder.err d |}).
Proof.
  intros Hoff Hroom. unfold Decoder.get_at, slice_from, bits.get.
  rewrite bool_decide_eq_true_2 by lia. cbn [obind].
  rewrite bool_decide_eq_true_2 by (rewrite length_drop; unfold len in *; lia).
  reflexivity.
Qed.

Lemma gets_spec (n : Z) (d : Decoder.Decoder) :
  0 <= Decoder.off d -> 0 <= n -> Decoder.off d + n <= len (Decoder.buf d) ->
  Decoder.gets n d =
    Done (string_of_list_byte
            (take (Z.to_nat n) (drop (Z.to_nat (Decoder.off d)) (Decoder.buf d))),
          {| Decoder.buf := Decoder.buf d; Decoder.off := Decoder.off d + n;
             Decoder.err := Decoder.err d |}).
Proof.
  intros Hoff Hn Hroom. unfold Decoder.gets, slice_range.
  rewrite bool_decide_eq_true_2 by lia. cbn [obind].
  replace (Decoder.off d + n - Decoder.off d) with n by lia. reflexivity.
Qed.

(** Reading a number of [n] bytes at offset [o] of a buffer whose first [K]
    bytes are known. *)
Lemma get_known (n : nat) (b pre x post : list byte) (K : nat) (o v : Z)
    (t : Buffer.Buffer) :
  take K b = pre ++ x ++ post ->
  len pre = o -> x = be_bytes n v -> 0 <= v < 2 ^ (8 * Z.of_nat n) ->
  (Z.to_nat o + n <= K)%nat -> Z.of_nat K <= len b ->
  on_fst (Decoder.get_at (bits.get n) (Z.of_nat n)) (at_offset b o, t) =
    Done (v, (at_offset b (o + Z.of_nat n), t)).
Proof.
  intros Hb Ho Hx Hv Hle HK. unfold len in *.
  apply on_fst_done. rewrite get_at_spec; cbn [at_offset Decoder.off Decoder.buf];
    [|lia|unfold len; lia].
  rewrite (window b pre x post K (Z.to_nat o) n Hb); try lia.
  - rewrite Hx, be_value_be_bytes_small by exact Hv. reflexivity.
  - rewrite Hx. apply length_be_bytes.
Qed.

(** Reading the string of [n] bytes at offset 0. *)
Lemma gets_known (b post : list byte) (K : nat) (s : string) (t : Buffer.Buffer) :
  take K b = list_byte_of_string s ++ post ->
  (String.length s <= K)%nat -> Z.of_nat K <= len b ->
  on_fst (Decoder.gets (strlen s)) (at_offset b 0, t) =
    Done (s, (at_offset b (strlen s), t)).
Proof.
  intros Hb Hle HK. unfold strlen, len in *.
  apply on_fst_done. rewrite gets_spec; cbn [at_offset Decoder.off Decoder.buf];
    [|lia|lia|unfold len; lia].
  rewrite Nat2Z.id. change (Z.to_nat 0) with 0%nat.
  rewrite (window b [] (list_byte_of_string s) post K 0 (String.length s));
    [|exact Hb|reflexivity|apply length_list_byte_of_string|lia].
  rewrite string_of_list_byte_of_string. reflexivity.
Qed.

(** The header: five bytes are read; they hold the kind, the tag and the
    first length. *)
Lemma header_spec (d : Decoder.Decoder) (k t n : Z) (tail : Buffer.Buffer) :
  Decoder.err d = None -> 0 <= Decoder.off d ->
  0 <= k < 2 ^ 8 -> is_uint16 t -> is_uint16 n ->
  exists b,
    Decoder.read 5 (d, be_bytes 1 k ++ be_bytes 2 t ++ be_bytes 2 n ++ tail) =
      Done (tt, (at_offset b 0, tail)) /\
    on_fst Decoder.get8 (at_offset b 0, tail) = Done (k, (at_offset b 1, tail)) /\
    on_fst Decoder.get16 (at_offset b 1, tail) = Done (t, (at_offset b 3, tail)) /\
    on_fst Decoder.get16 (at_offset b 3, tail) = Done (n, (at_offset b 5, tail)).
Proof.
  intros Herr Hoff Hk Ht Hn. unfold is_uint16 in *.
  set (r := be_bytes 1 k ++ be_bytes 2 t ++ be_bytes 2 n ++ tail).
  destruct (read_spec d r 5 Herr Hoff) as (b & Hread & Htake & Hlen).
  { lia. }
  { subst r. rewrite !len_app, !len_be_bytes. pose proof (len_nonneg tail). lia. }
  assert (Hb : take 5 b = be_bytes 1 k ++ be_bytes 2 t ++ be_bytes 2 n).
  { change (Z.to_nat 5) with 5%nat in Htake. rewrite Htake. reflexivity. }
  exists b. split; [|split; [|split]].
  - rewrite Hread. reflexivity.
  - apply (get_known 1 b [] (be_bytes 1 k) (be_bytes 2 t ++ be_bytes 2 n) 5 0 k);
      try reflexivity; try lia. exact Hb.
  - apply (get_known 2 b (be_bytes 1 k) (be_bytes 2 t) (be_bytes 2 n) 5 1 t);
      try reflexivity; try lia. exact Hb.
  - apply (get_known 2 b (be_bytes 1 k ++ be_bytes 2 t) (be_bytes 2 n) [] 5 3 n);
      try reflexivity; try lia. rewrite app_nil_r, <- app_assoc. exact Hb.
Qed.

(** A string and the [extra] bytes after it: they are read together, and
    the string is at the front of the buffer. *)
Lemma string_spec (d : Decoder.Decoder) (s : string) (x : list byte)
    (tail : Buffer.Buffer) :
  Decoder.err d = None -> 0 <= Decoder.off d ->
  strlen s + len x < 2 ^ 16 ->
  exists b,
    Decoder.read (strlen s + len x) (d, list_byte_of_string s ++ x ++ tail) =
      Done (tt, (at_offset b 0, tail)) /\
    take (String.length s + length x) b = list_byte_of_string s ++ x /\
    strlen s + len x <= len b /\
    on_fst (Decoder.gets (strlen s)) (at_offset b 0, tail) =
      Done (s, (at_offset b (strlen s), tail)).
Proof.
  intros Herr Hoff Hlim.
  pose proof (strlen_nonneg s) as Hs. pose proof (len_nonneg x) as Hx.
  set (r := list_byte_of_string s ++ x ++ tail).
  assert (Hnat : Z.to_nat (strlen s + len x) = (String.length s + length x)%nat)
    by (unfold strlen, len; lia).
  destruct (read_spec d r (strlen s + len x) Herr Hoff) as (b & Hread & Htake & Hlen).
  { lia. }
  { subst r. rewrite !len_app, len_list_byte_of_string.
    pose proof (len_nonneg tail). lia. }
  rewrite Hnat in Htake, Hread.
  assert (Hb : take (String.length s + length x) b = list_byte_of_string s ++ x).
  { rewrite Htake. subst r. rewrite app_assoc.
    apply take_app_length'. rewrite length_app, length_list_byte_of_string.
    reflexivity. }
  assert (Hd : drop (String.length s + length x) r = tail).
  { subst r. rewrite app_assoc.
    apply drop_app_length'. rewrite length_app, length_list_byte_of_string.
    reflexivity. }
  rewrite Hd in Hread.
  exists b. split; [exact Hread|]. split; [exact Hb|]. split; [exact Hlen|].
  apply (gets_known b x (String.length s + length x) s tail Hb); [lia|].
  unfold strlen, len in *. lia.
Qed.

Lemma string_only_spec (d : Decoder.Decoder) (s : string) (tail : Buffer.Buffer) :
  Decoder.err d = None -> 0 <= Decoder.off d -> strlen s < 2 ^ 16 ->
  exists b,
    Decoder.read (strlen s) (d, list_byte_of_string s ++ tail) =
      Done (tt, (at_offset b 0, tail)) /\
    on_fst (Decoder.gets (strlen s)) (at_offset b 0, tail) =
      Done (s, (at_offset b (strlen s), tail)).
Proof.
  intros Herr Hoff Hlim.
  destruct (string_spec d s [] tail Herr Hoff) as (b & Hread & _ & _ & Hgets).
  { change (len []) with 0. lia. }
  change (len []) with 0 in Hread. rewrite Z.add_0_r in Hread.
  exists b. split; assumption.
Qed.

(** *** The round trip *)

Lemma transmissible_known (m : Message) : transmissible m -> known_kind (kind m).
Proof. unfold known_kind. intros [_ [[H _]|[[H _]|[[H|H] _]]]]; auto. Qed.

(** Decoding the bytes of a transmissible message, followed by anything,
    from any state of the decoder: the message comes back, no error, and
    what followed is left in the buffer. *)
Lemma Decode_spec (m m0 : Message) (d : Decoder.Decoder) (rest : Buffer.Buffer) :
  transmissible m -> 0 <= Decoder.off d ->
  exists d', Decoder.Decode m0 (d, wire m ++ rest) =
               Done ((decoded m0 m, None), (d', rest)) /\
             0 <= Decoder.off d'.
Proof.
  intros [Htag Hm] Hoff. unfold Decoder.Decode.
  set (d0 := {| Decoder.buf := Decoder.buf d; Decoder.off := Decoder.off d;
                Decoder.err := None |}).
  rewrite (bind_done _ _ (d, wire m ++ rest) (d0, wire m ++ rest) tt) by reflexivity.
  pose proof (strlen_nonneg (key m)) as Hkey.
  pose proof (strlen_nonneg (value m)) as Hval.
  unfold wire, body, decoded.
  destruct Hm as [[Hk Hlk] | [(Hk & Hlk & Hlv & Hver) | [Hk Hlv]]].
  - (* GET *)
    rewrite Hk. cbn [Z.eqb Pos.eqb KindGet KindPut orb]. unfold prefixed.
    rewrite <- !app_assoc.
    destruct (header_spec d0 KindGet (tag m) (strlen (key m))
                (list_byte_of_string (key m) ++ rest))
      as (b & Hread & Hg8 & Hg16 & Hg16');
      [reflexivity | exact Hoff | unfold KindGet, KindPut; lia | exact Htag | unfold is_uint16; lia |].
    step Hread; step Hg8; step Hg16.
    cbn [kind tag key value version Z.eqb Pos.eqb KindGet].
    step Hg16'.
    destruct (string_only_spec (at_offset b 5) (key m) rest)
      as (b2 & Hread2 & Hgets); [reflexivity | cbn; lia | lia |].
    step Hread2; step Hgets.
    eexists. split; [reflexivity|]. unfold at_offset. cbn [Decoder.off fst]. lia.
  - (* PUT *)
    rewrite Hk. cbn [Z.eqb Pos.eqb KindGet KindPut orb]. unfold prefixed.
    rewrite <- !app_assoc.
    destruct (header_spec d0 KindPut (tag m) (strlen (key m))
                (list_byte_of_string (key m) ++ be_bytes 2 (strlen (value m)) ++
                 list_byte_of_string (value m) ++ be_bytes 8 (version m) ++ rest))
      as (b & Hread & Hg8 & Hg16 & Hg16');
      [reflexivity | exact Hoff | unfold KindGet, KindPut; lia | exact Htag | unfold is_uint16; lia |].
    step Hread; step Hg8; step Hg16.
    cbn [kind tag key value version Z.eqb Pos.eqb KindGet KindPut].
    step Hg16'.
    assert (Hw1 : uint16 (strlen (key m) + 2) = strlen (key m) + len (be_bytes 2 (strlen (value m)))).
    { rewrite len_be_bytes. unfold uint16. apply Z.mod_small. lia. }
    rewrite Hw1.
    destruct (string_spec (at_offset b 5) (key m) (be_bytes 2 (strlen (value m)))
                (list_byte_of_string (value m) ++ be_bytes 8 (version m) ++ rest))
      as (b2 & Hread2 & Hb2 & Hlen2 & Hgets2);
      [reflexivity | cbn; lia | rewrite len_be_bytes; lia |].
    step Hread2; step Hgets2.
    rewrite len_be_bytes in Hlen2. rewrite length_be_bytes in Hb2.
    assert (Hvl : on_fst Decoder.get16
                    (at_offset b2 (strlen (key m)),
                     list_byte_of_string (value m) ++ be_bytes 8 (version m) ++ rest) =
                  Done (strlen (value m),
                        (at_offset b2 (strlen (key m) + 2),
                         list_byte_of_string (value m) ++ be_bytes 8 (version m) ++ rest))).
    { apply (get_known 2 b2 (list_byte_of_string (key m))
               (be_bytes 2 (strlen (value m))) [] (String.length (key m) + 2)
               (strlen (key m)) (strlen (value m))).
      - rewrite app_nil_r. exact Hb2.
      - apply len_list_byte_of_string.
      - reflexivity.
      - cbn. lia.
      - unfold strlen. lia.
      - unfold strlen in *. lia. }
    step Hvl.
    assert (Hw2 : uint16 (strlen (value m) + 8) = strlen (value m) + len (be_bytes 8 (version m))).
    { rewrite len_be_bytes. unfold uint16. apply Z.mod_small. lia. }
    rewrite Hw2.
    destruct (string_spec (at_offset b2 (strlen (key m) + 2)) (value m)
                (be_bytes 8 (version m)) rest)
      as (b3 & Hread3 & Hb3 & Hlen3 & Hgets3);
      [reflexivity | cbn; lia | rewrite len_be_bytes; lia |].
    step Hread3; step Hgets3.
    rewrite len_be_bytes in Hlen3. rewrite length_be_bytes in Hb3.
    assert (Hv8 : on_fst Decoder.get64 (at_offset b3 (strlen (value m)), rest) =
                  Done (version m, (at_offset b3 (strlen (value m) + 8), rest))).
    { apply (get_known 8 b3 (list_byte_of_string (value m))
               (be_bytes 8 (version m)) [] (String.length (value m) + 8)
               (strlen (value m)) (version m)).
      - rewrite app_nil_r. exact Hb3.
      - apply len_list_byte_of_string.
      - reflexivity.
      - exact Hver.
      - unfold strlen. lia.
      - unfold strlen in *. lia. }
    step Hv8.
    eexists. split; [reflexivity|]. unfold at_offset. cbn [Decoder.off fst]. lia.
  - (* ERROR, AUTH *)
    assert (Hbody : (kind m =? KindGet) = false /\ (kind m =? KindPut) = false /\
                    (kind m =? KindAuth) || (kind m =? KindError) = true).
    { destruct Hk as [-> | ->]; repeat split; reflexivity. }
    destruct Hbody as (Hb1 & Hb2 & Hb3). rewrite Hb1, Hb2.
    cbn [orb]. unfold prefixed. rewrite <- !app_assoc.
    destruct (header_spec d0 (kind m) (tag m) (strlen (value m))
                (list_byte_of_string (value m) ++ rest))
      as (b & Hread & Hg8 & Hg16 & Hg16');
      [reflexivity | exact Hoff | destruct Hk as [-> | ->]; unfold KindError, KindAuth; lia | exact Htag | unfold is_uint16; lia |].
    step Hread; step Hg8; step Hg16.
    cbn [kind tag key value version]. rewrite Hb1, Hb2, Hb3.
    step Hg16'.
    destruct (string_only_spec (at_offset b 5) (value m) rest)
      as (b2 & Hread2 & Hgets); [reflexivity | cbn; lia | lia |].
    step Hread2; step Hgets.
    eexists. split; [reflexivity|]. unfold at_offset. cbn [Decoder.off fst]. lia.
Qed.

(** The round trip within the limits of the decoder: what [Encode] adds to
    a buffer, [Decode] reads back as the same message, for every state of
    the encoder, every state of the decoder whose offset is not negative
    (as it is initially and after every such call) and every message [m0] to
    decode into. *)
Theorem roundtrip_transmissible (m m0 : Message) (e : Encoder.Encoder)
    (d : Decoder.Decoder) (w rest : Buffer.Buffer) :
  transmissible m -> 0 <= Decoder.off d ->
  exists e' d',
    Encoder.Encode m (e, w) = Done (None, (e', w ++ wire m)) /\
    Decoder.Decode m0 (d, wire m ++ rest) = Done ((decoded m0 m, None), (d', rest)) /\
    0 <= Decoder.off d'.
Proof.
  intros Hm Hoff.
  destruct (Encode_spec m e w (transmissible_known m Hm)) as (e' & He).
  destruct (Decode_spec m m0 d rest Hm Hoff) as (d' & Hd & Hoff').
  exists e', d'. split; [exact He|]. split; [exact Hd|exact Hoff'].
Qed.

(** With a fresh encoder and decoder, an empty buffer and a zero message to
    decode into, as in the codec test. *)
Corollary roundtrip_fresh (m : Message) :
  transmissible m ->
  roundtrip m = Done (None, (decoded zero_Message m, None)).
Proof.
  intros Hm.
  destruct (roundtrip_transmissible m zero_Message Encoder.new Decoder.new [] [] Hm)
    as (e' & d' & He & Hd & _); [cbn; lia|].
  unfold roundtrip. rewrite He. cbn [obind fst snd app].
  rewrite app_nil_r in Hd. rewrite Hd. reflexivity.
Qed.

(** The messages of the four constructors come back as they are. *)
Lemma decoded_constructed (tag version : Z) (key value : string) :
  decoded zero_Message (NewGetMessage tag key) = NewGetMessage tag key /\
  decoded zero_Message (NewPutMessage tag key value version) =
    NewPutMessage tag key value version /\
  decoded zero_Message (NewErrorMessage tag value) = NewErrorMessage tag value /\
  decoded zero_Message (NewAuthMessage tag value) = NewAuthMessage tag value.
Proof. repeat split; reflexivity. Qed.

Lemma roundtrip_transmissible_witness :
  exists e' d',
    Encoder.Encode (NewPutMessage 43 "name" "mark" 666) (Encoder.new, []) =
      Done (None, (e', [] ++ wire (NewPutMessage 43 "name" "mark" 666))) /\
    Decoder.Decode zero_Message
      (Decoder.new, wire (NewPutMessage 43 "name" "mark" 666) ++ []) =
      Done ((decoded zero_Message (NewPutMessage 43 "name" "mark" 666), None),
            (d', [])) /\
    0 <= Decoder.off d'.
Proof.
  apply (roundtrip_transmissible (NewPutMessage 43 "name" "mark" 666)
           zero_Message Encoder.new Decoder.new [] []).
  - split; [unfold is_uint16; cbn; lia|]. right. left.
    unfold is_uint64. repeat split; vm_compute; (reflexivity || discriminate).
  - cbn. lia.
Defined.

End RoundTrip.

(** ** The blob store (C6) *)

Module BlobFacts.
Import storage Statements Fixtures.

Lemma InMemorySTore_honours_contract : honours_contract InMemorySTore.InMemorySTore.
Proof.
  split.
  - intros k v s. eexists _, _. reflexivity.
  - intros k v s s'. cbn. unfold InMemorySTore.Put, InMemorySTore.Get.
    intros [= <-]. cbn. rewrite lookup_insert_eq. cbn.
    eexists _, _. split; [reflexivity|]. cbn. apply dup_eq.
Qed.

Section Facts.
Variable Sum512 : list byte -> list byte.
Context {S : Type} {HS : Store S}.

(** C6. Over a raw store that honours the contract, for every value [v]:
    a put from any state makes the raw put of [v] under the key [Sum512 v]
    and returns that key with the error and the state of the raw put; so
    two puts of [v] return the same key; after a put that succeeded, a get
    of the returned key returns [v]; and when the raw put succeeds the put
    succeeds, so that the get of the key it returns gives [v] back. *)
Theorem blob_put_get (Hraw : honours_contract S) (v : list byte) :
  (forall s : S, exists err s',
     BlobStoreWrapper.Put Sum512 v s = Done ((Slice (Sum512 v), err), s') /\
     Store.Put (Sum512 v) v s = Done (err, s')) /\
  (forall (s1 s2 : S) r1 r2 s1' s2',
     BlobStoreWrapper.Put Sum512 v s1 = Done (r1, s1') ->
     BlobStoreWrapper.Put Sum512 v s2 = Done (r2, s2') ->
     fst r1 = fst r2) /\
  (forall (s s' : S) key,
     BlobStoreWrapper.Put Sum512 v s = Done ((key, None), s') ->
     exists b s'', BlobStoreWrapper.Get (data_of key) s' = Done ((b, None), s'')
                   /\ data_of b = v) /\
  (forall s s' : S,
     Store.Put (Sum512 v) v s = Done (None, s') ->
     BlobStoreWrapper.Put Sum512 v s = Done ((Slice (Sum512 v), None), s') /\
     exists b s'', BlobStoreWrapper.Get (Sum512 v) s' = Done ((b, None), s'')
                   /\ data_of b = v).
Proof.
  assert (Hput : forall (s : S) r s',
            BlobStoreWrapper.Put Sum512 v s = Done (r, s') ->
            fst r = Slice (Sum512 v) /\ Store.Put (Sum512 v) v s = Done (snd r, s')).
  { intros s r s'. unfold BlobStoreWrapper.Put. go_unfold.
    destruct (Store.Put (Sum512 v) v s) as [[err s0]|reason]; [|discriminate].
    intros [= <- <-]. split; reflexivity. }
  assert (Hraw_put : forall (s : S) err s',
            Store.Put (Sum512 v) v s = Done (err, s') ->
            BlobStoreWrapper.Put Sum512 v s = Done ((Slice (Sum512 v), err), s')).
  { intros s err s' Hp. unfold BlobStoreWrapper.Put. go_unfold. rewrite Hp. reflexivity. }
  split; [|split; [|split]].
  - intros s. destruct (put_returns S Hraw (Sum512 v) v s) as (err & s' & Hp).
    exists err, s'. split; [apply Hraw_put; exact Hp|exact Hp].
  - intros s1 s2 r1 r2 s1' s2' H1 H2.
    apply Hput in H1 as [-> _]. apply Hput in H2 as [-> _]. reflexivity.
  - intros s s' key Hp. apply Hput in Hp as [Hk Hp]. cbn [fst snd] in *. subst key.
    unfold BlobStoreWrapper.Get. cbn [data_of].
    exact (get_after_put S Hraw _ _ _ _ Hp).
  - intros s s' Hp. split; [apply Hraw_put; exact Hp|].
    unfold BlobStoreWrapper.Get.
    exact (get_after_put S Hraw _ _ _ _ Hp).
Qed.

End Facts.

Lemma blob_put_get_witness :
  BlobStoreWrapper.Put short_sum (list_byte_of_string "blob")
    InMemorySTore.NewInMemoryStore =
    Done ((Slice (short_sum (list_byte_of_string "blob")), None),
          {| InMemorySTore.m :=
               {[ string_of_list_byte (short_sum (list_byte_of_string "blob")) :=
                    Slice (list_byte_of_string "blob") ]} |}) /\
  exists b s'',
    BlobStoreWrapper.Get (short_sum (list_byte_of_string "blob"))
      {| InMemorySTore.m :=
           {[ string_of_list_byte (short_sum (list_byte_of_string "blob")) :=
                Slice (list_byte_of_string "blob") ]} |} = Done ((b, None), s'') /\
    data_of b = list_byte_of_string "blob".
Proof.
  apply (proj2 (proj2 (proj2
           (blob_put_get short_sum InMemorySTore_honours_contract
              (list_byte_of_string "blob"))))).
  vm_compute. reflexivity.
Defined.

(** The test "what you put is what you get", on the empty store. *)
Example blob_put_then_get :
  match BlobStoreWrapper.Put short_sum (list_byte_of_string "blob")
          InMemorySTore.NewInMemoryStore with
  | Done ((key, None), s) =>
      match BlobStoreWrapper.Get (data_of key) s with
      | Done ((b, None), _) => Some (key, b)
      | _ => None
      end
  | _ => None
  end = Some (Slice (short_sum (list_byte_of_string "blob")),
              Slice (list_byte_of_string "blob")).
Proof. vm_compute. reflexivity. Qed.

End BlobFacts.

(** ** Extended attributes (C7) *)

Module XattrFacts.
Import storage node Statements Fixtures.

Section Facts.
Context {M B : Type} {HM : VersionedStore M} {HB : BlobStore B}.

(** [sync] does not touch the attributes. *)
Lemma sync_xattrs (h : heap) (w w' : world) (errno : Z) :
  sync h w = Done (errno, w') -> xattrs (fst w') = xattrs (fst w).
Proof.
  destruct w as [n [m b]].
  unfold sync, sync_content, sync_metadata, saveMetadata, on_node, on_Metadata,
    on_Blobs. go_unfold. cbn [fst snd].
  repeat (break_match; cbn [fst snd]; try discriminate);
    intros [= <- <-]; reflexivity.
Qed.

(** Setting the attributes of the node whose map was allocated first is
    setting those of the node itself. *)
Lemma set_xattrs_allocated (x : option (gmap string bytes)) (n : CryptNode) :
  set_xattrs x
    (match xattrs n with
     | None => set_xattrs (Some ∅) n
     | Some _ => n
     end) = set_xattrs x n.
Proof. destruct n as [? ? ? ? ? ? ? ? ? ? [y|] ? ? ?]; reflexivity. Qed.

(** C7. For every node, attribute, data and stores:
    - with [XATTR_CREATE] and the attribute present, [Setxattr] returns
      [EEXIST], the stores and the attributes are as before;
    - with [XATTR_REPLACE] and the attribute absent, it returns [ENODATA],
      the stores and the attributes are as before;
    - when the flags let the operation through and the [sync] on the staged
      node returns an errno other than 0, [Setxattr] returns that errno and
      the attributes are those of the node before the call: the added
      attribute is gone, the replaced one has its previous value. *)
Theorem Setxattr_flags_and_rollback (h : heap) (n : CryptNode) (m : M) (b : B)
    (attr : string) (data : list byte) (flags : Z) :
  (flags = XATTR_CREATE -> is_Some (entries (xattrs n) !! attr) ->
   exists n', Setxattr h attr data flags (n, (m, b)) = Done (EEXIST, (n', (m, b))) /\
              entries (xattrs n') = entries (xattrs n)) /\
  (flags = XATTR_REPLACE -> entries (xattrs n) !! attr = None ->
   exists n', Setxattr h attr data flags (n, (m, b)) = Done (ENODATA, (n', (m, b))) /\
              entries (xattrs n') = entries (xattrs n)) /\
  (admitted attr flags n -> values_not_nil n ->
   forall errno n2 st',
     sync h (staged attr data n, (m, b)) = Done (errno, (n2, st')) ->
     errno <> 0 ->
     exists n',
       Setxattr h attr data flags (n, (m, b)) = Done (errno, (n', st')) /\
       n' = set_xattrs (Some (entries (xattrs n))) n2 /\
       entries (xattrs n') = entries (xattrs n)).
Proof.
  set (n0 := match xattrs n with
             | None => set_xattrs (Some ∅) n
             | Some _ => n
             end).
  assert (He0 : entries (xattrs n0) = entries (xattrs n)).
  { subst n0. destruct (xattrs n) eqn:Hx; cbn; rewrite ?Hx; reflexivity. }
  assert (Hx0 : xattrs n0 = Some (entries (xattrs n))).
  { subst n0. destruct (xattrs n) eqn:Hx; cbn; [rewrite Hx|]; reflexivity. }
  split; [|split].
  - intros -> Hsome. exists n0. split; [|exact He0].
    unfold Setxattr, on_node. go_unfold. cbn [fst snd]. fold n0. rewrite He0.
    rewrite bool_decide_eq_true_2 by exact Hsome. reflexivity.
  - intros -> Hnone. exists n0. split; [|exact He0].
    unfold Setxattr, on_node. go_unfold. cbn [fst snd]. fold n0. rewrite He0.
    rewrite bool_decide_eq_false_2
      by (rewrite Hnone; intros [x Hx]; discriminate).
    reflexivity.
  - intros [Hcreate Hreplace] Hvalues errno n2 st' Hsync Herrno.
    pose proof (sync_xattrs h _ _ _ Hsync) as Hx2. cbn [fst] in Hx2.
    exists (set_xattrs (Some (entries (xattrs n))) n2).
    split; [|split; reflexivity].
    unfold Setxattr, on_node. go_unfold. cbn [fst snd]. fold n0. rewrite He0.
    assert (Hpass1 : (flags =? XATTR_CREATE) &&
              bool_decide (is_Some (entries (xattrs n) !! attr)) = false).
    { destruct (Z.eqb_spec flags XATTR_CREATE) as [Heq|Hne]; [|reflexivity].
      rewrite (Hcreate Heq). cbn [andb].
      apply bool_decide_eq_false_2. intros [x Hx]; discriminate. }
    assert (Hpass2 : (flags =? XATTR_REPLACE) && negb (flags =? XATTR_CREATE) &&
              negb (bool_decide (is_Some (entries (xattrs n) !! attr))) = false).
    { destruct (Z.eqb_spec flags XATTR_REPLACE) as [Heq|Hne]; [|reflexivity].
      rewrite bool_decide_eq_true_2 by exact (Hreplace Heq).
      cbn [negb]. apply andb_false_r. }
    rewrite Hpass1, Hpass2.
    unfold assign. cbn [fst snd]. rewrite Hx0. cbn [app fst snd].
    unfold n0 at 1. rewrite set_xattrs_allocated.
    fold (staged attr data n). rewrite Hsync. cbn [fst snd].
    destruct (Z.eqb_spec errno 0) as [Heq|_]; [contradiction|]. cbn [negb].
    assert (Hx2' : xattrs n2 = Some (<[attr:=Slice data]> (entries (xattrs n))))
      by (rewrite Hx2; reflexivity).
    unfold index. cbn [entries].
    destruct (entries (xattrs n) !! attr) as [v|] eqn:Hl.
    + rewrite (Hvalues attr v Hl). cbn [negb fst snd]. rewrite Hx2'.
      cbn [fst snd]. rewrite insert_insert_eq, insert_id by exact Hl.
      reflexivity.
    + cbn [is_nil negb fst snd]. rewrite Hx2'.
      cbn [fmap option_fmap option_map].
      rewrite delete_insert_eq, delete_id by exact Hl. reflexivity.
Qed.

(** What [Getxattr] reports depends on the node through its attributes
    only: two nodes with the same attributes give the same answers. *)
Lemma Getxattr_by_entries (attr : string) (dest : Z) (n n' : CryptNode)
    (st st' : M * B) :
  entries (xattrs n') = entries (xattrs n) ->
  exists r, Getxattr attr dest (n, st) = Done (r, (n, st)) /\
            Getxattr attr dest (n', st') = Done (r, (n', st')).
Proof.
  intros He.
  assert (Hget : forall (x : CryptNode) (t : M * B),
            Getxattr attr dest (x, t) =
              Done (match entries (xattrs x) !! attr with
                    | None => (0, [], ENODATA)
                    | Some value =>
                        if len (data_of value) >? dest
                        then (uint32 (len (data_of value)), [], ERANGE)
                        else (uint32 (len (data_of value)), data_of value, 0)
                    end, (x, t))).
  { intros x t. unfold Getxattr, on_node. go_unfold. cbn [fst snd].
    destruct (xattrs x) as [m0|]; cbn [entries].
    - destruct (m0 !! attr) as [value|]; [|reflexivity].
      destruct (len (data_of value) >? dest); reflexivity.
    - rewrite lookup_empty. reflexivity. }
  eexists. split; [apply Hget|]. rewrite Hget, He. reflexivity.
Qed.

(** [Setxattr] keeps the values of the attributes non-nil. *)
Lemma Setxattr_values_not_nil (h : heap) (w w' : world) (attr : string)
    (data : list byte) (flags errno : Z) :
  values_not_nil (fst w) ->
  Setxattr h attr data flags w = Done (errno, w') ->
  values_not_nil (fst w').
Proof.
  destruct w as [n [m b]]. cbn [fst]. intros Hvalues.
  set (n0 := match xattrs n with
             | None => set_xattrs (Some ∅) n
             | Some _ => n
             end).
  assert (He0 : entries (xattrs n0) = entries (xattrs n)).
  { subst n0. destruct (xattrs n) eqn:Hx; cbn; rewrite ?Hx; reflexivity. }
  assert (Hx0 : xattrs n0 = Some (entries (xattrs n))).
  { subst n0. destruct (xattrs n) eqn:Hx; cbn; [rewrite Hx|]; reflexivity. }
  assert (Hv0 : values_not_nil n0).
  { intros k v. rewrite He0. apply Hvalues. }
  unfold Setxattr, on_node. go_unfold. cbn [fst snd]. fold n0.
  destruct ((flags =? XATTR_CREATE) && _); [intros [= <- <-]; exact Hv0|].
  destruct ((flags =? XATTR_REPLACE) && _ && _); [intros [= <- <-]; exact Hv0|].
  unfold assign. cbn [fst snd]. rewrite Hx0. cbn [app fst snd].
  unfold n0 at 1. rewrite set_xattrs_allocated. fold (staged attr data n).
  destruct (sync h (staged attr data n, (m, b))) as [[e [n2 st2]]|r] eqn:Hsync;
    [|discriminate].
  pose proof (sync_xattrs h _ _ _ Hsync) as Hx2. cbn [fst] in Hx2.
  assert (Hx2' : xattrs n2 = Some (<[attr:=Slice data]> (entries (xattrs n))))
    by (rewrite Hx2; reflexivity).
  destruct (Z.eqb_spec e 0) as [Heq|Hne]; cbn [negb fst snd].
  - intros [= <- <-]. cbn [fst]. intros k v. rewrite Hx2'. cbn [entries].
    destruct (decide (attr = k)) as [->|Hk].
    + rewrite lookup_insert_eq. intros [= <-]. reflexivity.
    + rewrite lookup_insert_ne by exact Hk. apply Hvalues.
  - unfold index. cbn [entries].
    destruct (entries (xattrs n) !! attr) as [v|] eqn:Hl.
    + rewrite (Hvalues attr v Hl). cbn [negb fst snd]. rewrite Hx2'.
      cbn [fst snd]. rewrite insert_insert_eq, insert_id by exact Hl.
      intros [= <- <-]. exact Hvalues.
    + cbn [is_nil negb fst snd]. rewrite Hx2'.
      cbn [fmap option_fmap option_map].
      rewrite delete_insert_eq, delete_id by exact Hl.
      intros [= <- <-]. exact Hvalues.
Qed.

End Facts.

Lemma tagged_values_not_nil : values_not_nil tagged.
Proof.
  intros k v. cbn. intros Hl.
  apply lookup_singleton_Some in Hl as [_ <-]. reflexivity.
Qed.

Lemma Setxattr_flags_and_rollback_witness :
  (exists n', Setxattr (HM := fakeVersionedStore_VersionedStore)
                (HB := memory_blobs) ∅ "key"
                (list_byte_of_string "value") XATTR_CREATE
                (tagged, (ko, InMemorySTore.NewInMemoryStore)) =
                Done (EEXIST, (n', (ko, InMemorySTore.NewInMemoryStore))) /\
              entries (xattrs n') = entries (xattrs tagged)) /\
  (exists n', Setxattr (HM := fakeVersionedStore_VersionedStore)
                (HB := memory_blobs) ∅ "key"
                (list_byte_of_string "value") XATTR_REPLACE
                (zero_CryptNode, (ko, InMemorySTore.NewInMemoryStore)) =
                Done (ENODATA, (n', (ko, InMemorySTore.NewInMemoryStore))) /\
              entries (xattrs n') = entries (xattrs zero_CryptNode)) /\
  (exists n' st', Setxattr (HM := fakeVersionedStore_VersionedStore)
                (HB := memory_blobs) ∅ "key"
                (list_byte_of_string "value") 0
                (tagged, (ko, InMemorySTore.NewInMemoryStore)) =
                Done (EIO, (n', st')) /\
              entries (xattrs n') = entries (xattrs tagged)) /\
  (exists n' st', Setxattr (HM := fakeVersionedStore_VersionedStore)
                (HB := memory_blobs) ∅ "key"
                (list_byte_of_string "value") 0
                (zero_CryptNode, (ko, InMemorySTore.NewInMemoryStore)) =
                Done (EIO, (n', st')) /\
              entries (xattrs n') = entries (xattrs zero_CryptNode)).
Proof.
  split; [|split; [|split]].
  - apply (proj1 (Setxattr_flags_and_rollback (HM := fakeVersionedStore_VersionedStore)
             (HB := memory_blobs) ∅ tagged ko
             InMemorySTore.NewInMemoryStore "key" (list_byte_of_string "value")
             XATTR_CREATE)).
    + reflexivity.
    + eexists. vm_compute. reflexivity.
  - apply (proj1 (proj2 (Setxattr_flags_and_rollback
             (HM := fakeVersionedStore_VersionedStore)
             (HB := memory_blobs) ∅ zero_CryptNode ko
             InMemorySTore.NewInMemoryStore "key" (list_byte_of_string "value")
             XATTR_REPLACE))).
    + reflexivity.
    + reflexivity.
  - edestruct (proj2 (proj2 (Setxattr_flags_and_rollback
             (HM := fakeVersionedStore_VersionedStore)
             (HB := memory_blobs) ∅ tagged ko
             InMemorySTore.NewInMemoryStore "key" (list_byte_of_string "value") 0)))
      as (n' & Hset & _ & Hent).
    + split; discriminate.
    + exact tagged_values_not_nil.
    + vm_compute. reflexivity.
    + discriminate.
    + eexists _, _. split; [exact Hset | exact Hent].
  - edestruct (proj2 (proj2 (Setxattr_flags_and_rollback
             (HM := fakeVersionedStore_VersionedStore)
             (HB := memory_blobs) ∅ zero_CryptNode ko
             InMemorySTore.NewInMemoryStore "key" (list_byte_of_string "value") 0)))
      as (n' & Hset & _ & Hent).
    + split; discriminate.
    + intros k v. cbn. rewrite lookup_empty. discriminate.
    + vm_compute. reflexivity.
    + discriminate.
    + eexists _, _. split; [exact Hset | exact Hent].
Defined.

(** The two rollback tests of the package: an addition and an update that
    are undone when the store fails. *)
Example Setxattr_rolls_back_additions :
  match Setxattr (HM := fakeVersionedStore_VersionedStore)
          (HB := memory_blobs) ∅ "key" (list_byte_of_string "value") 0
          (zero_CryptNode, (ko, InMemorySTore.NewInMemoryStore)) with
  | Done (errno, (n', _)) => Some (errno, map_to_list (entries (xattrs n')))
  | Panic _ => None
  end = Some (EIO, []).
Proof. vm_compute. reflexivity. Qed.

Example Setxattr_rolls_back_updates :
  match Setxattr (HM := fakeVersionedStore_VersionedStore)
          (HB := memory_blobs) ∅ "key" (list_byte_of_string "value") 0
          (tagged, (ko, InMemorySTore.NewInMemoryStore)) with
  | Done (errno, (n', _)) => Some (errno, map_to_list (entries (xattrs n')))
  | Panic _ => None
  end = Some (EIO, [("key", Slice (list_byte_of_string "old value"))]).
Proof. vm_compute. reflexivity. Qed.

End XattrFacts.

(** ** Applying ERROR and AUTH messages (C8) *)

Module ApplyFacts.
Import storage message.

Section Facts.
Context {S : Type} {HV : VersionedStore S}.

(** The reply to a message of kind ERROR or AUTH, whatever the store: an
    ERROR message with the tag of the request whose text holds the kind
    under the verb [%s]. The store is not touched. *)
Lemma ApplyMessage_error_or_auth (in_ : Message) (s : S) :
  kind in_ = KindError \/ kind in_ = KindAuth ->
  ApplyMessage in_ s =
    Done (NewErrorMessage (tag in_)
            (fmt.Sprintf "messages of kind %s cannot be applied"
               [fmt.ArgKind (kind in_)]), s).
Proof.
  intros Hk. unfold ApplyMessage, Message.Kind, Message.Tag.
  destruct Hk as [-> | ->]; reflexivity.
Qed.

(** C8, on the code: for every tag, text and store, the reply to an ERROR
    message reads "messages of kind %!s(message.Kind=2) cannot be applied"
    and the reply to an AUTH message the same with 3. [Kind] has the method
    [STring], not [String], so [%s] does not find a name to print; the
    texts built from that method, with "ERROR" and "AUTH", differ from the
    replies. *)
Theorem ApplyMessage_reply_prints_bad_verb (s : S) (tag : Z) (text : string) :
  ApplyMessage (NewErrorMessage tag text) s =
    Done (NewErrorMessage tag
            "messages of kind %!s(message.Kind=2) cannot be applied", s) /\
  ApplyMessage (NewAuthMessage tag text) s =
    Done (NewErrorMessage tag
            "messages of kind %!s(message.Kind=3) cannot be applied", s) /\
  "messages of kind %!s(message.Kind=2) cannot be applied" <>
    "messages of kind " +:+ STring KindError +:+ " cannot be applied" /\
  "messages of kind %!s(message.Kind=3) cannot be applied" <>
    "messages of kind " +:+ STring KindAuth +:+ " cannot be applied".
Proof.
  split; [|split; [|split]].
  - rewrite ApplyMessage_error_or_auth by (left; reflexivity). reflexivity.
  - rewrite ApplyMessage_error_or_auth by (right; reflexivity). reflexivity.
  - vm_compute. discriminate.
  - vm_compute. discriminate.
Qed.

End Facts.

(** The request of the server test, on an empty in-memory versioned
    store. *)
Example ApplyMessage_test_error :
  value <$> (fst <$>
    match ApplyMessage (NewErrorMessage 431 "test error")
            InMemorySTore.NewInMemoryStore with
    | Done r => Some r
    | Panic _ => None
    end) = Some "messages of kind %!s(message.Kind=2) cannot be applied".
Proof. reflexivity. Qed.

End ApplyFacts.

(** ** Listening with a password (C9) *)

Module ListenFacts.
Import server Fixtures.

Section Facts.
Context {N Cert Ln : Type} {HN : Net N Cert Ln}.

(** An error that comes from the network library is not the sentinel. *)
Lemma library_error_not_sentinel (text : string) :
  library_error text <> ErrPasswordWithoutTLS.
Proof. discriminate. Qed.

(** C9. A server with a non-empty auth hash and no key pair: [Listen]
    returns [ErrPasswordWithoutTLS] with the server and the sockets of the
    host as they were, so no listener is bound. A server with a key pair:
    whatever [Listen] returns, the error is not [ErrPasswordWithoutTLS],
    whatever the auth hash. *)
Theorem Listen_password_needs_tls (s : Server) (n : N) :
  (tls (opts s) = false -> authHash (opts s) <> EmptyString ->
   Listen (s, n) = Done ((EmptyString, Some ErrPasswordWithoutTLS), (s, n))) /\
  (tls (opts s) = true ->
   forall r st, Listen (s, n) = Done (r, st) -> snd r <> Some ErrPasswordWithoutTLS).
Proof.
  split.
  - intros Htls Hauth. unfold Listen. go_unfold. cbn [fst snd]. rewrite Htls.
    destruct (String.eqb_spec (authHash (opts s)) EmptyString) as [Heq|Hne];
      [contradiction|].
    cbn [negb]. destruct s; reflexivity.
  - intros Htls r st. unfold Listen. go_unfold. cbn [fst snd]. rewrite Htls.
    match goal with
    | |- context [tls_LoadX509KeyPair ?a ?b ?c] =>
        destruct (tls_LoadX509KeyPair a b c) as [[[c0 [e|]] n1]|reason]
    end; cbn [fst snd]; try discriminate.
    + intros [= <- <-]. cbn [snd]. discriminate.
    + match goal with
      | |- context [tls_Listen ?a ?b ?c ?d] =>
          destruct (tls_Listen a b c d) as [[[l [e|]] n2]|reason]
      end; cbn [fst snd fmap option_fmap option_map]; try discriminate.
      * intros [= <- <-]. cbn [snd]. discriminate.
      * unfold set_ln; cbn [ln]. destruct l as [l|]; [|discriminate].
        intros [= <- <-]. cbn [snd]. discriminate.
Qed.

End Facts.

(** The server of the test "should not allow a password to be transmitted
    in cleartext", and the same server with a key pair. *)
Lemma Listen_password_needs_tls_witness :
  Listen (HN := host_Net) (New [WithAuthHash "anything"], ([] : host)) =
    Done ((EmptyString, Some ErrPasswordWithoutTLS),
          (New [WithAuthHash "anything"], [])) /\
  (forall r st,
     Listen (HN := host_Net) (New [WithAuthHash "anything"; WithKeyPair "cert.pem" "key.pem"],
             ([] : host)) = Done (r, st) ->
     snd r <> Some ErrPasswordWithoutTLS).
Proof.
  split.
  - apply (proj1 (Listen_password_needs_tls (HN := host_Net) (New [WithAuthHash "anything"]) [])).
    + reflexivity.
    + discriminate.
  - apply (proj2 (Listen_password_needs_tls (HN := host_Net)
                    (New [WithAuthHash "anything"; WithKeyPair "cert.pem" "key.pem"]) [])).
    reflexivity.
Defined.

(** With the key pair the listener is bound and no error is returned. *)
Example Listen_with_key_pair :
  Listen (HN := host_Net) (New [WithBind "localhost:0"; WithAuthHash "anything";
               WithKeyPair "cert.pem" "key.pem"], ([] : host)) =
    Done (("localhost:0", None),
          (set_ln (Some "localhost:0")
             (New [WithBind "localhost:0"; WithAuthHash "anything";
                   WithKeyPair "cert.pem" "key.pem"]),
           ["localhost:0"])).
Proof. reflexivity. Qed.

End ListenFacts.

(** ** The on-disk store (C10) *)

Module DiskFacts.
Import storage.

Lemma length_padding (n : nat) (c : ascii) : String.length (fmt.padding n c) = n.
Proof. induction n as [|n IH]; simpl; [reflexivity|]. rewrite IH. reflexivity. Qed.

Lemma length_string_app (a b : string) :
  String.length (a +:+ b) = (String.length a + String.length b)%nat.
Proof.
  induction a as [|c a IH]; [reflexivity|].
  change (S (String.length (a +:+ b)) = S (String.length a + String.length b)).
  rewrite IH. reflexivity.
Qed.

Lemma string_app_assoc (a b c : string) : a +:+ (b +:+ c) = (a +:+ b) +:+ c.
Proof.
  induction a as [|x a IH]; [reflexivity|].
  change (String x (a +:+ (b +:+ c)) = String x ((a +:+ b) +:+ c)).
  rewrite IH. reflexivity.
Qed.

Lemma length_pad (d : fmt.directive) (s : string) (w : nat) :
  fmt.wid d = Some w -> (w <= String.length (fmt.pad d s))%nat.
Proof.
  intros Hw. unfold fmt.pad. rewrite Hw.
  rewrite length_string_app, length_padding. lia.
Qed.

Section Facts.
Context {FS : Type} {HOS : OS FS}.

(** The path of a key is always defined: [%02x] yields two characters at
    least. *)
Lemma pathFor_total (s : DiskStore.DiskStore) (key : list byte) :
  exists p, DiskStore.pathFor s key = Done p.
Proof.
  unfold DiskStore.pathFor.
  rewrite bool_decide_eq_true_2; [eauto|].
  change (fmt.Sprintf "%02x" [fmt.ArgBytes key])
    with (EmptyString +:+ fmt.pad {| fmt.zero := true; fmt.wid := Some 2%nat; fmt.prec := None |}
            (fmt.hex_of_bytes (fmt.truncate {| fmt.zero := true; fmt.wid := Some 2%nat; fmt.prec := None |} key))).
  cbn [String.append]. apply length_pad. reflexivity.
Qed.

(** C10. For every store, key, value and file system, with every call to
    the operating system recorded: [Put] makes one call, the first
    [WriteFile]; when that call fails [Put] returns nil, when it succeeds
    [Put] returns the error "could not write ...". [MkdirAll] and the second
    [WriteFile] are never called. *)
Theorem Put_inverts_error_reporting (s : DiskStore.DiskStore)
    (key value : list byte) (fs : FS) (calls : list os_call) :
  exists p, DiskStore.pathFor s key = Done p /\
    match os_WriteFile p value 384 fs with
    | Done (Some failure, fs') =>
        DiskStore.Put (HOS := traced) s key value (fs, calls) =
          Done (None, (fs', calls ++ [CallWriteFile p value 384]))
    | Done (None, fs') =>
        DiskStore.Put (HOS := traced) s key value (fs, calls) =
          Done (Some (fmt.Errorf "could not write %q: %w"
                        [fmt.ArgString p; fmt.ArgError None]),
                (fs', calls ++ [CallWriteFile p value 384]))
    | Panic r =>
        DiskStore.Put (HOS := traced) s key value (fs, calls) = Panic r
    end.
Proof.
  destruct (pathFor_total s key) as [p Hp].
  exists p. split; [exact Hp|].
  unfold DiskStore.Put.
  change (DiskStore.pathFor (HOS := traced) s key) with (DiskStore.pathFor s key).
  rewrite Hp. go_unfold. cbn [traced os_WriteFile fst snd].
  go_unfold. cbn [fst snd].
  destruct (os_WriteFile p value 384 fs) as [[[failure|] fs']|r]; reflexivity.
Qed.

(** The text of the error that [Put] returns after a successful write. *)
Lemma could_not_write_text (p : string) :
  Error (fmt.Errorf "could not write %q: %w" [fmt.ArgString p; fmt.ArgError None])
  = "could not write " +:+ fmt.quote (list_byte_of_string p) +:+ ": %!w(<nil>)".
Proof.
  cbv -[fmt.quote list_byte_of_string String.append].
  rewrite <- !string_app_assoc. reflexivity.
Qed.

End Facts.
End DiskFacts.

(** ** The in-memory store *)

Module MemoryFacts.
Import storage.

Lemma string_of_list_byte_inj (a b : list byte) :
  string_of_list_byte a = string_of_list_byte b -> a = b.
Proof.
  intros H. rewrite <- (list_byte_of_string_of_list_byte a), H.
  apply list_byte_of_string_of_list_byte.
Qed.

Lemma not_found_error (key : list byte) :
  fmt.Errorf "%.40q: %w" [fmt.ArgBytes key; fmt.ArgError (Some ErrNotFound)] =
    fmt_wrapError (fmt.quote (take 40 key) +:+ ": Not found") ErrNotFound.
Proof.
  cbv -[fmt.quote take String.append].
  rewrite <- !DiskFacts.string_app_assoc. reflexivity.
Qed.

Lemma Put_memory (key value : list byte) (s : InMemorySTore.InMemorySTore) :
  InMemorySTore.Put key value s =
    Done (None, {| InMemorySTore.m :=
                     <[string_of_list_byte key := Slice value]> (InMemorySTore.m s) |}).
Proof. unfold InMemorySTore.Put. rewrite dup_eq. reflexivity. Qed.

(** X1. A put into the in-memory store never fails; a get of the key then
    returns the value that was put, as a slice that is not nil; and a get
    of any other key returns what it returned before the put. *)
Theorem memory_put_then_get (s : InMemorySTore.InMemorySTore) (key value : list byte) :
  exists s',
    InMemorySTore.Put key value s = Done (None, s') /\
    InMemorySTore.Get key s' = Done ((Slice value, None), s') /\
    (forall key', key' <> key ->
       InMemorySTore.Get key' s' =
         match InMemorySTore.Get key' s with
         | Done (r, _) => Done (r, s')
         | Panic t => Panic t
         end).
Proof.
  eexists. split; [apply Put_memory|]. split.
  - unfold InMemorySTore.Get. cbn [InMemorySTore.m].
    rewrite lookup_insert_eq. reflexivity.
  - intros key' Hne. unfold InMemorySTore.Get. cbn [InMemorySTore.m].
    rewrite lookup_insert_ne
      by (intros Heq; apply Hne; symmetry; apply string_of_list_byte_inj; exact Heq).
    destruct (InMemorySTore.m s !! string_of_list_byte key'); reflexivity.
Qed.

(** X2. A get from the in-memory store leaves the store as it is. For a
    key that the store does not hold it returns the nil slice and an error
    that wraps [ErrNotFound]; for a key that it holds it returns the bytes
    held, never a nil slice, and no error. *)
Theorem memory_get (s : InMemorySTore.InMemorySTore) (key : list byte) :
  (InMemorySTore.m s !! string_of_list_byte key = None ->
   exists e, InMemorySTore.Get key s = Done ((Nil, Some e), s) /\
             errors_Is (Some e) ErrNotFound = true) /\
  (forall v, InMemorySTore.m s !! string_of_list_byte key = Some v ->
   InMemorySTore.Get key s = Done ((Slice (data_of v), None), s)).
Proof.
  split.
  - intros Hnone. unfold InMemorySTore.Get. rewrite Hnone, not_found_error.
    eexists. split; [reflexivity|]. reflexivity.
  - intros v Hv. unfold InMemorySTore.Get. rewrite Hv.
    destruct v; reflexivity.
Qed.

Lemma memory_get_witness :
  (exists e, InMemorySTore.Get (list_byte_of_string "other") Fixtures.slow0 =
               Done ((Nil, Some e), Fixtures.slow0) /\
             errors_Is (Some e) ErrNotFound = true) /\
  InMemorySTore.Get Fixtures.k1 Fixtures.slow0 =
    Done ((Slice Fixtures.v1, None), Fixtures.slow0).
Proof.
  split.
  - apply (proj1 (memory_get Fixtures.slow0 (list_byte_of_string "other"))).
    reflexivity.
  - apply (proj2 (memory_get Fixtures.slow0 Fixtures.k1) (Slice Fixtures.v1)).
    reflexivity.
Defined.

End MemoryFacts.

(** ** The versioned wrapper: what is put is what is got *)

Module WrapperFacts.
Import storage Statements Conditions Fixtures.

Lemma versioned_value (version : Z) (value : list byte) :
  take 8 (be_bytes 8 version ++ drop 8 (make (8 + len value))) ++
    copy (drop 8 (be_bytes 8 version ++ drop 8 (make (8 + len value)))) value
  = be_bytes 8 version ++ value.
Proof.
  assert (Hl : length (be_bytes 8 version) = 8%nat) by reflexivity.
  rewrite take_app_length' by exact Hl.
  rewrite drop_app_length' by exact Hl.
  f_equal. unfold make, copy, len.
  rewrite drop_replicate, length_replicate.
  rewrite drop_replicate.
  replace (Z.to_nat (8 + Z.of_nat (length value)) - 8 - length value)%nat with 0%nat by lia.
  rewrite app_nil_r.
  apply take_ge. lia.
Qed.

Lemma be_value_bound (l : list byte) (acc : Z) :
  0 <= acc ->
  0 <= be_value acc l < (acc + 1) * 256 ^ Z.of_nat (length l).
Proof.
  revert acc. induction l as [|b l IH]; intros acc Hacc.
  - cbn. lia.
  - cbn [be_value length].
    assert (Hb : 0 <= Z_of_byte b < 256).
    { unfold Z_of_byte. pose proof (Byte.to_N_bounded b) as Hlt.
      lia. }
    specialize (IH (acc * 256 + Z_of_byte b) ltac:(lia)).
    rewrite Nat2Z.inj_succ, Z.pow_succ_r by lia.
    assert (Hp : 0 < 256 ^ Z.of_nat (length l)) by (apply Z.pow_pos_nonneg; lia).
    nia.
Qed.

Lemma stored_version_bound (value : list byte) : 0 <= stored_version value < 2 ^ 64.
Proof.
  unfold stored_version.
  pose proof (be_value_bound (take 8 value) 0 ltac:(lia)) as H.
  assert (Hlen : (length (take 8 value) <= 8)%nat) by (rewrite length_take; lia).
  assert (Hpow : 256 ^ Z.of_nat (length (take 8 value)) <= 256 ^ 8)
    by (apply Z.pow_le_mono_r; lia).
  change (256 ^ 8) with (2 ^ 64) in Hpow. lia.
Qed.

Section Facts.
Context {S : Type} {HS : Store S}.

(** A put of the wrapper that succeeds ends in a put of the raw store, of
    the version followed by the value. *)
Lemma Put_ends_in_raw_put (version : Z) (key value : list byte) (s s' : S) :
  VersionedWrapper.Put version key value s = Done (None, s') ->
  exists s1, Store.Put key (be_bytes 8 version ++ value) s1 = Done (None, s').
Proof.
  unfold VersionedWrapper.Put. rewrite versioned_value. go_unfold.
  destruct (Store.Get key s) as [[[curr err] s1]|r]; [|discriminate].
  cbn [fst snd].
  destruct (bool_decide (err <> None) && negb (errors_Is err ErrNotFound)) eqn:Herr.
  - intros [= -> ->]. discriminate.
  - destruct curr as [|c].
    + intros H. exists s1. exact H.
    + destruct (slice_range c 0 8) as [head|r]; [|discriminate].
      destruct (version <? uint64 (be_value 0 head + 1)); [discriminate|].
      intros H. exists s1. exact H.
Qed.

(** X3. Over every raw store that honours the put/get contract: after a
    put of the versioned wrapper that succeeded, with a 64-bit version, a
    get of the same key returns that version and that value, and no
    error. *)
Theorem versioned_put_then_get (Hraw : honours_contract S)
    (version : Z) (key value : list byte) (s s' : S) :
  is_uint64 version ->
  VersionedWrapper.Put version key value s = Done (None, s') ->
  exists b s'',
    VersionedWrapper.Get key s' = Done ((version, b, None), s'') /\
    data_of b = value.
Proof.
  intros Hv Hput.
  destruct (Put_ends_in_raw_put _ _ _ _ _ Hput) as (s1 & Hraw_put).
  destruct (get_after_put S Hraw _ _ _ _ Hraw_put) as (b & s'' & Hget & Hb).
  exists (Slice value), s''. split; [|reflexivity].
  unfold VersionedWrapper.Get. go_unfold. rewrite Hget. cbn [fst snd]. rewrite Hb.
  unfold slice_to, slice_from.
  assert (Hlen : len (be_bytes 8 version ++ value) = 8 + len value)
    by (rewrite len_app, len_be_bytes; lia).
  pose proof (len_nonneg value).
  rewrite !bool_decide_eq_true_2 by (rewrite Hlen; lia).
  change (Z.to_nat 8) with 8%nat.
  rewrite take_app_length', drop_app_length' by reflexivity.
  rewrite be_value_be_bytes_small by exact Hv.
  reflexivity.
Qed.

End Facts.

Lemma versioned_put_then_get_witness :
  exists b s'',
    VersionedWrapper.Get k1 at1 = Done ((1, b, None), s'') /\
    data_of b = list_byte_of_string "a".
Proof.
  apply (versioned_put_then_get BlobFacts.InMemorySTore_honours_contract
           1 k1 (list_byte_of_string "a") empty_store at1).
  - unfold is_uint64. lia.
  - vm_compute. reflexivity.
Defined.

Lemma well_versioned_insert (s : InMemorySTore.InMemorySTore) (k : string)
    (version : Z) (value : list byte) :
  well_versioned s ->
  well_versioned {| InMemorySTore.m :=
    <[k := Slice (be_bytes 8 version ++ value)]> (InMemorySTore.m s) |}.
Proof.
  intros Hwf k' c. cbn [InMemorySTore.m].
  destruct (decide (k = k')) as [<-|Hne].
  - rewrite lookup_insert_eq. intros [= <-]. cbn [data_of].
    unfold len. cbn [length]. lia.
  - rewrite lookup_insert_ne by exact Hne. apply Hwf.
Qed.

(** X4. The versioned wrapper over the in-memory store, on a store whose
    values all carry a version: a put returns nil or [ErrStalePut]; a stale
    put leaves the store as it is and its version is not above the stored
    one; a put that succeeds over a stored version below 2^64-1 carries a
    greater version; and the values of the store still carry a version. *)
Theorem versioned_put_keeps_versions_growing
    (s s' : InMemorySTore.InMemorySTore) (version : Z) (key value : list byte)
    (r : option error) :
  well_versioned s ->
  VersionedWrapper.Put version key value s = Done (r, s') ->
  well_versioned s' /\
  match r with
  | Some e =>
      e = ErrStalePut /\ s' = s /\
      exists c, InMemorySTore.m s !! string_of_list_byte key = Some c /\
                version <= stored_version (data_of c)
  | None =>
      forall c, InMemorySTore.m s !! string_of_list_byte key = Some c ->
                stored_version (data_of c) < 2 ^ 64 - 1 ->
                stored_version (data_of c) < version
  end.
Proof.
  intros Hwf.
  rewrite (VersionedFacts.Put_in_memory version key value s)
    by (intros c Hc; exact (Hwf _ _ Hc)).
  destruct (InMemorySTore.m s !! string_of_list_byte key) as [c|] eqn:Hc.
  - pose proof (stored_version_bound (data_of c)) as Hb.
    destruct (version <? uint64 (stored_version (data_of c) + 1)) eqn:Hlt.
    + intros [= <- <-]. split; [exact Hwf|].
      split; [reflexivity|]. split; [reflexivity|]. exists c. split; [reflexivity|].
      apply Z.ltb_lt in Hlt. unfold uint64 in Hlt.
      pose proof (Z.mod_le (stored_version (data_of c) + 1) (2 ^ 64)
                    ltac:(lia) ltac:(lia)).
      lia.
    + intros [= <- <-]. split; [apply well_versioned_insert; exact Hwf|].
      intros c' [= <-] Hmax.
      apply Z.ltb_ge in Hlt. unfold uint64 in Hlt.
      rewrite Z.mod_small in Hlt by lia. lia.
  - intros [= <- <-]. split; [apply well_versioned_insert; exact Hwf|].
    intros c [=].
Qed.

(** A get of the wrapper over the in-memory store, for a key whose entry is
    a version followed by a value. *)
Lemma Get_versioned_entry (s : InMemorySTore.InMemorySTore) (key value : list byte)
    (version : Z) :
  InMemorySTore.m s !! string_of_list_byte key =
    Some (Slice (be_bytes 8 version ++ value)) ->
  is_uint64 version ->
  VersionedWrapper.Get key s = Done ((version, Slice value, None), s).
Proof.
  intros Hc Hv.
  unfold VersionedWrapper.Get. cbn [Store.Get InMemorySTore_Store].
  unfold InMemorySTore.Get. go_unfold. rewrite Hc. cbn [is_nil fst snd data_of].
  unfold slice_to, slice_from.
  assert (Hlen : len (be_bytes 8 version ++ value) = 8 + len value)
    by (rewrite len_app, len_be_bytes; lia).
  pose proof (len_nonneg value).
  rewrite !bool_decide_eq_true_2 by (rewrite Hlen; lia).
  change (Z.to_nat 8) with 8%nat.
  rewrite take_app_length', drop_app_length' by reflexivity.
  rewrite be_value_be_bytes_small by exact Hv.
  reflexivity.
Qed.

Lemma at1_well_versioned : well_versioned at1.
Proof.
  intros k c. unfold at1. cbn [InMemorySTore.m].
  intros [_ <-]%lookup_singleton_Some. vm_compute. discriminate.
Qed.

Lemma versioned_put_keeps_versions_growing_witness :
  well_versioned at5 /\
  stored_version (be_bytes 8 1 ++ list_byte_of_string "a") < 5.
Proof.
  destruct (versioned_put_keeps_versions_growing at1 at5 5 k1
              (list_byte_of_string "b") None at1_well_versioned)
    as [Hwf Hgrow].
  - vm_compute. reflexivity.
  - split; [exact Hwf|].
    apply (Hgrow (Slice (be_bytes 8 1 ++ list_byte_of_string "a"))).
    + reflexivity.
    + vm_compute. reflexivity.
Defined.

End WrapperFacts.

(** ** The blob store over the in-memory store *)

Module ContentFacts.
Import storage Fixtures.

Section Facts.
Variable Sum512 : list byte -> list byte.

(** X5. The blob store over the in-memory store, for two values whose
    digests differ: both puts succeed and return the digests; afterwards a
    get of either digest returns the value it was computed from, so the
    second put has not touched the first blob; and putting the first value
    once more changes nothing. *)
Theorem blob_puts_keep_other_blobs (s : InMemorySTore.InMemorySTore)
    (v1 v2 : list byte) :
  Sum512 v1 <> Sum512 v2 ->
  exists s1 s2,
    BlobStoreWrapper.Put Sum512 v1 s = Done ((Slice (Sum512 v1), None), s1) /\
    BlobStoreWrapper.Put Sum512 v2 s1 = Done ((Slice (Sum512 v2), None), s2) /\
    BlobStoreWrapper.Get (Sum512 v1) s2 = Done ((Slice v1, None), s2) /\
    BlobStoreWrapper.Get (Sum512 v2) s2 = Done ((Slice v2, None), s2) /\
    BlobStoreWrapper.Put Sum512 v1 s2 = Done ((Slice (Sum512 v1), None), s2).
Proof.
  intros Hne.
  assert (Hkeys : string_of_list_byte (Sum512 v2) <> string_of_list_byte (Sum512 v1)).
  { intros Heq. apply Hne. symmetry. apply MemoryFacts.string_of_list_byte_inj. exact Heq. }
  exists {| InMemorySTore.m :=
            <[string_of_list_byte (Sum512 v1) := Slice v1]> (InMemorySTore.m s) |}.
  exists {| InMemorySTore.m :=
            <[string_of_list_byte (Sum512 v2) := Slice v2]>
              (<[string_of_list_byte (Sum512 v1) := Slice v1]> (InMemorySTore.m s)) |}.
  unfold BlobStoreWrapper.Put, BlobStoreWrapper.Get.
  cbn [Store.Put Store.Get InMemorySTore_Store]. go_unfold.
  rewrite !MemoryFacts.Put_memory. cbn [fst snd InMemorySTore.m].
  split; [reflexivity|]. split; [reflexivity|].
  unfold InMemorySTore.Get. cbn [InMemorySTore.m].
  rewrite lookup_insert_eq.
  rewrite lookup_insert_ne by exact Hkeys.
  rewrite lookup_insert_eq.
  split; [reflexivity|]. split; [reflexivity|].
  do 3 f_equal.
  rewrite insert_insert_ne by (intros Heq; apply Hkeys; symmetry; exact Heq).
  rewrite insert_insert_eq. reflexivity.
Qed.

End Facts.

Lemma blob_puts_keep_other_blobs_witness :
  exists s1 s2,
    BlobStoreWrapper.Put short_sum (list_byte_of_string "data") empty_store =
      Done ((Slice (short_sum (list_byte_of_string "data")), None), s1) /\
    BlobStoreWrapper.Put short_sum (list_byte_of_string "blob") s1 =
      Done ((Slice (short_sum (list_byte_of_string "blob")), None), s2) /\
    BlobStoreWrapper.Get (short_sum (list_byte_of_string "data")) s2 =
      Done ((Slice (list_byte_of_string "data"), None), s2) /\
    BlobStoreWrapper.Get (short_sum (list_byte_of_string "blob")) s2 =
      Done ((Slice (list_byte_of_string "blob"), None), s2) /\
    BlobStoreWrapper.Put short_sum (list_byte_of_string "data") s2 =
      Done ((Slice (short_sum (list_byte_of_string "data")), None), s2).
Proof.
  apply (blob_puts_keep_other_blobs short_sum empty_store
           (list_byte_of_string "data") (list_byte_of_string "blob")).
  vm_compute. discriminate.
Defined.

End ContentFacts.

(** ** The on-disk store: reading, and the paths of the keys *)

Module DiskReadFacts.
Import storage.

Lemma concat_cons (x : string) (l : list string) :
  String.concat EmptyString (x :: l) = x +:+ String.concat EmptyString l.
Proof.
  destruct l as [|y l]; cbn [String.concat].
  - induction x as [|c x IH]; [reflexivity|].
    change (String c x = String c (x +:+ EmptyString)). rewrite <- IH. reflexivity.
  - reflexivity.
Qed.

Lemma length_hex_of_bytes (l : list byte) :
  String.length (fmt.hex_of_bytes l) = (2 * length l)%nat.
Proof.
  unfold fmt.hex_of_bytes. induction l as [|b l IH]; [reflexivity|].
  cbn [List.map]. rewrite concat_cons, DiskFacts.length_string_app, IH.
  cbn [fmt.hex_of_byte String.length length]. lia.
Qed.

Lemma Sprintf_02x (key : list byte) :
  fmt.Sprintf "%02x" [fmt.ArgBytes key] =
    fmt.padding (2 - String.length (fmt.hex_of_bytes key)) "0"%char +:+
      fmt.hex_of_bytes key.
Proof. reflexivity. Qed.

Section Facts.
Context {FS : Type} {HOS : OS FS}.

(** X6. The path of a key in the on-disk store: for a key of one byte or
    more, the directory, the two hexadecimal digits of the first byte, and
    the hexadecimal text of the whole key; for the empty key, where [%02x]
    pads to "00", the path of the key that is one zero byte, so that the
    two keys share a file. *)
Theorem pathFor_layout (s : DiskStore.DiskStore) (b : byte) (key : list byte) :
  DiskStore.pathFor s (b :: key) =
    Done (filepath_Join [DiskStore.dir s; fmt.hex_of_byte b;
                         fmt.hex_of_bytes (b :: key)]) /\
  DiskStore.pathFor s [] = DiskStore.pathFor s ["000"%byte].
Proof.
  split; [|reflexivity].
  unfold DiskStore.pathFor. rewrite Sprintf_02x.
  pose proof (length_hex_of_bytes (b :: key)) as Hlen. cbn [length] in Hlen.
  replace (2 - String.length (fmt.hex_of_bytes (b :: key)))%nat with 0%nat by lia.
  cbn [fmt.padding].
  change (EmptyString +:+ fmt.hex_of_bytes (b :: key))
    with (fmt.hex_of_bytes (b :: key)).
  rewrite bool_decide_eq_true_2 by lia.
  do 3 f_equal. f_equal.
  unfold fmt.hex_of_bytes. cbn [List.map]. rewrite concat_cons.
  unfold fmt.hex_of_byte.
  change (String ?a (String ?c EmptyString) +:+ ?t) with (String a (String c t)).
  cbn [substring]. destruct (String.concat _ _); reflexivity.
Qed.

(** X7. [Get] of the on-disk store, with every call to the operating
    system recorded: it makes one call, [ReadFile] of the path of the key,
    and returns the value that the call returned; when the call fails
    because the file does not exist the error wraps [ErrNotFound], every
    other failure is returned as it is and is not [ErrNotFound], and a
    success returns no error. *)
Theorem Get_reads_the_file_of_the_key (s : DiskStore.DiskStore) (key : list byte)
    (fs : FS) (calls : list os_call) :
  exists p, DiskStore.pathFor s key = Done p /\
    match os_ReadFile p fs with
    | Done ((value, failure), fs') =>
        exists err,
          DiskStore.Get (HOS := traced) s key (fs, calls) =
            Done ((value, err), (fs', calls ++ [CallReadFile p])) /\
          match failure with
          | None => err = None
          | Some text =>
              if is_not_exist text then errors_Is err ErrNotFound = true
              else err = Some (library_error text) /\
                   errors_Is err ErrNotFound = false
          end
    | Panic r => DiskStore.Get (HOS := traced) s key (fs, calls) = Panic r
    end.
Proof.
  destruct (DiskFacts.pathFor_total s key) as [p Hp].
  exists p. split; [exact Hp|].
  unfold DiskStore.Get.
  change (DiskStore.pathFor (HOS := traced) s key) with (DiskStore.pathFor s key).
  rewrite Hp. go_unfold. cbn [traced os_ReadFile fst snd].
  go_unfold. cbn [fst snd].
  destruct (os_ReadFile p fs) as [[[value [text|]] fs']|r]; [| |reflexivity].
  - cbn [DiskStore.os_IsNotExist traced is_not_exist fst snd].
    destruct (is_not_exist text) eqn:Hne.
    + eexists. split; [reflexivity|].
      cbv -[fmt.hex_of_bytes String.append]. reflexivity.
    + eexists. split; [reflexivity|]. split; reflexivity.
  - cbn [DiskStore.os_IsNotExist fst snd]. eexists. split; reflexivity.
Qed.

End Facts.
End DiskReadFacts.

(** ** Replies of the metadata server *)

Module ReplyFacts.
Import message storage Statements Conditions Fixtures.

Section Generic.
Context {S : Type} {HV : VersionedStore S}.

(** X8. Whatever the versioned store, a reply of [ApplyMessage] carries
    the tag of the request; it is an ERROR message, or a PUT message in
    answer to a GET or a PUT; and a request that is neither a GET nor a PUT
    is answered by an ERROR message without a call to the store. *)
Theorem ApplyMessage_reply_carries_tag (in_ out : Message) (s s' : S) :
  ApplyMessage in_ s = Done (out, s') ->
  tag out = tag in_ /\
  (kind out = KindError \/
   (kind out = KindPut /\ (kind in_ = KindGet \/ kind in_ = KindPut))) /\
  (kind in_ <> KindGet -> kind in_ <> KindPut -> s' = s /\ kind out = KindError).
Proof.
  unfold ApplyMessage, Message.Kind, Message.Tag, Message.Key, Message.Version,
    Message.Value.
  destruct (Z.eqb_spec (kind in_) KindGet) as [Hget|Hget].
  - rewrite Hget. cbn [Z.eqb orb KindGet KindPut]. go_unfold.
    destruct (VersionedStore.Get (list_byte_of_string (key in_)) s)
      as [[[[ver val] [e|]] s1]|r]; cbn [fst snd]; [| |discriminate].
    + intros [= <- <-]. cbn. split; [reflexivity|]. split; [left; reflexivity|].
      intros Hne. contradiction.
    + intros [= <- <-]. cbn. split; [reflexivity|].
      split; [right; split; [reflexivity|left; reflexivity]|].
      intros Hne. contradiction.
  - destruct (Z.eqb_spec (kind in_) KindPut) as [Hput|Hput].
    + rewrite Hput. cbn [Z.eqb Pos.eqb orb KindGet KindPut KindAuth KindError]. go_unfold.
      destruct (VersionedStore.Put (version in_) (list_byte_of_string (key in_))
                  (list_byte_of_string (value in_)) s)
        as [[[e|] s1]|r]; [| |discriminate].
      * intros [= <- <-]. cbn. split; [reflexivity|]. split; [left; reflexivity|].
        intros _ Hne. contradiction.
      * intros [= <- <-]. split; [reflexivity|].
        split; [right; split; [first [exact Hput|reflexivity]|right; first [exact Hput|reflexivity]]|].
        intros _ Hne. contradiction.
    + destruct ((kind in_ =? KindAuth) || (kind in_ =? KindError));
        intros [= <- <-]; cbn; (split; [reflexivity|]);
        (split; [left; reflexivity|]); intros _ _; split; reflexivity.
Qed.

End Generic.

Lemma ApplyMessage_reply_carries_tag_witness :
  tag (NewPutMessage 7 "k" "a" 1) = tag (NewGetMessage 7 "k") /\
  (kind (NewPutMessage 7 "k" "a" 1) = KindError \/
   (kind (NewPutMessage 7 "k" "a" 1) = KindPut /\
    (kind (NewGetMessage 7 "k") = KindGet \/ kind (NewGetMessage 7 "k") = KindPut))) /\
  (kind (NewGetMessage 7 "k") <> KindGet -> kind (NewGetMessage 7 "k") <> KindPut ->
   at1 = at1 /\ kind (NewPutMessage 7 "k" "a" 1) = KindError).
Proof.
  apply (ApplyMessage_reply_carries_tag (HV := VersionedWrapper_VersionedStore)
           (NewGetMessage 7 "k") (NewPutMessage 7 "k" "a" 1) at1 at1).
  vm_compute. reflexivity.
Defined.

(** X9. The metadata server over the versioned wrapper of an in-memory
    store: when a PUT request is answered by the request itself (the put
    was accepted), a GET request for the same key, under any tag, is
    answered from the resulting store by the PUT message with that tag and
    the key, value and version that were put. *)
Theorem ApplyMessage_put_then_get (s s' : InMemorySTore.InMemorySTore)
    (tag tag' version : Z) (key value : string) :
  is_uint64 version ->
  ApplyMessage (HV := VersionedWrapper_VersionedStore)
    (NewPutMessage tag key value version) s =
    Done (NewPutMessage tag key value version, s') ->
  ApplyMessage (HV := VersionedWrapper_VersionedStore) (NewGetMessage tag' key) s' =
    Done (NewPutMessage tag' key value version, s').
Proof.
  intros Hv.
  unfold ApplyMessage, Message.Kind, Message.Tag, Message.Key, Message.Version,
    Message.Value.
  cbn [kind NewPutMessage NewGetMessage KindGet KindPut KindAuth KindError Z.eqb orb Pos.eqb].
  cbn [VersionedStore.Put VersionedStore.Get VersionedWrapper_VersionedStore].
  unfold lift at 1 2 3. unfold bind at 1 2 3. cbn [message.version message.key message.value fst snd].
  unfold bind at 1.
  cbn [message.kind message.tag message.key message.value message.version
       NewPutMessage NewGetMessage].
  destruct (VersionedWrapper.Put version (list_byte_of_string key)
              (list_byte_of_string value) s) as [[[e|] s1]|r] eqn:Hput;
    unfold ret at 1; [discriminate| |discriminate].
  intros [= ->].
  destruct (WrapperFacts.Put_ends_in_raw_put _ _ _ _ _ Hput) as (s0 & Hraw).
  cbn [Store.Put InMemorySTore_Store] in Hraw.
  rewrite MemoryFacts.Put_memory in Hraw.
  assert (Hs' : InMemorySTore.m s' !! string_of_list_byte (list_byte_of_string key) =
                Some (Slice (be_bytes 8 version ++ list_byte_of_string value))).
  { injection Hraw as <-. cbn [InMemorySTore.m]. apply lookup_insert_eq. }
  go_unfold.
  rewrite (WrapperFacts.Get_versioned_entry s' _ _ _ Hs' Hv).
  cbn [fst snd data_of]. rewrite string_of_list_byte_of_string. reflexivity.
Qed.

Lemma ApplyMessage_put_then_get_witness :
  ApplyMessage (HV := VersionedWrapper_VersionedStore) (NewGetMessage 8 "k") at1 =
    Done (NewPutMessage 8 "k" "a" 1, at1).
Proof.
  apply (ApplyMessage_put_then_get empty_store at1 7 8 1 "k" "a").
  - unfold is_uint64. lia.
  - vm_compute. reflexivity.
Defined.

(** X10. The metadata server over the versioned wrapper of an in-memory
    store: a PUT request for a key that is stored with a version, whose own
    version is not above the stored one (and the stored one is below
    2^64-1), is answered by the ERROR message "stale put" under the tag of
    the request, and the store stays as it is. *)
Theorem ApplyMessage_stale_put (s : InMemorySTore.InMemorySTore)
    (tag version : Z) (key value : string) (c : bytes) :
  InMemorySTore.m s !! key = Some c ->
  8 <= len (data_of c) ->
  stored_version (data_of c) < 2 ^ 64 - 1 ->
  version <= stored_version (data_of c) ->
  ApplyMessage (HV := VersionedWrapper_VersionedStore)
    (NewPutMessage tag key value version) s =
    Done (NewErrorMessage tag "stale put", s).
Proof.
  intros Hc Hlen Hmax Hle.
  unfold ApplyMessage, Message.Kind, Message.Tag, Message.Key, Message.Version,
    Message.Value.
  cbn [kind NewPutMessage KindGet KindPut KindAuth KindError Z.eqb orb Pos.eqb].
  cbn [VersionedStore.Put VersionedWrapper_VersionedStore].
  unfold lift at 1 2 3. unfold bind at 1 2 3.
  cbn [message.version message.key message.value fst snd].
  unfold bind at 1.
  cbn [message.kind message.tag message.key message.value message.version
       NewPutMessage NewGetMessage].
  unfold VersionedWrapper.Put. cbn [Store.Get Store.Put InMemorySTore_Store].
  unfold InMemorySTore.Get. go_unfold.
  rewrite string_of_list_byte_of_string, Hc.
  destruct c as [|c]; [exfalso; revert Hlen; unfold len; cbn; lia|].
  cbn [is_nil fst snd data_of] in *.
  unfold slice_range.
  rewrite (bool_decide_eq_true_2 (0 <= 0 <= 8 /\ 8 <= len c)) by lia.
  replace (Z.to_nat (8 - 0)) with 8%nat by lia.
  replace (Z.to_nat 0) with 0%nat by lia. rewrite drop_0.
  fold (stored_version c).
  cbn [bool_decide decide_rel andb errors_Is negb].
  pose proof (WrapperFacts.stored_version_bound c) as Hb.
  assert (Hlt : (version <? uint64 (stored_version c + 1)) = true).
  { apply Z.ltb_lt. unfold uint64. rewrite Z.mod_small by lia. lia. }
  rewrite Hlt. reflexivity.
Qed.

Lemma ApplyMessage_stale_put_witness :
  ApplyMessage (HV := VersionedWrapper_VersionedStore)
    (NewPutMessage 9 "k" "b" 1) at1 =
    Done (NewErrorMessage 9 "stale put", at1).
Proof.
  apply (ApplyMessage_stale_put at1 9 1 "k" "b"
           (Slice (be_bytes 8 1 ++ list_byte_of_string "a"))).
  - reflexivity.
  - vm_compute. discriminate.
  - vm_compute. reflexivity.
  - vm_compute. discriminate.
Defined.

End ReplyFacts.

(** ** The codec: errors, streams and the text of the logs *)

Module StreamFacts.
Import message Wire Conditions Samples.

(** *** The encoder and its writer *)

Section Writers.
Context {W : Type} {HW : Writer W}.

(** [Encode] of a message of a known kind, to any writer, from any state of
    the encoder: one write, of the bytes of the message, whose result
    [Encode] turns into its own. *)
Lemma Encode_to_writer (m : Message) (e : Encoder.Encoder) (w : W) :
  known_kind (kind m) ->
  exists e',
    Encoder.Encode m (e, w) =
      match Write (wire m) w with
      | Done ((n, Some err), w') => Done (Some err, (e', w'))
      | Done ((n, None), w') =>
          if n =? len (wire m) then Done (None, (e', w'))
          else Done (Some (fmt.Errorf "wrote %d of %d bytes: %w"
                             [fmt.ArgInt n; fmt.ArgInt (len (wire m));
                              fmt.ArgError (Some ErrUnderflow)]), (e', w'))
      | Panic r => Panic r
      end.
Proof.
  intros Hk. unfold Encoder.Encode.
  set (e0 := {| Encoder.buf := Encoder.buf e; Encoder.off := 0 |}).
  rewrite (bind_done _ _ (e, w) (e0, w) tt) by reflexivity.
  assert (Hoff0 : 0 <= Encoder.off e0 <= len (Encoder.buf e0)).
  { cbn. pose proof (len_nonneg (Encoder.buf e)). lia. }
  destruct (RoundTrip.makeroom_spec 3 e0 Hoff0) as (e1 & H1 & Ho1 & Hr1 & _ & Hw1).
  rewrite (bind_done _ _ _ _ _ (on_fst_done _ _ _ w _ H1)).
  cbn [Encoder.off e0] in Ho1.
  destruct (RoundTrip.put_fixed_spec 1 (uint8 (kind m)) e1)
    as (e2 & H2 & Ho2 & Hl2 & Hw2); [lia|lia|].
  unfold Encoder.put8, bits.Put8.
  rewrite (bind_done _ _ _ _ _ (on_fst_done _ _ _ w _ H2)).
  destruct (RoundTrip.put_fixed_spec 2 (tag m) e2)
    as (e3 & H3 & Ho3 & Hl3 & Hw3); [lia|lia|].
  unfold Encoder.put16, bits.Put16.
  rewrite (bind_done _ _ _ _ _ (on_fst_done _ _ _ w _ H3)).
  destruct (RoundTrip.encode_body_spec m e3 Hk) as (e4 & H4 & Ho4 & Hw4); [lia|].
  rewrite (bind_done _ _ _ _ _ (on_fst_done _ _ _ w _ H4)).
  cbn [negb].
  rewrite (bind_done _ _ (e4, w) (e4, w) e4) by reflexivity.
  assert (Hout : slice_to (Encoder.buf e4) (Encoder.off e4) = Done (written e4)).
  { unfold slice_to. rewrite bool_decide_eq_true_2 by lia. reflexivity. }
  rewrite (bind_done _ _ (e4, w) (e4, w) (written e4))
    by (unfold lift; rewrite Hout; reflexivity).
  assert (Hwire : written e4 = wire m).
  { rewrite Hw4, Hw3, Hw2, Hw1. unfold written, e0. cbn [Encoder.off Encoder.buf].
    cbn [Z.to_nat take app]. unfold wire.
    assert (Hu : be_bytes 1 (uint8 (kind m)) = be_bytes 1 (kind m)).
    { destruct Hk as [-> | [-> | [-> | ->]]]; reflexivity. }
    rewrite Hu, <- !app_assoc. reflexivity. }
  assert (Hlen : len (wire m) = Encoder.off e4).
  { rewrite <- Hwire. unfold written, len. rewrite length_take. unfold len in Ho4. lia. }
  rewrite Hwire, Hlen.
  exists e4. unfold bind, on_snd, ret. cbn [fst snd].
  destruct (Write (wire m) w) as [[[n [err|]] w']|r]; cbn [fst snd]; try reflexivity.
  destruct (n =? Encoder.off e4); reflexivity.
Qed.

(** X11. [Encode] of a message of a known kind makes one write, of the
    bytes of the message. When the write fails, its error is what [Encode]
    returns; when it reports no error and fewer bytes than the message has,
    [Encode] returns an error that wraps [ErrUnderflow]; when it reports
    all the bytes, [Encode] returns nil. *)
Theorem Encode_reports_the_write (m : Message) (e : Encoder.Encoder) (w w' : W)
    (n : Z) (failure : option error) :
  known_kind (kind m) ->
  Write (wire m) w = Done ((n, failure), w') ->
  exists e' err,
    Encoder.Encode m (e, w) = Done (err, (e', w')) /\
    match failure with
    | Some f => err = Some f
    | None =>
        if n =? len (wire m) then err = None
        else errors_Is err ErrUnderflow = true
    end.
Proof.
  intros Hk Hwrite.
  destruct (Encode_to_writer m e w Hk) as (e' & HE).
  rewrite Hwrite in HE. exists e'.
  destruct failure as [f|].
  - exists (Some f). split; [exact HE|reflexivity].
  - destruct (n =? len (wire m)).
    + exists None. split; [exact HE|reflexivity].
    + eexists. split; [exact HE|]. reflexivity.
Qed.

(** X12. [Encode] of a message whose kind is none of the four returns
    [ErrBadMessage], whatever the state of the encoder, and writes nothing:
    the writer is as it was. *)
Theorem Encode_rejects_unknown_kinds (m : Message) (e : Encoder.Encoder) (w : W) :
  ~ known_kind (kind m) ->
  exists e', Encoder.Encode m (e, w) = Done (Some ErrBadMessage, (e', w)).
Proof.
  intros Hk. unfold Encoder.Encode.
  set (e0 := {| Encoder.buf := Encoder.buf e; Encoder.off := 0 |}).
  rewrite (bind_done _ _ (e, w) (e0, w) tt) by reflexivity.
  assert (Hoff0 : 0 <= Encoder.off e0 <= len (Encoder.buf e0)).
  { cbn. pose proof (len_nonneg (Encoder.buf e)). lia. }
  destruct (RoundTrip.makeroom_spec 3 e0 Hoff0) as (e1 & H1 & Ho1 & Hr1 & _ & Hw1).
  rewrite (bind_done _ _ _ _ _ (on_fst_done _ _ _ w _ H1)).
  cbn [Encoder.off e0] in Ho1.
  destruct (RoundTrip.put_fixed_spec 1 (uint8 (kind m)) e1)
    as (e2 & H2 & Ho2 & Hl2 & Hw2); [lia|lia|].
  unfold Encoder.put8, bits.Put8.
  rewrite (bind_done _ _ _ _ _ (on_fst_done _ _ _ w _ H2)).
  destruct (RoundTrip.put_fixed_spec 2 (tag m) e2)
    as (e3 & H3 & Ho3 & Hl3 & Hw3); [lia|lia|].
  unfold Encoder.put16, bits.Put16.
  rewrite (bind_done _ _ _ _ _ (on_fst_done _ _ _ w _ H3)).
  assert (Hbody : Encoder.encode_body m e3 = Done (false, e3)).
  { unfold Encoder.encode_body. rewrite (bind_done _ _ e3 e3 e3) by reflexivity.
    unfold known_kind in Hk.
    destruct (Z.eqb_spec (kind m) KindGet); [tauto|].
    destruct (Z.eqb_spec (kind m) KindPut); [tauto|].
    destruct (Z.eqb_spec (kind m) KindAuth); [tauto|].
    destruct (Z.eqb_spec (kind m) KindError); [tauto|].
    reflexivity. }
  rewrite (bind_done _ _ _ _ _ (on_fst_done _ _ _ w _ Hbody)).
  exists e3. reflexivity.
Qed.

End Writers.

Lemma Encode_reports_the_write_witness :
  (exists e' err,
     Encoder.Encode (HW := truncating) (NewGetMessage 42 "name") (Encoder.new, []) =
       Done (err, (e', [] ++ take 4 (wire (NewGetMessage 42 "name")))) /\
     errors_Is err ErrUnderflow = true) /\
  (exists e' err,
     Encoder.Encode (HW := broken) (NewGetMessage 42 "name") (Encoder.new, tt) =
       Done (err, (e', tt)) /\
     err = Some (library_error "broken pipe")).
Proof.
  split.
  - apply (Encode_reports_the_write (HW := truncating) (NewGetMessage 42 "name")
             Encoder.new [] _ 4 None).
    + left. reflexivity.
    + reflexivity.
  - apply (Encode_reports_the_write (HW := broken) (NewGetMessage 42 "name")
             Encoder.new tt tt 0 (Some (library_error "broken pipe"))).
    + left. reflexivity.
    + reflexivity.
Defined.

Lemma Encode_rejects_unknown_kinds_witness :
  exists e', Encoder.Encode odd (Encoder.new, ([] : Buffer.Buffer)) =
               Done (Some ErrBadMessage, (e', [])).
Proof.
  apply (Encode_rejects_unknown_kinds odd Encoder.new ([] : Buffer.Buffer)).
  unfold known_kind, odd, KindGet, KindPut, KindError, KindAuth. cbn [kind].
  intros [H|[H|[H|H]]]; discriminate H.
Defined.


(** *** A shared encoder, decoder and buffer *)

Lemma decoded_constructed_message (m : Message) :
  constructed m -> decoded zero_Message m = m.
Proof.
  intros [(t & k & ->) | [(t & k & v & ver & ->) | [(t & v & ->) | (t & v & ->)]]];
    reflexivity.
Qed.

(** X13. The round trip of the test with a shared encoder, decoder and
    buffer: for every message made by a constructor that the wire format
    can carry, from every state of the encoder and of the decoder (its
    offset not negative) and with the buffer empty, [packunpack] returns the
    message itself and the two errors nil, and leaves the buffer empty and
    the offset of the decoder not negative, ready for the next message. *)
Theorem packunpack_returns_the_message (m : Message) (e : Encoder.Encoder)
    (d : Decoder.Decoder) :
  transmissible m -> constructed m -> 0 <= Decoder.off d ->
  exists e' d',
    packunpack m (e, (d, [])) = Done ((m, (None, None)), (e', (d', []))) /\
    0 <= Decoder.off d'.
Proof.
  intros Ht Hc Hd.
  destruct (RoundTrip.Encode_spec m e [] (RoundTrip.transmissible_known m Ht))
    as (e' & HE).
  destruct (RoundTrip.Decode_spec m zero_Message d [] Ht Hd) as (d' & HD & Hd').
  exists e', d'. split; [|exact Hd'].
  unfold packunpack. cbn [fst snd]. rewrite HE. cbn [obind fst snd app].
  rewrite app_nil_r in HD. rewrite HD. cbn [obind fst snd].
  rewrite (decoded_constructed_message m Hc). reflexivity.
Qed.

Lemma packunpack_returns_the_message_witness :
  exists e' d',
    packunpack (NewPutMessage 43 "name" "mark" 666) (Encoder.new, (Decoder.new, [])) =
      Done ((NewPutMessage 43 "name" "mark" 666, (None, None)), (e', (d', []))) /\
    0 <= Decoder.off d'.
Proof.
  apply (packunpack_returns_the_message (NewPutMessage 43 "name" "mark" 666)
           Encoder.new Decoder.new).
  - split; [unfold is_uint16; cbn; lia|]. right. left.
    repeat split; vm_compute; (reflexivity || discriminate).
  - right. left. exists 43, "name", "mark", 666. reflexivity.
  - cbn. lia.
Defined.

(** *** The first read error *)

Section Readers.
Context {R : Type} {HR : Reader R}.

Lemma keeps_bind {A B} (e : error) (r1 : R) (m : Go (Decoder.Decoder * R) A)
    (f : A -> Go (Decoder.Decoder * R) B) :
  keeps e r1 m -> (forall a, keeps e r1 (f a)) -> keeps e r1 (bind m f).
Proof.
  intros Hm Hf st b st' Hp. unfold bind.
  destruct (m st) as [[a s1]|r] eqn:Hms; [|discriminate].
  intros Hfa. exact (Hf a s1 b st' (Hm st a s1 Hp Hms) Hfa).
Qed.

Lemma keeps_ret {A} (e : error) (r1 : R) (a : A) : keeps e r1 (ret a).
Proof. intros st a' st' Hp [= _ <-]. exact Hp. Qed.

Lemma keeps_get_at (e : error) (r1 : R)
    (reader : list byte -> outcome (Z * list byte)) (width : Z) :
  keeps e r1 (on_fst (Decoder.get_at reader width)).
Proof.
  intros [d r] a st' [Herr Hr]. unfold on_fst, Decoder.get_at. cbn [fst snd] in *.
  destruct (slice_from (Decoder.buf d) (Decoder.off d)) as [s|t]; [|discriminate].
  cbn [obind]. destruct (reader s) as [v|t]; [|discriminate].
  cbn [obind]. intros [= _ <-]. split; [exact Herr|exact Hr].
Qed.

Lemma keeps_gets (e : error) (r1 : R) (n : Z) :
  keeps e r1 (on_fst (Decoder.gets n)).
Proof.
  intros [d r] a st' [Herr Hr]. unfold on_fst, Decoder.gets. cbn [fst snd] in *.
  destruct (slice_range (Decoder.buf d) (Decoder.off d) (Decoder.off d + n))
    as [s|t]; [|discriminate].
  cbn [obind]. intros [= _ <-]. split; [exact Herr|exact Hr].
Qed.

Lemma keeps_read (e : error) (r1 : R) (n : Z) : keeps e r1 (Decoder.read n).
Proof.
  intros [d r] a st' [Herr Hr]. unfold Decoder.read. cbn [fst snd] in *.
  destruct (bool_decide (len (Decoder.buf d) - Decoder.off d < n));
    cbn [Decoder.err]; rewrite Herr; intros [= _ <-];
    split; cbn [fst snd Decoder.err]; first [assumption|reflexivity].
Qed.

Lemma keeps_get_state (e : error) (r1 : R) :
  keeps e r1 (on_fst (get_state (S := Decoder.Decoder))).
Proof. intros [d r] a st' Hp [= _ <-]. exact Hp. Qed.

Lemma reports_bind {A} (m : Go (Decoder.Decoder * R) A)
    (f : A -> Go (Decoder.Decoder * R) (Message * option error)) :
  (forall a, reports (f a)) -> reports (bind m f).
Proof.
  intros Hf st b st'. unfold bind.
  destruct (m st) as [[a s1]|r]; [|discriminate].
  apply Hf.
Qed.

Lemma reports_state (m' : Message) :
  reports (R := R) (d <- on_fst get_state;; ret (m', Decoder.err d))%go.
Proof. intros [d r] a st' [= <- <-]. reflexivity. Qed.

(** X14. [Decode] returns the first read error: when the read of the
    five bytes of the header fails, then whatever the reader, the state of
    the decoder and the bytes that were read, a call of [Decode] that
    returns gives that error back, and has not read from the reader
    again. *)
Theorem Decode_returns_the_first_read_error (m0 out : Message)
    (d d' : Decoder.Decoder) (r r1 r' : R) (data : list byte)
    (e : error) (err : option error) :
  ReadFull 5 r = Done ((data, Some e), r1) ->
  Decoder.Decode m0 (d, r) = Done ((out, err), (d', r')) ->
  err = Some e /\ r' = r1.
Proof.
  intros Hread. unfold Decoder.Decode.
  set (d0 := {| Decoder.buf := Decoder.buf d; Decoder.off := Decoder.off d;
                Decoder.err := None |}).
  rewrite (bind_done _ _ (d, r) (d0, r) tt) by reflexivity.
  unfold bind at 1.
  destruct (Decoder.read 5 (d0, r)) as [[[] [d1 r2]]|t] eqn:Hr5; [|discriminate].
  assert (Hp : pending e r1 (d1, r2)).
  { revert Hr5. unfold Decoder.read. cbn [fst snd].
    set (g := if bool_decide (len (Decoder.buf d0) - Decoder.off d0 < 5)
              then _ else d0).
    assert (Hg : Decoder.err g = None) by (subst g; destruct (bool_decide _); reflexivity).
    rewrite Hg.
    destruct (slice_to (Decoder.buf g) 5) as [dst|t] eqn:Hdst; [|discriminate].
    cbn [obind].
    assert (Hl : len dst = 5).
    { revert Hdst. unfold slice_to.
      destruct (bool_decide (0 <= 5 <= len (Decoder.buf g))) eqn:Hb; [|discriminate].
      apply bool_decide_eq_true_1 in Hb. intros [= <-].
      unfold len in *. rewrite length_take. lia. }
    rewrite Hl, Hread. cbn [obind fst snd]. intros [= <- <-].
    split; reflexivity. }
  intros Hrest.
  match type of Hrest with
  | ?m _ = _ => assert (Hk : keeps e r1 m /\ reports m)
  end.
  { split.
    - unfold Decoder.get8, Decoder.get16, Decoder.get64.
      repeat first
        [ apply keeps_bind; [|intros ?]
        | apply keeps_ret
        | apply keeps_get_at
        | apply keeps_gets
        | apply keeps_read
        | apply keeps_get_state
        | match goal with |- keeps _ _ (if ?c then _ else _) => destruct c end ].
    - do 3 (apply reports_bind; intros ?). apply reports_state. }
  destruct Hk as [Hk Hrep].
  destruct (Hk _ _ _ Hp Hrest) as [Herr Hr'].
  specialize (Hrep _ _ _ Hrest). cbn [fst snd] in *.
  split; [congruence|exact Hr'].
Qed.

End Readers.


Lemma Decode_returns_the_first_read_error_witness :
  match Decoder.Decode zero_Message (Decoder.new, short_header) with
  | Done ((_, err), (_, r')) => err = Some io_ErrUnexpectedEOF /\ r' = []
  | Panic _ => False
  end.
Proof.
  destruct (Decoder.Decode zero_Message (Decoder.new, short_header))
    as [[[out err] [d' r']]|t] eqn:HD.
  - apply (Decode_returns_the_first_read_error (HR := Buffer_Reader)
             zero_Message out Decoder.new d' short_header [] r' short_header
             io_ErrUnexpectedEOF err).
    + reflexivity.
    + exact HD.
  - vm_compute in HD. discriminate HD.
Defined.

(** *** The text of a key or a value in the logs *)

Lemma all_printable_app (a b : string) :
  all_printable (a +:+ b) = all_printable a && all_printable b.
Proof.
  induction a as [|c a IH]; [reflexivity|].
  change (all_printable (String c (a +:+ b)) =
          all_printable (String c a) && all_printable b).
  cbn [all_printable]. rewrite IH, andb_assoc. reflexivity.
Qed.

Lemma hex_of_byte_printable (b : byte) : all_printable (fmt.hex_of_byte b) = true.
Proof. destruct b; reflexivity. Qed.

Lemma hex_of_bytes_printable (l : list byte) :
  all_printable (fmt.hex_of_bytes l) = true.
Proof.
  unfold fmt.hex_of_bytes. induction l as [|b l IH]; [reflexivity|].
  cbn [List.map]. rewrite DiskReadFacts.concat_cons, all_printable_app.
  rewrite hex_of_byte_printable, IH. reflexivity.
Qed.

Lemma scan_cases (s : string) (i : nat) :
  (i <= 12)%nat ->
  match scan i s with
  | Short => all_printable s = true /\ (i + String.length s <= 12)%nat
  | TooLong =>
      forall n, (n + i <= 13)%nat ->
        String.length (substring 0 n s) = n /\
        all_printable (substring 0 n s) = true
  | NotPrintable => all_printable s = false
  end.
Proof.
  revert i. induction s as [|c s IH]; intros i Hi.
  - cbn. split; [reflexivity|lia].
  - cbn [scan all_printable]. destruct (printable c) eqn:Hc; cbn [negb andb].
    + destruct (Nat.ltb_spec 11 i) as [Hlt|Hge].
      * intros n Hn. destruct n as [|[|n]]; [| |lia].
        -- split; reflexivity.
        -- cbn [substring]. destruct s; cbn; rewrite Hc; split; reflexivity.
      * specialize (IH (S i) ltac:(lia)).
        destruct (scan (S i) s).
        -- exact IH.
        -- intros n Hn. destruct n as [|n]; [split; reflexivity|].
           cbn [substring String.length all_printable].
           destruct (IH n ltac:(lia)) as [Hl Hp].
           rewrite Hl, Hp, Hc. split; reflexivity.
        -- destruct IH as [Hp Hl]. split; [exact Hp|]. cbn [String.length]. lia.
    + reflexivity.
Qed.

Lemma scan_short (s : string) (i : nat) :
  all_printable s = true -> (i + String.length s <= 12)%nat -> scan i s = Short.
Proof.
  revert i. induction s as [|c s IH]; intros i Hp Hl; [reflexivity|].
  cbn [scan all_printable String.length] in *.
  apply andb_true_iff in Hp as [Hc Hp]. rewrite Hc. cbn [negb].
  destruct (Nat.ltb_spec 11 i) as [Hlt|Hge]; [lia|].
  apply IH; [exact Hp|lia].
Qed.

Lemma Sprintf_x (any : string) :
  fmt.Sprintf "%x" [fmt.ArgString any] = fmt.hex_of_bytes (list_byte_of_string any).
Proof. reflexivity. Qed.

(** One call of [repr] on a printable string returns. *)
Lemma repr_printable (s : string) :
  all_printable s = true ->
  exists r, (forall fuel, repr (S fuel) s = Some r) /\
            (String.length r <= 12)%nat /\ all_printable r = true.
Proof.
  intros Hp. cbn [repr].
  pose proof (scan_cases s 0 ltac:(lia)) as Hs.
  destruct (scan 0 s).
  - congruence.
  - destruct (Hs 8%nat ltac:(lia)) as [Hl Hq].
    eexists. split; [intros fuel; reflexivity|].
    rewrite DiskFacts.length_string_app, all_printable_app, Hl, Hq.
    split; [cbn; lia|reflexivity].
  - destruct Hs as [_ Hl]. exists s.
    split; [intros fuel; reflexivity|]. split; [lia|exact Hp].
Qed.

(** X15. [repr], the text of a key or a value in the logs: the recursion
    ends after one step at most (fuel for two calls is enough), and the
    result has twelve bytes at most, all printable ASCII; a printable
    string of twelve bytes at most is returned as it is. *)
Theorem repr_is_short_and_printable (any : string) :
  exists r,
    (forall fuel, (2 <= fuel)%nat -> repr fuel any = Some r) /\
    (String.length r <= 12)%nat /\
    all_printable r = true /\
    (all_printable any = true -> (String.length any <= 12)%nat -> r = any).
Proof.
  pose proof (scan_cases any 0 ltac:(lia)) as Hs.
  destruct (scan 0 any) eqn:Hscan.
  - destruct (repr_printable (fmt.hex_of_bytes (list_byte_of_string any))
                (hex_of_bytes_printable _)) as (r & Hr & Hl & Hp).
    exists r. split; [|split; [exact Hl|split; [exact Hp|]]].
    + intros [|[|fuel]] Hf; [lia|lia|].
      change (repr (S (S fuel)) any)
        with (match scan 0 any with
              | NotPrintable => repr (S fuel) (fmt.Sprintf "%x" [fmt.ArgString any])
              | TooLong => Some (String.substring 0 8 any +:+ "...")
              | Short => Some any
              end).
      rewrite Hscan, Sprintf_x. apply Hr.
    + intros Hq. congruence.
  - destruct (Hs 8%nat ltac:(lia)) as [Hl Hq].
    exists (substring 0 8 any +:+ "..."). split; [|split; [|split]].
    + intros [|fuel] Hf; [lia|]. cbn [repr]. rewrite Hscan. reflexivity.
    + rewrite DiskFacts.length_string_app, Hl. cbn. lia.
    + rewrite all_printable_app, Hq. reflexivity.
    + intros Hq' Hl'. rewrite (scan_short any 0 Hq' ltac:(lia)) in Hscan. discriminate.
  - destruct Hs as [Hp Hl]. exists any. split; [|split; [|split]].
    + intros [|fuel] Hf; [lia|]. cbn [repr]. rewrite Hscan. reflexivity.
    + lia.
    + exact Hp.
    + reflexivity.
Qed.

(** The strings of the test of [String]. *)
Example repr_of_the_test :
  repr 2 "name" = Some "name" /\
  repr 2 "neutrinos hit the memory bank" = Some "neutrino...".
Proof. split; reflexivity. Qed.

End StreamFacts.

(** ** The options of the server, and a key pair that does not load *)

Module OptionFacts.
Import server Fixtures.

Section Facts.
Context {N Cert Ln : Type} {HN : Net N Cert Ln}.

Lemma New_snoc (os : list Option) (o : Option) :
  opts (New (Ln := Ln) (os ++ [o])) = o (opts (New (Ln := Ln) os)).
Proof. unfold New. cbn [opts]. rewrite fold_left_app. reflexivity. Qed.

(** X16. The options of [New] are applied in order to the defaults:
    without options the server binds ":8000", without TLS and without a
    password; the last [WithBind] decides the address, whatever came before
    it; [WithKeyPair] and [WithAuthHash] leave the address alone, switch TLS
    on and set the password, and they can be passed in either order. *)
Theorem New_applies_options_in_order (os : list Option) (b c k v : string) :
  opts (New (Ln := Ln) []) =
    {| bind := ":8000"; tls := false; certFile := EmptyString;
       keyFile := EmptyString; authHash := EmptyString |} /\
  bind (opts (New (Ln := Ln) (os ++ [WithBind b]))) = b /\
  bind (opts (New (Ln := Ln) (os ++ [WithKeyPair c k]))) =
    bind (opts (New (Ln := Ln) os)) /\
  bind (opts (New (Ln := Ln) (os ++ [WithAuthHash v]))) =
    bind (opts (New (Ln := Ln) os)) /\
  tls (opts (New (Ln := Ln) (os ++ [WithKeyPair c k]))) = true /\
  authHash (opts (New (Ln := Ln) (os ++ [WithAuthHash v]))) = v /\
  New (Ln := Ln) (os ++ [WithKeyPair c k; WithAuthHash v]) =
    New (Ln := Ln) (os ++ [WithAuthHash v; WithKeyPair c k]).
Proof.
  split; [reflexivity|].
  rewrite !New_snoc. repeat split.
  unfold New. f_equal. rewrite !fold_left_app. reflexivity.
Qed.

(** X17. [Listen] with TLS, when the key pair does not load: the error of
    the load is returned with the empty address; no socket is opened (the
    network is as the load left it) and the server is as it was. *)
Theorem Listen_key_pair_does_not_load (s : Server) (n n' : N) (c : Cert)
    (failure : string) :
  tls (opts s) = true ->
  tls_LoadX509KeyPair (certFile (opts s)) (keyFile (opts s)) n =
    Done ((c, Some failure), n') ->
  Listen (s, n) = Done ((EmptyString, Some (library_error failure)), (s, n')).
Proof.
  intros Htls Hload. unfold Listen.
  rewrite (bind_done _ _ (s, n) (s, n) s) by reflexivity.
  rewrite Htls. go_unfold. cbn [fst snd]. rewrite Hload. cbn [fst snd].
  reflexivity.
Qed.

End Facts.

Lemma Listen_key_pair_does_not_load_witness :
  Listen (HN := host_Net) (New [WithKeyPair EmptyString "key.pem"], ([] : host)) =
    Done ((EmptyString, Some (library_error "open : no such file or directory")),
          (New [WithKeyPair EmptyString "key.pem"], [])).
Proof.
  apply (Listen_key_pair_does_not_load (HN := host_Net)
           (New [WithKeyPair EmptyString "key.pem"]) [] [] (EmptyString, "key.pem")).
  - reflexivity.
  - reflexivity.
Defined.

End OptionFacts.

(** ** The registry of the factory and the invalidation of the cache *)

Module RegistryFacts.
Import message storage node Statements Conditions Samples.

(** X18. [ExistingNode] for a key that the registry does not know, from
    any registry (the nil one too) and any heap: the node is allocated at a
    fresh address with the key, the name and the mode "not loaded", it is
    registered under the key, so that [getKnown] of the key returns it, and
    [getKnown] of every other key returns what it returned before. *)
Theorem ExistingNode_registers_a_new_key (f : CryptNodeFactory) (h : heap)
    (name : string) (key : list byte) :
  entries (known f) !! key = None ->
  exists a f',
    let h' := <[a := discovered name key]> h in
    ExistingNode name key (f, h) = Done (a, (f', h')) /\
    h !! a = None /\
    getKnown key (f', h') = Done (Some a, (f', h')) /\
    (forall key', key' <> key ->
       getKnown key' (f', h') =
         Done (entries (known f) !! key', (f', h'))).
Proof.
  intros Hnew.
  set (a := fresh (dom h)).
  assert (Hfresh : h !! a = None).
  { apply not_elem_of_dom. apply is_fresh. }
  exists a, {| known := Some (<[key := a]> (entries (known f))) |}.
  cbv zeta. split; [|split; [exact Hfresh|split]].
  - unfold ExistingNode, allocate, addKnown. go_unfold. cbn [fst snd].
    fold a. rewrite lookup_insert_eq. cbn [Key].
    destruct f as [[k|]]; cbn [known entries] in *.
    + rewrite Hnew. reflexivity.
    + rewrite lookup_empty. reflexivity.
  - unfold getKnown. go_unfold. cbn [fst snd known].
    rewrite lookup_insert_eq. reflexivity.
  - intros key' Hne. unfold getKnown. go_unfold. cbn [fst snd known].
    rewrite lookup_insert_ne by (intros Heq; apply Hne; symmetry; exact Heq).
    reflexivity.
Qed.

Lemma ExistingNode_registers_a_new_key_witness :
  exists a f',
    let h' := <[a := discovered "other" (list_byte_of_string key20)]> Fixtures.heap1 in
    ExistingNode "other" (list_byte_of_string key20) (Fixtures.factory1, Fixtures.heap1) =
      Done (a, (f', h')) /\
    Fixtures.heap1 !! a = None /\
    getKnown (list_byte_of_string key20) (f', h') = Done (Some a, (f', h')) /\
    (forall key', key' <> list_byte_of_string key20 ->
       getKnown key' (f', h') =
         Done (entries (known Fixtures.factory1) !! key', (f', h'))).
Proof.
  apply (ExistingNode_registers_a_new_key Fixtures.factory1 Fixtures.heap1 "other"
           (list_byte_of_string key20)).
  vm_compute. reflexivity.
Defined.

Lemma copy_key (k : string) :
  strlen k = NodeKeyLen ->
  copy (make NodeKeyLen) (list_byte_of_string k) = list_byte_of_string k.
Proof.
  intros Hlen. rewrite copy_make by (rewrite len_list_byte_of_string; lia).
  rewrite len_list_byte_of_string, Hlen. replace (NodeKeyLen - NodeKeyLen) with 0 by lia.
  apply app_nil_r.
Qed.

(** X19. [InvalidateCache] with a PUT message, on a registry whose
    pointers all point into the heap: it returns; the registry is as it
    was; and the heap changes in one case only, when the key has the twenty
    bytes of a node key, a node is registered under it and the version of
    the message is above the version of that node: then that node, and no
    other, is marked for a reload. *)
Theorem InvalidateCache_marks_the_stale_node (f : CryptNodeFactory) (h : heap)
    (t ver : Z) (k v : string) :
  registered f h ->
  InvalidateCache (NewPutMessage t k v ver) (f, h) =
    Done (tt, (f, invalidated f h k ver)).
Proof.
  intros Hreg. unfold InvalidateCache, invalidated, Message.Key, Message.Version.
  cbn [kind NewPutMessage KindGet KindPut Z.eqb Pos.eqb orb message.key message.version].
  go_unfold. cbn [fst snd].
  destruct (Z.eqb_spec (strlen k) NodeKeyLen) as [Hlen|Hlen]; cbn [negb]; [|reflexivity].
  rewrite (copy_key k Hlen).
  unfold getKnown. go_unfold. cbn [fst snd].
  destruct f as [[kn|]]; cbn [known entries] in *.
  - destruct (kn !! list_byte_of_string k) as [a|] eqn:Ha; [|reflexivity].
    destruct (Hreg _ _ Ha) as [n Hn]. cbn [fst snd]. rewrite Hn.
    destruct (ver <=? version n); reflexivity.
  - rewrite lookup_empty. reflexivity.
Qed.

Lemma InvalidateCache_marks_the_stale_node_witness :
  InvalidateCache (NewPutMessage 0 key20 "metadata" 4) (factory20, heap20) =
    Done (tt, (factory20,
               {[ 1%positive :=
                    set_shouldReloadMetadata true
                      (set_version 3 (discovered "file" (list_byte_of_string key20))) ]})) /\
  InvalidateCache (NewPutMessage 0 key20 "metadata" 3) (factory20, heap20) =
    Done (tt, (factory20, heap20)).
Proof.
  assert (Hreg : registered factory20 heap20).
  { intros key a. unfold factory20, heap20. cbn [known entries].
    intros [_ <-]%lookup_singleton_Some. rewrite lookup_singleton_eq. eauto. }
  split.
  - rewrite (InvalidateCache_marks_the_stale_node factory20 heap20 0 4 key20 "metadata" Hreg).
    vm_compute. reflexivity.
  - rewrite (InvalidateCache_marks_the_stale_node factory20 heap20 0 3 key20 "metadata" Hreg).
    vm_compute. reflexivity.
Defined.

End RegistryFacts.

(** ** Removing a child, flushing and loading the content *)

Module OperationFacts.
Import storage node Statements Conditions Fixtures Samples.

Section Facts.
Context {M B : Type} {HM : VersionedStore M} {HB : BlobStore B}.

(** [sync] changes the content key, the version and the three flags of the
    node, and nothing else. *)
Lemma sync_frame (h : heap) (w w' : world) (errno : Z) :
  sync h w = Done (errno, w') ->
  User (fst w') = User (fst w) /\ Group (fst w') = Group (fst w) /\
  Mode (fst w') = Mode (fst w) /\ Time (fst w') = Time (fst w) /\
  name (fst w') = name (fst w) /\ Key (fst w') = Key (fst w) /\
  xattrs (fst w') = xattrs (fst w) /\ content (fst w') = content (fst w) /\
  Children (fst w') = Children (fst w).
Proof.
  destruct w as [n [m b]].
  unfold sync, sync_content, sync_metadata, saveMetadata, on_node, on_Metadata,
    on_Blobs. go_unfold. cbn [fst snd].
  repeat (break_match; cbn [fst snd]; try discriminate);
    intros [= <- <-]; repeat split; reflexivity.
Qed.

(** The rollback of a removal: the child goes back into the map. *)
Lemma reattached (name : string) (n n2 : CryptNode) (c : addr) :
  entries (Children n) !! name = Some c ->
  Children n2 = delete name <$> Children n ->
  exists n', assign_child name c n2 = Done (tt, n') /\
             entries (Children n') = entries (Children n) /\
             n' = set_Children (Some (entries (Children n))) n2.
Proof.
  intros Hc H2. unfold assign_child. rewrite H2.
  destruct (Children n) as [m|] eqn:Hm; cbn [entries] in Hc.
  - cbn [fmap option_fmap option_map].
    rewrite insert_delete_eq, insert_id by exact Hc.
    eexists. split; [reflexivity|]. split; reflexivity.
  - rewrite lookup_empty in Hc. discriminate.
Qed.

(** X20. [Unlink], when the [sync] on the node without the child returns
    (the errno of [Unlink] is that of [sync]): after a success the name is
    gone from the children and the other children are as before; after a
    failure the children are those of the node before the call, the child
    is back under its name. *)
Theorem Unlink_removes_or_rolls_back (h : heap) (n n2 : CryptNode) (m : M) (b : B)
    (st' : M * B) (name : string) (errno : Z) :
  sync h (detached name n, (m, b)) = Done (errno, (n2, st')) ->
  exists n',
    Unlink h name (n, (m, b)) = Done (errno, (n', st')) /\
    (errno = 0 ->
     n' = n2 /\ entries (Children n') = delete name (entries (Children n))) /\
    (errno <> 0 -> entries (Children n') = entries (Children n)).
Proof.
  intros Hsync.
  destruct (sync_frame h _ _ _ Hsync) as (_ & _ & _ & _ & _ & _ & _ & _ & HC).
  cbn [fst detached set_shouldSaveMetadata set_Children Children] in HC.
  assert (He : entries (Children n2) = delete name (entries (Children n))).
  { rewrite HC. destruct (Children n); cbn; [reflexivity|].
    rewrite delete_empty. reflexivity. }
  unfold Unlink, on_node, delete_child. go_unfold. cbn [fst snd].
  fold (detached name n). rewrite Hsync. cbn [fst snd].
  destruct (Z.eqb_spec errno 0) as [Hz|Hnz]; cbn [negb].
  - exists n2. split; [reflexivity|]. split; [intros _; split; [reflexivity|exact He]|].
    intros Hne. contradiction.
  - destruct (entries (Children n) !! name) as [c|] eqn:Hc.
    + destruct (reattached name n n2 c Hc HC) as (n' & Ha & Hn' & _).
      cbn [fst snd]. rewrite Ha. cbn [fst snd]. exists n'.
      split; [reflexivity|]. split; [intros Hz; contradiction|]. intros _. exact Hn'.
    + exists n2. split; [reflexivity|]. split; [intros Hz; contradiction|].
      intros _. rewrite He. apply delete_id. exact Hc.
Qed.

(** X21. [Rmdir]: for a name that is not among the children it returns
    [ENOENT], and for a child that has children of its own [ENOTEMPTY], in
    both cases without a change to the node or a call to the stores; for a
    child without children, when the [sync] on the node without the child
    returns, [Rmdir] returns its errno and the children are without the
    name after a success and as they were before the call after a
    failure. *)
Theorem Rmdir_checks_and_rolls_back (h : heap) (n : CryptNode) (m : M) (b : B)
    (name : string) :
  (entries (Children n) !! name = None ->
   Rmdir h name (n, (m, b)) = Done (ENOENT, (n, (m, b)))) /\
  (forall c child,
     entries (Children n) !! name = Some c -> h !! c = Some child ->
     entries (Children child) <> ∅ ->
     Rmdir h name (n, (m, b)) = Done (ENOTEMPTY, (n, (m, b)))) /\
  (forall c child errno n2 st',
     entries (Children n) !! name = Some c -> h !! c = Some child ->
     entries (Children child) = ∅ ->
     sync h (detached name n, (m, b)) = Done (errno, (n2, st')) ->
     exists n',
       Rmdir h name (n, (m, b)) = Done (errno, (n', st')) /\
       (errno = 0 ->
        n' = n2 /\ entries (Children n') = delete name (entries (Children n))) /\
       (errno <> 0 -> entries (Children n') = entries (Children n))).
Proof.
  split; [|split].
  - intros Hc. unfold Rmdir, on_node. go_unfold. cbn [fst snd]. rewrite Hc.
    reflexivity.
  - intros c child Hc Hh Hne. unfold Rmdir, on_node. go_unfold. cbn [fst snd].
    rewrite Hc, Hh.
    destruct (Z.eqb_spec (Z.of_nat (size (entries (Children child)))) 0) as [Hz|Hnz].
    + exfalso. apply Hne. apply map_size_empty_iff. lia.
    + reflexivity.
  - intros c child errno n2 st' Hc Hh Hempty Hsync.
    destruct (sync_frame h _ _ _ Hsync) as (_ & _ & _ & _ & _ & _ & _ & _ & HC).
    cbn [fst detached set_shouldSaveMetadata set_Children Children] in HC.
    assert (He : entries (Children n2) = delete name (entries (Children n))).
    { rewrite HC. destruct (Children n); cbn; [reflexivity|].
      rewrite delete_empty. reflexivity. }
    unfold Rmdir, on_node, delete_child. go_unfold. cbn [fst snd].
    rewrite Hc, Hh, Hempty, map_size_empty.
    change (Z.of_nat 0 =? 0) with true. cbn [negb fst snd].
    fold (detached name n). rewrite Hsync. cbn [fst snd].
    destruct (Z.eqb_spec errno 0) as [Hz|Hnz]; cbn [negb].
    + exists n2. split; [reflexivity|].
      split; [intros _; split; [reflexivity|exact He]|].
      intros Hne. contradiction.
    + destruct (reattached name n n2 c Hc HC) as (n' & Ha & Hn' & _).
      cbn [fst snd]. rewrite Ha. cbn [fst snd]. exists n'.
      split; [reflexivity|]. split; [intros Hz; contradiction|]. intros _. exact Hn'.
Qed.

(** X22. [Flush], when the [sync] of the node returns: [Flush] returns the
    errno of [sync]; after a success the node is as [sync] left it; after a
    failure the content key is equal to the one before the call, and when
    [sync] had changed it the content of the node is dropped (it is the nil
    slice), the rest of the node being as [sync] left it. *)
Theorem Flush_restores_the_content_key (h : heap) (n n2 : CryptNode) (m : M) (b : B)
    (st' : M * B) (errno : Z) :
  sync h (n, (m, b)) = Done (errno, (n2, st')) ->
  exists n',
    Flush h (n, (m, b)) = Done (errno, (n', st')) /\
    (errno = 0 -> n' = n2) /\
    (errno <> 0 ->
     bytes_Equal (contentKey n) (contentKey n') = true /\
     n' = if bytes_Equal (contentKey n) (contentKey n2) then n2
          else set_content Nil (set_contentKey (contentKey n) n2)).
Proof.
  intros Hsync. unfold Flush, on_node. go_unfold. cbn [fst snd].
  rewrite Hsync. cbn [fst snd].
  destruct (Z.eqb_spec errno 0) as [Hz|Hnz]; cbn [negb andb].
  - exists n2. split; [reflexivity|]. split; [reflexivity|]. intros H. contradiction.
  - destruct (bytes_Equal (contentKey n) (contentKey n2)) eqn:Heq; cbn [negb].
    + exists n2. split; [reflexivity|]. split; [intros H; contradiction|].
      intros _. split; [exact Heq|reflexivity].
    + eexists. split; [reflexivity|]. split; [intros H; contradiction|].
      intros _. split; [|reflexivity].
      cbn [contentKey set_content set_contentKey]. unfold bytes_Equal.
      apply bool_decide_eq_true_2. reflexivity.
Qed.

(** [ensureContentLoaded] leaves alone a node whose content is not saved
    yet, and a node that is neither a regular file nor a link. *)
Lemma ensureContentLoaded_skips (n : CryptNode) (st : M * B) :
  shouldSaveContent n = true \/
  (Z.land (Mode n) S_IFREG = 0 /\ Z.land (Mode n) S_IFLNK = 0) ->
  ensureContentLoaded (n, st) = Done (0, (n, st)).
Proof.
  intros H. unfold ensureContentLoaded, on_node. go_unfold. cbn [fst snd].
  destruct (shouldSaveContent n); [reflexivity|].
  destruct H as [H|[H1 H2]]; [discriminate|]. rewrite H1, H2. reflexivity.
Qed.


(** The second step of [sync] changes neither the content key, the content
    flag and the mode of the node nor the blob store. *)
Lemma sync_metadata_frame (h : heap) (n n2 : CryptNode) (m m2 : M) (b b2 : B)
    (errno : Z) :
  sync_metadata h (n, (m, b)) = Done (errno, (n2, (m2, b2))) ->
  b2 = b /\ contentKey n2 = contentKey n /\
  shouldSaveContent n2 = shouldSaveContent n /\ Mode n2 = Mode n.
Proof.
  unfold sync_metadata, saveMetadata, on_node, on_Metadata. go_unfold. cbn [fst snd].
  repeat (break_match; cbn [fst snd]; try discriminate);
    intros [= <- <- <- <-]; repeat split; reflexivity.
Qed.

End Facts.

Section Loading.
Variable Sum512 : list byte -> list byte.
Context {M S : Type} {HM : VersionedStore M} {HS : Store S}.

Lemma blob_put_unfolded (v : list byte) (b : S) :
  BlobStore.Put (BlobStore := BlobStoreWrapper_BlobStore Sum512) v b =
    match Store.Put (Sum512 v) v b with
    | Done (err, b1) => Done ((Slice (Sum512 v), err), b1)
    | Panic r => Panic r
    end.
Proof.
  cbn [BlobStore.Put BlobStoreWrapper_BlobStore].
  unfold BlobStoreWrapper.Put. go_unfold.
  destruct (Store.Put (Sum512 v) v b) as [[err b1]|r]; reflexivity.
Qed.

(** X23. What [sync] saves, [ensureContentLoaded] loads back. Over the
    blob store of a raw store that honours the put/get contract, for a
    regular file with unsaved content whose digest is not empty: after a
    [sync] that returned 0, [ensureContentLoaded] on the node without its
    content (as after a reload) returns 0 and the content of the node is
    again the content that was saved. *)
Theorem saved_content_loads_back (Hraw : honours_contract S) (h : heap)
    (n n2 : CryptNode) (m m2 : M) (b b2 : S) :
  shouldSaveContent n = true ->
  Z.land (Mode n) S_IFREG <> 0 ->
  Sum512 (data_of (content n)) <> [] ->
  sync (HB := BlobStoreWrapper_BlobStore Sum512) h (n, (m, b)) =
    Done (0, (n2, (m2, b2))) ->
  exists v b3,
    ensureContentLoaded (HB := BlobStoreWrapper_BlobStore Sum512)
      (set_content Nil n2, (m2, b2)) = Done (0, (set_content v n2, (m2, b3))) /\
    data_of v = data_of (content n).
Proof.
  intros Hdirty Hreg Hsum Hsync.
  set (hash := Sum512 (data_of (content n))) in *.
  destruct (Store.Put hash (data_of (content n)) b) as [[err b1]|r] eqn:Hput.
  2: { exfalso. revert Hsync.
       unfold sync, sync_content, on_node, on_Blobs. go_unfold. cbn [fst snd].
       rewrite Hdirty, blob_put_unfolded. fold hash. cbn [fst snd]. rewrite Hput.
       discriminate. }
  destruct err as [e|].
  { exfalso. revert Hsync.
    unfold sync, sync_content, on_node, on_Blobs. go_unfold. cbn [fst snd].
    rewrite Hdirty, blob_put_unfolded. fold hash. cbn [fst snd]. rewrite Hput.
    cbn [fst snd]. discriminate. }
  assert (Hdone : content_done (HB := BlobStoreWrapper_BlobStore Sum512)
                    n b (after_content (Slice hash) n) b1).
  { right. split; [exact Hdirty|]. exists (Slice hash). split; [|reflexivity].
    rewrite blob_put_unfolded. fold hash. rewrite Hput. reflexivity. }
  unfold sync in Hsync. unfold bind at 1 in Hsync.
  rewrite (@SyncFacts.sync_content_done M S (BlobStoreWrapper_BlobStore Sum512)
             n _ m b b1 Hdone) in Hsync.
  destruct (sync_metadata_frame h _ _ _ _ _ _ _ Hsync)
    as (-> & Hkey & Hflag & Hmode).
  assert (Hk2 : contentKey n2 = Slice hash).
  { rewrite Hkey. unfold after_content.
    destruct (negb (bytes_Equal (contentKey n) (Slice hash))); reflexivity. }
  assert (Hf2 : shouldSaveContent n2 = false).
  { rewrite Hflag. unfold after_content.
    destruct (negb (bytes_Equal (contentKey n) (Slice hash))); reflexivity. }
  assert (Hm2 : Mode n2 = Mode n).
  { rewrite Hmode. unfold after_content.
    destruct (negb (bytes_Equal (contentKey n) (Slice hash))); reflexivity. }
  destruct (get_after_put S Hraw _ _ _ _ Hput) as (v & b3 & Hget & Hv).
  exists v, b3. split; [|exact Hv].
  unfold ensureContentLoaded, on_node, on_Blobs. go_unfold.
  cbn [fst snd shouldSaveContent Mode contentKey content set_content].
  rewrite Hf2, Hm2, Hk2.
  destruct (Z.eqb_spec (Z.land (Mode n) S_IFREG) 0) as [Hz|_]; [contradiction|].
  cbn [andb data_of].
  destruct (Z.eqb_spec (len hash) 0) as [Hz|_].
  { exfalso. apply Hsum. unfold len in Hz. destruct hash; [reflexivity|discriminate]. }
  change (len [] =? 0) with true. cbn [negb].
  cbn [BlobStore.Get BlobStoreWrapper_BlobStore]. unfold BlobStoreWrapper.Get.
  cbn [fst snd]. rewrite Hget. reflexivity.
Qed.

End Loading.

(** X24. [Read] at an offset that is not negative, into a destination of
    any length: it returns, with errno 0, the bytes of the content from the
    offset on, as many as the destination takes and the content has; none
    beyond the end of the content. *)
Theorem Read_returns_the_window (node : CryptNode) (dest off : Z) :
  0 <= off -> 0 <= dest ->
  exists r,
    Read node dest off = Done (r, 0) /\
    data_of r = take (Z.to_nat dest) (drop (Z.to_nat off) (data_of (content node))) /\
    len (data_of r) <= dest.
Proof.
  intros Hoff Hdest. unfold Read.
  set (c := data_of (content node)).
  destruct (Z.gtb_spec off (len c)) as [Hgt|Hle].
  - exists Nil. split; [reflexivity|]. cbn [data_of].
    rewrite drop_ge by (unfold len in Hgt; lia).
    rewrite take_nil. split; [reflexivity|unfold len; cbn; lia].
  - destruct (Z.gtb_spec (off + dest) (len c)) as [Hbig|Hsmall].
    + unfold slice_range. rewrite bool_decide_eq_true_2 by lia.
      eexists. split; [reflexivity|]. cbn [data_of].
      assert (Hld : length (drop (Z.to_nat off) c) = Z.to_nat (len c - off))
        by (rewrite length_drop; unfold len; lia).
      rewrite !take_ge by lia.
      split; [reflexivity|]. unfold len in *. rewrite length_drop. lia.
    + unfold slice_range. rewrite bool_decide_eq_true_2 by lia.
      eexists. split; [reflexivity|]. cbn [data_of].
      replace (off + dest - off) with dest by lia.
      split; [reflexivity|]. unfold len. rewrite length_take. lia.
Qed.

Lemma Read_returns_the_window_witness :
  exists r,
    Read dirty 2 1 = Done (r, 0) /\
    data_of r = list_byte_of_string "at" /\
    len (data_of r) <= 2.
Proof.
  apply (Read_returns_the_window dirty 2 1); lia.
Defined.

Lemma Unlink_removes_or_rolls_back_witness :
  (exists n',
     Unlink (HM := fakeVersionedStore_VersionedStore) (HB := memory_blobs)
       heap2 "a" (dir1, (ko, InMemorySTore.NewInMemoryStore)) =
       Done (EIO, (n', (ko, InMemorySTore.NewInMemoryStore))) /\
     entries (Children n') = entries (Children dir1)) /\
  (exists n' st',
     Unlink (HM := VersionedWrapper_VersionedStore) (HB := memory_blobs)
       heap2 "a" (dir1, (InMemorySTore.NewInMemoryStore, InMemorySTore.NewInMemoryStore)) =
       Done (0, (n', st')) /\
     entries (Children n') = delete "a" (entries (Children dir1))).
Proof.
  split.
  - edestruct (fun n2 st' =>
                 Unlink_removes_or_rolls_back (HM := fakeVersionedStore_VersionedStore)
                   (HB := memory_blobs) heap2 dir1 n2 ko InMemorySTore.NewInMemoryStore
                   st' "a" EIO) as (n' & HU & _ & Hrb).
    + vm_compute. reflexivity.
    + exists n'. split; [exact HU|]. apply Hrb. discriminate.
  - edestruct (fun n2 st' =>
                 Unlink_removes_or_rolls_back (HM := VersionedWrapper_VersionedStore)
                   (HB := memory_blobs) heap2 dir1 n2 InMemorySTore.NewInMemoryStore
                   InMemorySTore.NewInMemoryStore st' "a" 0) as (n' & HU & Hok & _).
    + vm_compute. reflexivity.
    + exists n'. eexists. split; [exact HU|]. apply Hok. reflexivity.
Defined.

Lemma Rmdir_checks_and_rolls_back_witness :
  Rmdir (HM := fakeVersionedStore_VersionedStore) (HB := memory_blobs)
    heap2 "zzz" (dir1, (ko, InMemorySTore.NewInMemoryStore)) =
    Done (ENOENT, (dir1, (ko, InMemorySTore.NewInMemoryStore))) /\
  Rmdir (HM := fakeVersionedStore_VersionedStore) (HB := memory_blobs)
    heap2 "b" (dir1, (ko, InMemorySTore.NewInMemoryStore)) =
    Done (ENOTEMPTY, (dir1, (ko, InMemorySTore.NewInMemoryStore))) /\
  (exists n',
     Rmdir (HM := fakeVersionedStore_VersionedStore) (HB := memory_blobs)
       heap2 "a" (dir1, (ko, InMemorySTore.NewInMemoryStore)) =
       Done (EIO, (n', (ko, InMemorySTore.NewInMemoryStore))) /\
     entries (Children n') = entries (Children dir1)).
Proof.
  destruct (Rmdir_checks_and_rolls_back (HM := fakeVersionedStore_VersionedStore)
              (HB := memory_blobs) heap2 dir1 ko InMemorySTore.NewInMemoryStore "zzz")
    as (Hnone & _ & _).
  destruct (Rmdir_checks_and_rolls_back (HM := fakeVersionedStore_VersionedStore)
              (HB := memory_blobs) heap2 dir1 ko InMemorySTore.NewInMemoryStore "b")
    as (_ & Hfull & _).
  destruct (Rmdir_checks_and_rolls_back (HM := fakeVersionedStore_VersionedStore)
              (HB := memory_blobs) heap2 dir1 ko InMemorySTore.NewInMemoryStore "a")
    as (_ & _ & Hempty).
  split; [apply Hnone; reflexivity|].
  split.
  - eapply Hfull; [reflexivity|reflexivity|]. vm_compute. discriminate.
  - edestruct (Hempty 1%positive) as (n' & HR & _ & Hrb).
    + reflexivity.
    + reflexivity.
    + reflexivity.
    + vm_compute. reflexivity.
    + exists n'. split; [exact HR|]. apply Hrb. discriminate.
Defined.

Lemma Flush_restores_the_content_key_witness :
  exists n',
    Flush (HM := VersionedWrapper_VersionedStore) (HB := rejecting_blobs) ∅
      (dirty, (InMemorySTore.NewInMemoryStore, tt)) =
      Done (EIO, (n', (InMemorySTore.NewInMemoryStore, tt))) /\
    contentKey n' = contentKey dirty /\ content n' = Nil /\
    shouldSaveContent n' = true.
Proof.
  edestruct (fun n2 st' =>
               Flush_restores_the_content_key (HM := VersionedWrapper_VersionedStore)
                 (HB := rejecting_blobs) ∅ dirty n2 InMemorySTore.NewInMemoryStore tt
                 st' EIO) as (n' & HF & _ & Hko).
  - vm_compute. reflexivity.
  - exists n'. split; [exact HF|].
    destruct (Hko ltac:(discriminate)) as [_ ->]. repeat split.
Defined.

Lemma saved_content_loads_back_witness :
  match sync (HM := VersionedWrapper_VersionedStore) (HB := memory_blobs) ∅
          (dirty, (InMemorySTore.NewInMemoryStore, InMemorySTore.NewInMemoryStore)) with
  | Done (_, (n2, st2)) =>
      exists v b3,
        ensureContentLoaded (HB := memory_blobs) (set_content Nil n2, st2) =
          Done (0, (set_content v n2, (fst st2, b3))) /\
        data_of v = list_byte_of_string "data"
  | Panic _ => False
  end.
Proof.
  destruct (sync (HM := VersionedWrapper_VersionedStore) (HB := memory_blobs) ∅
              (dirty, (InMemorySTore.NewInMemoryStore, InMemorySTore.NewInMemoryStore)))
    as [[errno [n2 [m2 b2]]]|r] eqn:Hs.
  - assert (Hz : errno = 0).
    { pose proof Hs as Hc. vm_compute in Hc. injection Hc as <- _ _. reflexivity. }
    subst errno. cbn [fst].
    apply (saved_content_loads_back short_sum (HM := VersionedWrapper_VersionedStore)
             BlobFacts.InMemorySTore_honours_contract ∅ dirty n2
             InMemorySTore.NewInMemoryStore m2 InMemorySTore.NewInMemoryStore b2).
    + reflexivity.
    + vm_compute. discriminate.
    + vm_compute. discriminate.
    + exact Hs.
  - vm_compute in Hs. discriminate Hs.
Defined.

End OperationFacts.

(** ** Writing and reading the content *)

Module ContentIOFacts.
Import storage node Statements Conditions Fixtures Samples.

(** The bytes of a buffer [base] with [data] written over them at [off]. *)
Lemma spliced (base data : list byte) (off : Z) :
  0 <= off -> off + len data <= len base ->
  take (Z.to_nat off) base ++ copy (drop (Z.to_nat off) base) data =
    take (Z.to_nat off) base ++ data ++ drop (Z.to_nat (off + len data)) base.
Proof.
  intros Hoff Hlen. f_equal. unfold copy, len in *.
  rewrite length_drop, drop_drop.
  replace (Z.to_nat off + length data)%nat with (Z.to_nat (off + Z.of_nat (length data)))
    by lia.
  apply take_ge. rewrite length_app, !length_drop. lia.
Qed.

Lemma spliced_facts (c filler data : list byte) (off : Z) :
  0 <= off -> off + len data <= len (c ++ filler) ->
  (filler = [] \/ len (c ++ filler) = off + len data) ->
  let base := c ++ filler in
  let c' := take (Z.to_nat off) base ++ data ++ drop (Z.to_nat (off + len data)) base in
  len c' = len base /\
  take (Z.to_nat (len data)) (drop (Z.to_nat off) c') = data /\
  take (Z.to_nat (Z.min off (len c))) c' = take (Z.to_nat (Z.min off (len c))) c /\
  drop (Z.to_nat (off + len data)) c' = drop (Z.to_nat (off + len data)) c.
Proof.
  intros Hoff Hlen Hfill. cbv zeta.
  set (base := c ++ filler) in *.
  set (c' := take (Z.to_nat off) base ++ data ++ drop (Z.to_nat (off + len data)) base).
  pose proof (len_nonneg data) as Hd. pose proof (len_nonneg c) as Hc.
  assert (Htake : length (take (Z.to_nat off) base) = Z.to_nat off).
  { rewrite length_take. unfold len in *. lia. }
  split; [|split; [|split]].
  - subst c'. unfold len in *. rewrite !length_app, Htake, length_drop. lia.
  - subst c'. rewrite drop_app_length' by (symmetry; exact Htake).
    apply take_app_length'. unfold len. lia.
  - subst c'. rewrite take_app_le by (rewrite Htake; lia).
    rewrite take_take. replace (Z.to_nat (Z.min off (len c)) `min` Z.to_nat off)%nat
      with (Z.to_nat (Z.min off (len c))) by lia.
    subst base. apply take_app_le. unfold len. lia.
  - subst c'. rewrite app_assoc. rewrite drop_app_length'
      by (rewrite length_app, Htake; unfold len; lia).
    subst base. destruct Hfill as [->|Hfull].
    + rewrite app_nil_r. reflexivity.
    + rewrite !drop_ge; [reflexivity| |];
        unfold len in *; rewrite ?length_app in *; lia.
Qed.

(** X25. [Write] of [data] at an offset that is not negative, with the end
    of the data below 2^63, whatever the content and its spare capacity: it
    returns the number of bytes and errno 0; afterwards a [Read] of as many
    bytes at that offset returns [data]; the content is as long as before,
    or reaches to the end of the data when that is further; the bytes
    before the offset and the bytes after the data are those of the content
    before; the time of the node is the time of the call, and the content
    flag is raised when [data] is not empty. *)
Theorem Write_then_Read (n : CryptNode) (spare data : list byte) (now off : Z) :
  0 <= off -> off + len data < 2 ^ 63 ->
  let c := data_of (content n) in
  exists n' spare',
    Write now data off (n, spare) = Done ((uint32 (len data), 0), (n', spare')) /\
    (exists r, Read n' (len data) off = Done (r, 0) /\ data_of r = data) /\
    len (data_of (content n')) = Z.max (len c) (off + len data) /\
    take (Z.to_nat (Z.min off (len c))) (data_of (content n')) =
      take (Z.to_nat (Z.min off (len c))) c /\
    drop (Z.to_nat (off + len data)) (data_of (content n')) =
      drop (Z.to_nat (off + len data)) c /\
    Time n' = now /\
    shouldSaveContent n' = shouldSaveContent n || (0 <? len data).
Proof.
  intros Hoff Hmax c.
  pose proof (len_nonneg data) as Hd. pose proof (len_nonneg c) as Hc.
  (* the content after the optional resize: the old bytes and a filler *)
  assert (Hresized : exists filler f1,
    (if off + len data >? len c
     then previous <- resize (uint64 (off + len data));; ret tt
     else ret tt)%go (n, spare) = Done (tt, f1) /\
    data_of (content (fst f1)) = c ++ filler /\
    len (c ++ filler) = Z.max (len c) (off + len data) /\
    (filler = [] \/ len (c ++ filler) = off + len data) /\
    (content (fst f1) = Nil -> c ++ filler = []) /\
    Time (fst f1) = Time n /\ shouldSaveContent (fst f1) = shouldSaveContent n /\
    forall v, set_content v (fst f1) = set_content v n).
  { destruct (Z.gtb_spec (off + len data) (len c)) as [Hgrow|Hfit].
    - assert (Hu : uint64 (off + len data) = off + len data)
        by (unfold uint64; apply Z.mod_small; lia).
      rewrite Hu. unfold resize, bind, ret. cbn [fst snd].
      destruct (Z.gtb_spec (off + len data) (len (array (n, spare)))) as [Hcap|Hcap].
      + exists (make (off + len data - len c)). eexists. split; [reflexivity|].
        cbn [fst snd content set_content data_of]. fold c.
        rewrite copy_make by lia.
        assert (Hm : len (make (off + len data - len c)) = off + len data - len c).
        { unfold make, len. rewrite length_replicate. unfold len in *. lia. }
        split; [reflexivity|]. rewrite len_app, Hm.
        split; [lia|]. split; [right; lia|]. split; [discriminate|].
        split; [reflexivity|]. split; [reflexivity|]. reflexivity.
      + unfold reslice, array in *. cbn [fst snd] in *. subst c.
        destruct (content n) as [|c0] eqn:Hcn; cbn [data_of] in *.
        * unfold len in Hcap, Hgrow. cbn in Hcap, Hgrow. lia.
        * exists (take (Z.to_nat (off + len data - len c0)) spare). eexists.
          split; [reflexivity|]. cbn [fst snd content set_content data_of].
          assert (Htk : take (Z.to_nat (off + len data)) (c0 ++ spare) =
                        c0 ++ take (Z.to_nat (off + len data - len c0)) spare).
          { rewrite take_app. rewrite take_ge by (unfold len in *; lia).
            f_equal. f_equal. unfold len. lia. }
          rewrite Htk. split; [reflexivity|].
          assert (Hl : len (c0 ++ take (Z.to_nat (off + len data - len c0)) spare) =
                       off + len data).
          { rewrite <- Htk. unfold len in *. rewrite length_take. lia. }
          rewrite Hl. split; [lia|]. split; [right; reflexivity|].
          split; [discriminate|].
          split; [reflexivity|]. split; [reflexivity|]. reflexivity.
    - exists [], (n, spare). split; [reflexivity|]. cbn [fst]. fold c.
      rewrite app_nil_r. split; [reflexivity|]. split; [lia|]. split; [left; reflexivity|].
      split; [|split; [reflexivity|split; reflexivity]].
      intros Hnil. subst c. rewrite Hnil. reflexivity. }
  destruct Hresized as (filler & f1 & Hres & Hc1 & Hl1 & Hfill & Hnil1 & Ht1 & Hs1 & Hset).
  set (base := c ++ filler) in *.
  set (c' := take (Z.to_nat off) base ++ data ++ drop (Z.to_nat (off + len data)) base).
  destruct (spliced_facts c filler data off Hoff ltac:(fold base; lia) Hfill)
    as (Hlen' & Hread & Hbefore & Hafter).
  fold base in Hlen', Hread, Hbefore, Hafter. fold c' in Hlen', Hread, Hbefore, Hafter.
  set (content' := match content (fst f1) with Nil => Nil | Slice _ => Slice c' end).
  assert (Hdata' : data_of content' = c').
  { subst content'. destruct (content (fst f1)) eqn:Hcf; [|reflexivity].
    cbn [data_of]. specialize (Hnil1 eq_refl). fold base in Hnil1.
    subst c'. rewrite Hnil1 in *. rewrite take_nil, drop_nil.
    destruct data; [reflexivity|]. unfold len in Hl1. cbn in Hl1. lia. }
  exists (set_shouldSaveContent (shouldSaveContent n || (0 <? len data))
            (set_Time now (set_content content' n))), (snd f1).
  split.
  - unfold Write. rewrite (bind_done _ _ (n, spare) (n, spare) (n, spare)) by reflexivity.
    cbn [fst]. fold c. rewrite (bind_done _ _ _ _ _ Hres).
    assert (Hw : write_at off data f1 = Done (tt, (set_content content' n, snd f1))).
    { unfold write_at. rewrite Hc1. fold base. unfold slice_from.
      rewrite bool_decide_eq_true_2 by lia. cbn [obind].
      rewrite spliced by lia. fold c'. fold content'. rewrite Hset. reflexivity. }
    rewrite (bind_done _ _ _ _ _ Hw).
    unfold bind, modify, ret. cbn [fst snd].
    destruct (Z.gtb_spec (len data) 0) as [Hpos|Hzero].
    + replace (0 <? len data) with true by (symmetry; apply Z.ltb_lt; lia).
      rewrite orb_true_r. cbn [fst snd]. reflexivity.
    + replace (0 <? len data) with false by (symmetry; apply Z.ltb_ge; lia).
      rewrite orb_false_r. cbn [fst snd].
      destruct n; reflexivity.
  - cbn [content set_shouldSaveContent set_Time set_content Time shouldSaveContent].
    rewrite Hdata'. split; [|split; [|split; [|split; [|split]]]].
    + unfold Read. cbn [content set_shouldSaveContent set_Time set_content].
      rewrite Hdata'.
      destruct (Z.gtb_spec off (len c')) as [Hgt|_]; [lia|].
      destruct (Z.gtb_spec (off + len data) (len c')) as [Hgt|_]; [lia|].
      unfold slice_range. rewrite bool_decide_eq_true_2 by lia.
      replace (off + len data - off) with (len data) by lia.
      eexists. split; [reflexivity|]. exact Hread.
    + lia.
    + exact Hbefore.
    + exact Hafter.
    + reflexivity.
    + reflexivity.
Qed.


Lemma Write_then_Read_witness :
  exists n' spare',
    Write 7 (list_byte_of_string "XY") 3 (dirty, []) = Done ((2, 0), (n', spare')) /\
    data_of (content n') = list_byte_of_string "datXY".
Proof.
  destruct (Write_then_Read dirty [] (list_byte_of_string "XY") 7 3)
    as (n' & spare' & HW & _); [lia | vm_compute; reflexivity |].
  exists n', spare'. split; [exact HW|].
  vm_compute in HW. injection HW as <- _. reflexivity.
Defined.

Section Attributes.
Context {M B : Type} {HM : VersionedStore M} {HB : BlobStore B}.

(** The bits of the file type come through a change of mode. *)
Lemma mode_type_kept (old mode : Z) :
  Z.land (Z.lor (Z.land old 4294963200) (Z.land mode 4095)) 61440 = Z.land old 61440.
Proof.
  rewrite Z.land_lor_distr_l, <- !Z.land_assoc.
  change (Z.land 4294963200 61440) with 61440.
  change (Z.land 4095 61440) with 0.
  rewrite Z.land_0_r, Z.lor_0_r. reflexivity.
Qed.

(** The content after [resize]: as long as asked, and starting with the
    bytes it had. *)
Lemma resize_length (size : Z) (f : file) :
  0 <= size ->
  exists prev f',
    resize size f = Done (prev, f') /\
    prev = (content (fst f), snd f) /\
    len (data_of (content (fst f'))) = size /\
    take (Z.to_nat (Z.min size (len (data_of (content (fst f))))))
         (data_of (content (fst f'))) =
      take (Z.to_nat (Z.min size (len (data_of (content (fst f))))))
           (data_of (content (fst f))) /\
    forall v, set_content v (fst f') = set_content v (fst f).
Proof.
  intros Hsize. destruct f as [n spare]. unfold resize. cbn [fst snd].
  pose proof (len_nonneg (data_of (content n))) as Hc.
  destruct (Z.gtb_spec size (len (array (n, spare)))) as [Hgrow|Hfit].
  - eexists _, _. split; [reflexivity|]. split; [reflexivity|].
    cbn [fst snd content set_content data_of].
    assert (Hle : len (data_of (content n)) <= size).
    { unfold array in Hgrow. cbn [fst snd] in Hgrow.
      destruct (content n); cbn [data_of] in *; [unfold len; cbn; lia|].
      rewrite len_app in Hgrow. pose proof (len_nonneg spare). lia. }
    rewrite copy_make by exact Hle.
    split; [|split].
    + rewrite len_app. unfold make, len. rewrite length_replicate. unfold len in *. lia.
    + rewrite Z.min_r by exact Hle. apply take_app_le. unfold len. lia.
    + intros v. destruct n; reflexivity.
  - unfold reslice, array in *. cbn [fst snd] in *.
    destruct (content n) as [|c0] eqn:Hcn; cbn [data_of] in *.
    + eexists _, _. split; [reflexivity|]. split; [reflexivity|].
      cbn [fst]. rewrite Hcn. cbn [data_of].
      unfold len in *. cbn [length] in *. split; [lia|]. split; [reflexivity|].
      reflexivity.
    + eexists _, _. split; [reflexivity|]. split; [reflexivity|].
      cbn [fst snd content set_content data_of].
      split; [|split].
      * unfold len in *. rewrite length_take. lia.
      * rewrite take_take.
        replace (Z.to_nat (Z.min size (len c0)) `min` Z.to_nat size)%nat
          with (Z.to_nat (Z.min size (len c0))) by lia.
        apply take_app_le. unfold len. lia.
      * intros v. destruct n; reflexivity.
Qed.

(** [resize] returns the slice it found and changes the content only. *)
Lemma resize_done (size : Z) (f : file) :
  exists f',
    resize size f = Done ((content (fst f), snd f), f') /\
    User (fst f') = User (fst f) /\ Group (fst f') = Group (fst f) /\
    Mode (fst f') = Mode (fst f) /\
    (0 <= size ->
     len (data_of (content (fst f'))) = size /\
     take (Z.to_nat (Z.min size (len (data_of (content (fst f))))))
          (data_of (content (fst f'))) =
       take (Z.to_nat (Z.min size (len (data_of (content (fst f))))))
            (data_of (content (fst f)))).
Proof.
  assert (Hdone : exists f',
            resize size f = Done ((content (fst f), snd f), f') /\
            User (fst f') = User (fst f) /\ Group (fst f') = Group (fst f) /\
            Mode (fst f') = Mode (fst f)).
  { destruct f as [n spare]. unfold resize, reslice. cbn [fst snd].
    destruct (size >? len (array (n, spare))).
    - eexists. split; [reflexivity|]. repeat split; reflexivity.
    - destruct (content n) eqn:Hcn;
        (eexists; split; [reflexivity|]; repeat split; reflexivity). }
  destruct Hdone as (f' & Hres & HU & HG & HMo). exists f'.
  repeat (split; [assumption|]). intros Hsize.
  destruct (resize_length size f Hsize) as (prev & f2 & Hres2 & _ & Hlen & Htake & _).
  rewrite Hres in Hres2. injection Hres2 as _ <-. split; assumption.
Qed.

(** X26. [Setattr], when the [sync] on the node with the requested
    attributes returns: it returns the errno of [sync], and the bits of the
    file type (0170000) of the mode are those of the node before. After a
    success the owner and the group are those of the request where it has
    them, the low twelve bits of the mode (07777) are those of the request,
    the time is that of the call when a size was requested and otherwise
    the requested one if there is one, and the content has the requested
    size and starts with the bytes it had. After a failure the owner, the
    group, the mode and the content (with its capacity) are those before
    the call; the time is restored when the request had one, and is
    otherwise left at the time of the call when a size was requested. *)
Theorem Setattr_applies_or_rolls_back (h : heap) (now : Z) (in_ : SetAttrIn)
    (n n2 : CryptNode) (spare : list byte) (m : M) (b : B) (st' : M * B)
    (errno : Z) :
  sync h (fst (requested now in_ (n, spare)), (m, b)) = Done (errno, (n2, st')) ->
  exists n' spare',
    Setattr h now in_ ((n, (m, b)), spare) = Done (errno, ((n', st'), spare')) /\
    Z.land (Mode n') 61440 = Z.land (Mode n) 61440 /\
    (errno = 0 ->
     User n' = default (User n) (GetUID in_) /\
     Group n' = default (Group n) (GetGID in_) /\
     Mode n' = match GetMode in_ with
               | Some mode => Z.lor (Z.land (Mode n) 4294963200) (Z.land mode 4095)
               | None => Mode n
               end /\
     Time n' = match GetSize in_, GetMTime in_ with
               | Some _, _ => now
               | None, Some t => t
               | None, None => Time n
               end /\
     forall size, GetSize in_ = Some size -> 0 <= size ->
       len (data_of (content n')) = size /\
       take (Z.to_nat (Z.min size (len (data_of (content n))))) (data_of (content n')) =
         take (Z.to_nat (Z.min size (len (data_of (content n))))) (data_of (content n))) /\
    (errno <> 0 ->
     User n' = User n /\ Group n' = Group n /\ Mode n' = Mode n /\
     content n' = content n /\ spare' = spare /\
     Time n' = match GetSize in_, GetMTime in_ with
               | Some _, None => now
               | _, _ => Time n
               end).
Proof.
  intros Hsync.
  destruct in_ as [[t|] [u|] [g|] [md|] [sz|]];
    unfold requested in Hsync;
    cbn [GetMTime GetUID GetGID GetMode GetSize fst snd] in *.
  all: try match type of Hsync with
           | context [resize ?s ?f] =>
               destruct (resize_done s f) as (f' & Hres & HU' & HG' & HMo' & Hlen);
               rewrite Hres in Hsync;
               cbn [fst snd User Group Mode Time content set_Time set_User
                    set_Group set_Mode] in Hsync, HU', HG', HMo', Hlen
           end.
  all: destruct (OperationFacts.sync_frame h _ _ _ Hsync)
         as (HU & HG & HMo & HT & _ & _ & _ & HC & _);
       cbn [fst User Group Mode Time content set_shouldSaveMetadata set_Time set_User
            set_Group set_Mode set_shouldSaveContent] in HU, HG, HMo, HT, HC.
  all: unfold Setattr, when, on_world, on_content, on_node; go_unfold;
    cbn [GetMTime GetUID GetGID GetMode GetSize fst snd fmap option_fmap option_map];
    try rewrite Hres; cbn [fst snd]; rewrite Hsync; cbn [fst snd].
  all: destruct (Z.eqb_spec errno 0) as [Hz|Hnz]; cbn [negb fst snd];
    eexists _, _; (split; [reflexivity|]);
    cbn [fst snd User Group Mode Time content set_shouldSaveMetadata set_Time set_User
         set_Group set_Mode set_shouldSaveContent set_content default].
  all: rewrite ?HU, ?HG, ?HMo, ?HT, ?HC, ?HU', ?HG', ?HMo'.
  all: split; [first [apply mode_type_kept | reflexivity]|].
  all: split; [intros Hz'; try contradiction|intros Hnz'; try contradiction].
  all: repeat match goal with |- _ /\ _ => split end; try reflexivity.
  all: intros size Heq Hsize; try discriminate Heq.
  all: injection Heq as <-; apply Hlen; exact Hsize.
Qed.

End Attributes.

Lemma Setattr_applies_or_rolls_back_witness :
  exists n' spare' st',
    Setattr (HM := fakeVersionedStore_VersionedStore) (HB := memory_blobs) ∅ 7
      owner_mode_size ((dirty, (ko, InMemorySTore.NewInMemoryStore)), []) =
      Done (EIO, ((n', st'), spare')) /\
    User n' = 1000 /\ Mode n' = 33188 /\
    content n' = Slice (list_byte_of_string "data") /\ Time n' = 7.
Proof.
  edestruct (fun n2 st' =>
               Setattr_applies_or_rolls_back (HM := fakeVersionedStore_VersionedStore)
                 (HB := memory_blobs) ∅ 7 owner_mode_size dirty n2 []
                 ko InMemorySTore.NewInMemoryStore st' EIO)
    as (n' & spare' & HS & _ & _ & Hko).
  - vm_compute. reflexivity.
  - exists n', spare'. eexists. split; [exact HS|].
    destruct (Hko ltac:(discriminate)) as (HU & _ & HMo & HC & _ & HT).
    repeat split; assumption.
Defined.

End ContentIOFacts.

(** ** The generator of inode numbers *)

Module GeneratorFacts.
Import node node.InodeNumbersGenerator Conditions.

Lemma in_sequence_snoc (l : list Z) :
  in_sequence l -> in_sequence (l ++ [uint64 (2 + Z.of_nat (length l))]).
Proof.
  intros Hl k v Hk. destruct (decide (k < length l)%nat) as [Hlt|Hge].
  - rewrite lookup_app_l in Hk by exact Hlt. apply Hl. exact Hk.
  - rewrite lookup_app_r in Hk by lia.
    destruct (k - length l)%nat as [|d] eqn:Hd; cbn in Hk; [|destruct d; discriminate].
    injection Hk as <-. f_equal. lia.
Qed.

Lemma exec_kept (e : event) (s s' : system) (received : list Z) (v : option Z) :
  kept received s -> exec e s = Some (v, s') ->
  kept (received ++ match v with Some x => [x] | None => [] end) s' /\
  length (loops s') = (length (loops s) + starts [e])%nat.
Proof.
  intros [Hcap Hseq] He. destruct s as [[buf closed] ls]. cbn [generator loops nextCh] in *.
  destruct e; cbn [exec generator loops] in He.
  - (* Start *)
    injection He as <- <-. unfold kept.
    cbn [generator loops nextCh starts List.filter length].
    rewrite app_nil_r, length_app. cbn [length]. split; [|lia].
    split; [exact Hcap|]. intros Hone. cbn zeta.
    assert (Hls : ls = []) by (destruct ls; [reflexivity|cbn [length] in Hone; lia]).
    subst ls. destruct (Hseq ltac:(cbn; lia)) as (Hin & _ & Hnil).
    rewrite (Hnil eq_refl) in *. split; [exact Hin|]. split.
    + intros ino [= <-]. reflexivity.
    + discriminate.
  - (* a send *)
    destruct (ls !! i) as [r|] eqn:Hi; cbn [mbind option_bind] in He; [|discriminate].
    unfold case_send in He. destruct r as [ino|]; [|discriminate].
    cbn [nextCh] in He.
    destruct (bool_decide (length buf < 42)%nat) eqn:Hroom; [|discriminate].
    apply bool_decide_eq_true_1 in Hroom. cbn [mbind option_bind fst snd] in He.
    injection He as <- <-. unfold kept.
    cbn [generator loops nextCh starts List.filter length].
    rewrite app_nil_r, length_insert, length_app. cbn [length]. split; [|lia].
    split; [lia|]. intros Hone. cbn zeta.
    assert (Hls : ls = [Looping ino] /\ i = 0%nat).
    { destruct ls as [|r0 [|r1 rest]]; [discriminate| |cbn in Hone; lia].
      destruct i; [|discriminate]. injection Hi as ->. split; reflexivity. }
    destruct Hls as [-> ->]. destruct (Hseq ltac:(cbn; lia)) as (Hin & Hino & _).
    rewrite (Hino ino eq_refl). rewrite app_assoc. split; [apply in_sequence_snoc, Hin|].
    split.
    + intros ino' [= <-]. rewrite !length_app. cbn [length].
      unfold uint64. rewrite Zplus_mod_idemp_l. f_equal. lia.
    + discriminate.
  - (* the stop case *)
    destruct (ls !! i) as [r|] eqn:Hi; cbn [mbind option_bind] in He; [|discriminate].
    unfold case_stop in He. destruct r as [ino|]; [|discriminate].
    cbn [stopCh] in He. destruct closed; [|discriminate].
    cbn [mbind option_bind fst snd] in He.
    injection He as <- <-. unfold kept.
    cbn [generator loops nextCh starts List.filter length].
    rewrite app_nil_r, length_insert. split; [|lia].
    split; [exact Hcap|]. intros Hone. cbn zeta.
    destruct (Hseq Hone) as (Hin & _ & _). split; [exact Hin|]. split.
    + intros ino' Heq. destruct ls as [|r0 [|r1 rest]]; [discriminate| |cbn in Hone; lia].
      destruct i; [|discriminate Hi]. cbn in Heq. discriminate Heq.
    + intros Heq. apply (f_equal length) in Heq. rewrite length_insert in Heq.
      destruct ls; [discriminate Hi|discriminate Heq].
  - (* Next *)
    unfold Next in He. cbn [nextCh] in He.
    destruct buf as [|x rest]; [discriminate|]. cbn [mbind option_bind fst snd] in He.
    injection He as <- <-. unfold kept.
    cbn [generator loops nextCh starts List.filter length].
    split; [|lia]. split; [cbn [length] in Hcap; lia|]. intros Hone. cbn zeta.
    rewrite <- app_assoc. cbn [app]. destruct (Hseq Hone) as (Hin & Hino & Hnil).
    split; [exact Hin|]. split; [exact Hino|].
    intros Hls. specialize (Hnil Hls). destruct received; discriminate Hnil.
  - (* Stop *)
    unfold Stop in He. cbn [stopCh nextCh] in He. destruct closed; [discriminate|].
    injection He as <- <-. unfold kept.
    cbn [generator loops nextCh starts List.filter length].
    rewrite app_nil_r. split; [|lia]. split; [exact Hcap|exact Hseq].
Qed.

Lemma starts_cons (e : event) (es : list event) :
  starts (e :: es) = (starts [e] + starts es)%nat.
Proof. unfold starts. cbn [List.filter]. destruct e; reflexivity. Qed.

Lemma run_kept (es : list event) :
  forall (s s' : system) (received out : list Z),
    kept received s -> run es s = Some (out, s') ->
    kept (received ++ out) s' /\
    length (loops s') = (length (loops s) + starts es)%nat.
Proof.
  induction es as [|e es IH]; intros s s' received out Hk Hrun.
  - injection Hrun as <- <-. rewrite app_nil_r. split; [exact Hk|]. cbn. lia.
  - cbn [run] in Hrun. destruct (exec e s) as [[v s1]|] eqn:He; [|discriminate].
    cbn [mbind option_bind fst snd] in Hrun.
    destruct (run es s1) as [[out1 s2]|] eqn:Hr; [|discriminate].
    cbn [mbind option_bind fst snd] in Hrun. injection Hrun as <- <-.
    destruct (exec_kept e s s1 received v Hk He) as [Hk1 Hl1].
    destruct (IH s1 s2 _ out1 Hk1 Hr) as [Hk2 Hl2].
    rewrite starts_cons. split; [|lia].
    destruct v; rewrite <- app_assoc in Hk2; exact Hk2.
Qed.

Lemma kept_at_first : kept [] {| generator := NewInodeNumbersGenerator; loops := [] |}.
Proof.
  split; [cbn; lia|]. intros _. cbn. split; [|split].
  - intros k v Hk. rewrite lookup_nil in Hk. discriminate.
  - discriminate.
  - reflexivity.
Qed.

(** X27. With one call of [Start] at most, whatever the order of the
    events: the calls of [Next] that return, return 2, 3, 4, ... in the
    order of the calls (modulo 2^64, the counter is a [uint64]); so the
    first 2^64 - 2 of them return no number twice, and neither 0 nor 1,
    the number of the root. *)
Theorem Next_counts_from_two (es : list event) (out : list Z) (s : system) :
  run es {| generator := NewInodeNumbersGenerator; loops := [] |} = Some (out, s) ->
  (starts es <= 1)%nat ->
  (forall k v, out !! k = Some v -> v = uint64 (2 + Z.of_nat k)) /\
  (forall i j v w,
     Z.of_nat i < 2 ^ 64 - 2 -> Z.of_nat j < 2 ^ 64 - 2 ->
     out !! i = Some v -> out !! j = Some w ->
     2 <= v /\ (v = w -> i = j)).
Proof.
  intros Hrun Hstarts.
  destruct (run_kept es _ _ [] out kept_at_first Hrun) as [[_ Hk] Hl].
  cbn [loops length] in Hl. destruct (Hk ltac:(lia)) as (Hin & _ & _).
  cbn [app] in Hin.
  assert (Hout : forall k v, out !! k = Some v -> v = uint64 (2 + Z.of_nat k)).
  { intros k v Hkv. apply Hin. apply lookup_app_l_Some. exact Hkv. }
  split; [exact Hout|]. intros i j v w Hi Hj Hv Hw.
  rewrite (Hout i v Hv), (Hout j w Hw). unfold uint64.
  rewrite !Z.mod_small by lia. lia.
Qed.

Lemma Next_counts_from_two_witness :
  run [CallStart; Sends 0; Sends 0; CallNext; CallStop; Sends 0; CallNext; Quits 0;
       CallNext]
      {| generator := NewInodeNumbersGenerator; loops := [] |} =
    Some ([2; 3; 4], {| generator := {| nextCh := []; stopCh := true |};
                        loops := [Returned] |}) /\
  forall k v, [2; 3; 4] !! k = Some v -> v = uint64 (2 + Z.of_nat k).
Proof.
  split; [reflexivity|].
  apply (Next_counts_from_two
           [CallStart; Sends 0; Sends 0; CallNext; CallStop; Sends 0; CallNext; Quits 0;
            CallNext]
           [2; 3; 4]
           {| generator := {| nextCh := []; stopCh := true |}; loops := [Returned] |});
    [reflexivity | vm_compute; lia].
Defined.

(** Without a loop that runs and without a new [Start], the buffer only
    loses numbers, to the calls of [Next]. *)
Lemma run_drains (es : list event) :
  forall (s s' : system) (out : list Z),
    Forall (fun r => r = Returned) (loops s) -> starts es = 0%nat ->
    run es s = Some (out, s') ->
    out ++ nextCh (generator s') = nextCh (generator s).
Proof.
  induction es as [|e es IH]; intros s s' out Hret Hstarts Hrun.
  - injection Hrun as <- <-. reflexivity.
  - cbn [run] in Hrun. destruct (exec e s) as [[v s1]|] eqn:He; [|discriminate].
    cbn [mbind option_bind fst snd] in Hrun.
    destruct (run es s1) as [[out1 s2]|] eqn:Hr; [|discriminate].
    cbn [mbind option_bind fst snd] in Hrun. injection Hrun as <- <-.
    rewrite starts_cons in Hstarts.
    assert (Hstep : loops s1 = loops s /\
                    match v with Some x => [x] | None => [] end ++ nextCh (generator s1) =
                      nextCh (generator s)).
    { destruct s as [[buf closed] ls]. cbn [generator loops nextCh] in *.
      destruct e; cbn [exec generator loops] in He.
      - cbn in Hstarts. lia.
      - destruct (ls !! i) as [r|] eqn:Hi; cbn [mbind option_bind] in He; [|discriminate].
        rewrite (proj1 (Forall_lookup _ _) Hret i r Hi) in He. discriminate He.
      - destruct (ls !! i) as [r|] eqn:Hi; cbn [mbind option_bind] in He; [|discriminate].
        rewrite (proj1 (Forall_lookup _ _) Hret i r Hi) in He. discriminate He.
      - unfold Next in He. cbn [nextCh] in He.
        destruct buf as [|x rest]; [discriminate|].
        cbn [mbind option_bind fst snd] in He. injection He as <- <-.
        split; reflexivity.
      - unfold Stop in He. cbn [stopCh nextCh] in He. destruct closed; [discriminate|].
        injection He as <- <-. split; reflexivity. }
    destruct Hstep as [Hloops Hbuf]. rewrite <- Hbuf.
    rewrite <- (IH s1 s2 out1); [destruct v; reflexivity| |lia|exact Hr].
    rewrite Hloops. exact Hret.
Qed.

(** X28. Once every [Start] has returned, and as long as [Start] is not
    called again: the calls of [Next] that return, return the numbers that
    were left in the buffer, in their order, so 42 of them at most; every
    call of [Next] after these blocks for ever. *)
Theorem Next_after_the_loops_returned (es es' : list event) (out out' : list Z)
    (s s' : system) :
  run es {| generator := NewInodeNumbersGenerator; loops := [] |} = Some (out, s) ->
  Forall (fun r => r = Returned) (loops s) ->
  starts es' = 0%nat ->
  run es' s = Some (out', s') ->
  out' ++ nextCh (generator s') = nextCh (generator s) /\
  (length out' <= 42)%nat /\
  (length out' = length (nextCh (generator s)) -> run (es' ++ [CallNext]) s = None).
Proof.
  intros Hrun Hret Hstarts Hrun'.
  destruct (run_kept es _ _ [] out kept_at_first Hrun) as [[Hcap _] _].
  pose proof (run_drains es' s s' out' Hret Hstarts Hrun') as Hdrain.
  split; [exact Hdrain|]. split.
  - rewrite <- Hdrain, length_app in Hcap. lia.
  - intros Hall. rewrite <- Hdrain, length_app in Hall.
    assert (Hempty : nextCh (generator s') = [])
      by (destruct (nextCh (generator s')); [reflexivity|cbn [length] in Hall; lia]).
    clear Hdrain Hall Hstarts Hrun Hret Hcap. revert s out' Hrun'.
    induction es' as [|e es' IH]; intros s out' Hrun'.
    + injection Hrun' as <- <-. cbn [app run exec]. unfold Next. rewrite Hempty.
      reflexivity.
    + cbn [app run] in *. destruct (exec e s) as [[v s1]|]; [|reflexivity].
      cbn [mbind option_bind fst snd] in *.
      destruct (run es' s1) as [[out1 s2]|] eqn:Hr; [|discriminate].
      cbn [mbind option_bind fst snd] in Hrun'. injection Hrun' as _ ->.
      rewrite (IH s1 out1 Hr). reflexivity.
Qed.

Lemma Next_after_the_loops_returned_witness :
  run [CallNext; CallNext]
      {| generator := {| nextCh := [4; 5]; stopCh := true |}; loops := [Returned] |} =
    Some ([4; 5], {| generator := {| nextCh := []; stopCh := true |};
                     loops := [Returned] |}) /\
  run ([CallNext; CallNext] ++ [CallNext])
      {| generator := {| nextCh := [4; 5]; stopCh := true |}; loops := [Returned] |} =
    None.
Proof.
  split; [reflexivity|].
  apply (Next_after_the_loops_returned
           [CallStart; Sends 0; Sends 0; CallNext; Sends 0; CallNext; Sends 0; CallStop;
            Quits 0]
           [CallNext; CallNext] [2; 3] [4; 5]
           {| generator := {| nextCh := [4; 5]; stopCh := true |}; loops := [Returned] |}
           {| generator := {| nextCh := []; stopCh := true |}; loops := [Returned] |});
    first [reflexivity | repeat constructor].
Defined.

End GeneratorFacts.

(** ** Loading the metadata *)

Module LoadingFacts.
Import storage node Statements Conditions Fixtures Samples.

(** *** Reading what was written *)

Lemma get_be (n : nat) (v : Z) (rest : list byte) :
  bits.get n (be_bytes n v ++ rest) = Done (v mod 2 ^ (8 * Z.of_nat n), rest).
Proof.
  unfold bits.get.
  pose proof (len_be_bytes n v) as Hl. unfold len in Hl.
  rewrite bool_decide_eq_true_2 by (rewrite length_app; lia).
  rewrite take_app_length', drop_app_length' by lia.
  rewrite be_value_be_bytes. f_equal.
Qed.

Lemma Getb_put (v rest : list byte) :
  len v < 65536 ->
  bits.Getb ((be_bytes 2 (len v) ++ v) ++ rest) = Done (v, rest).
Proof.
  intros Hv. pose proof (len_nonneg v) as H0.
  unfold bits.Getb, bits.Get16. rewrite <- app_assoc, get_be. cbn [obind fst snd].
  change (2 ^ (8 * Z.of_nat 2)) with 65536. rewrite Z.mod_small by lia.
  unfold len. rewrite Nat2Z.id.
  rewrite bool_decide_eq_true_2 by (rewrite length_app; lia).
  rewrite take_app_length, drop_app_length. reflexivity.
Qed.

Lemma Gets_put (s : string) (rest : list byte) :
  strlen s < 65536 ->
  bits.Gets ((be_bytes 2 (len (list_byte_of_string s)) ++ list_byte_of_string s) ++ rest) =
    Done (s, rest).
Proof.
  intros Hs. unfold bits.Gets.
  rewrite Getb_put by (rewrite len_list_byte_of_string; exact Hs).
  cbn [obind fst snd]. rewrite string_of_list_byte_of_string. reflexivity.
Qed.

(** *** What [serialize] writes *)

Lemma for_each_emits {A} (enc : A -> list byte) (P : A -> Prop)
    (body : A -> Go (list byte * list byte) unit) (l : list A) :
  (forall x c, P x -> len (enc x) <= len (snd c) ->
     body x c = Done (tt, (fst c ++ enc x, drop (length (enc x)) (snd c)))) ->
  Forall P l ->
  forall c : list byte * list byte,
    len (concat (map enc l)) <= len (snd c) ->
    for_each l body c =
      Done (tt, (fst c ++ concat (map enc l),
                 drop (length (concat (map enc l))) (snd c))).
Proof.
  intros Hbody HP. induction HP as [|x l Hx HP IH]; intros c Hroom.
  - cbn. rewrite app_nil_r. destruct c; reflexivity.
  - cbn [map concat for_each] in *. rewrite len_app in Hroom.
    pose proof (len_nonneg (concat (map enc l))) as H0.
    pose proof (len_nonneg (enc x)) as H1.
    rewrite (bind_done _ _ _ _ _ (Hbody x c Hx ltac:(lia))).
    rewrite IH.
    + cbn [fst snd]. rewrite <- app_assoc, drop_drop, length_app. reflexivity.
    + cbn [snd]. unfold len in *. rewrite length_drop. lia.
Qed.

Lemma fold_left_cost {A} (f : Z -> A -> Z) (enc : A -> list byte) (P : A -> Prop)
    (l : list A) (z : Z) :
  (forall z x, P x -> f z x = z + len (enc x)) ->
  Forall P l ->
  fold_left f l z = z + len (concat (map enc l)).
Proof.
  intros Hcost HP. revert z.
  induction HP as [|x l Hx _ IH]; intros z; cbn [fold_left map concat].
  - unfold len. cbn. lia.
  - rewrite IH, len_app, Hcost by exact Hx. lia.
Qed.

Lemma len_serialized_attr (av : string * bytes) :
  len (serialized_attr av) = 4 + strlen (fst av) + len (data_of (snd av)).
Proof.
  unfold serialized_attr. rewrite !len_app, !len_be_bytes, len_list_byte_of_string. lia.
Qed.

Lemma len_serialized_child (ck : string * list byte) :
  len (serialized_child ck) = 4 + strlen (fst ck) + len (snd ck).
Proof.
  unfold serialized_child. rewrite !len_app, !len_be_bytes, len_list_byte_of_string. lia.
Qed.

(** The bytes of a child as [serialize] finds it in the heap. *)
Lemma keys_in_order_loaded (h : heap) (cs : list (string * addr)) :
  Forall (fun c => exists k, h !! snd c = Some k /\ len (Key k) = NodeKeyLen) cs ->
  concat (map (fun c => match h !! snd c with
                        | Some k => serialized_child (fst c, Key k)
                        | None => []
                        end) cs) =
    concat (map serialized_child
              (omap (fun c : string * addr => (fun k => (fst c, Key k)) <$> h !! snd c) cs)).
Proof.
  induction 1 as [|c cs (k & Hk & _) _ IH]; [reflexivity|].
  cbn [map concat omap list_omap]. rewrite Hk. cbn [fmap option_fmap option_map map concat].
  rewrite IH. reflexivity.
Qed.

(** Two writes through the cursor, one after the other. *)
Lemma emit_two (e1 e2 : list byte) (c : list byte * list byte) :
  len (e1 ++ e2) <= len (snd c) ->
  (emit (bits.put e1);;; emit (bits.put e2))%go c =
    Done (tt, (fst c ++ e1 ++ e2, drop (length (e1 ++ e2)) (snd c))).
Proof.
  intros Hroom. rewrite len_app in Hroom.
  pose proof (len_nonneg e1). pose proof (len_nonneg e2).
  rewrite (bind_done _ _ _ _ _ (SerializeFacts.emit_put e1 c ltac:(lia))).
  rewrite SerializeFacts.emit_put; cbn [fst snd].
  - rewrite <- app_assoc, drop_drop, length_app. reflexivity.
  - unfold len in *. rewrite length_drop. lia.
Qed.

(** One write of [serialize], when the buffer has room for it (the goal
    that is left first). *)
Ltac emit_step E enc :=
  match goal with
  | |- context [(?W, drop (length ?W) ?buf)] =>
      let H := fresh "Hroom" in
      assert (H : len W + len enc <= len buf);
      [rewrite ?len_app, ?len_be_bytes
      |rewrite (bind_done _ _ _ _ _ (E W enc H)); clear H]
  end.

(** [serialize] fills its buffer with the fields in their order. *)
Lemma serialize_serialized (h : heap) (n : CryptNode) :
  children_loaded h n ->
  serialize h n = Done (serialized n (keys_in_order h n)).
Proof.
  intros Hch. unfold serialize, serialized, keys_in_order.
  set (xs := map_to_list (entries (xattrs n))).
  set (cs := map_to_list (entries (Children n))).
  set (cenc := fun c : string * addr =>
                 match h !! snd c with
                 | Some k => serialized_child (fst c, Key k)
                 | None => []
                 end).
  assert (HP : Forall (fun c : string * addr =>
                         exists k, h !! snd c = Some k /\ len (Key k) = NodeKeyLen) cs).
  { apply Forall_forall. intros [name a] Hin. apply (Hch name a).
    apply elem_of_map_to_list. exact Hin. }
  rewrite <- (keys_in_order_loaded h cs HP). fold cenc.
  set (s0 := 24 + len (data_of (contentKey n))).
  rewrite (fold_left_cost _ serialized_attr (fun _ => True) xs s0);
    [|intros z x _; rewrite len_serialized_attr; lia|apply Forall_forall; intros; exact I].
  assert (Hcost : forall (z : Z) (c : string * addr),
            (exists k, h !! snd c = Some k /\ len (Key k) = NodeKeyLen) ->
            z + 4 + NodeKeyLen + strlen (fst c) = z + len (cenc c)).
  { intros z [name a] (k & Hk & Hlen). unfold cenc. cbn [fst snd] in *.
    rewrite Hk, len_serialized_child. cbn [fst snd]. lia. }
  rewrite (fold_left_cost _ cenc _ cs _ Hcost HP).
  set (X := concat (map serialized_attr xs)).
  set (C := concat (map cenc cs)).
  set (size := s0 + len X + len C).
  pose proof (len_nonneg X) as HX. pose proof (len_nonneg C) as HC.
  pose proof (len_nonneg (data_of (contentKey n))) as Hck.
  assert (Hbuf : len (make size) = size).
  { unfold make, len. rewrite length_replicate. subst size s0. lia. }
  set (buf := make size) in *.
  assert (E : forall W enc : list byte,
            len W + len enc <= len buf ->
            emit (bits.put enc) (W, drop (length W) buf) =
              Done (tt, (W ++ enc, drop (length (W ++ enc)) buf))).
  { intros W enc Hroom. pose proof (len_nonneg W). pose proof (len_nonneg enc).
    rewrite SerializeFacts.emit_put; cbn [fst snd].
    - rewrite drop_drop, length_app. reflexivity.
    - unfold len in *. rewrite length_drop. lia. }
  assert (F : forall {A} (enc : A -> list byte) (P : A -> Prop)
                (body : A -> Go (list byte * list byte) unit) (l : list A) (W : list byte),
            (forall x c, P x -> len (enc x) <= len (snd c) ->
               body x c = Done (tt, (fst c ++ enc x, drop (length (enc x)) (snd c)))) ->
            Forall P l ->
            len W + len (concat (map enc l)) <= len buf ->
            for_each l body (W, drop (length W) buf) =
              Done (tt, (W ++ concat (map enc l),
                         drop (length (W ++ concat (map enc l))) buf))).
  { intros A enc P body l W Hbody HPl Hroom.
    pose proof (len_nonneg W). pose proof (len_nonneg (concat (map enc l))).
    rewrite (for_each_emits enc P body l Hbody HPl); cbn [fst snd].
    - rewrite drop_drop, length_app. reflexivity.
    - unfold len in *. rewrite length_drop. lia. }
  change ([], buf) with ([] : list byte, drop (length ([] : list byte)) buf).
  assert (H0 : len [] = 0) by reflexivity.
  unfold bits.Put32, bits.Put64, bits.Put16, bits.Putb at 1.
  emit_step E (be_bytes 4 (uint32 (User n))); [rewrite H0, Hbuf; subst size s0; lia|].
  cbn [app].
  emit_step E (be_bytes 4 (uint32 (Group n))); [rewrite Hbuf; subst size s0; lia|].
  emit_step E (be_bytes 4 (uint32 (Mode n))); [rewrite Hbuf; subst size s0; lia|].
  emit_step E (be_bytes 8 (uint64 (Time n))); [rewrite Hbuf; subst size s0; lia|].
  emit_step E (be_bytes 2 (len (data_of (contentKey n))) ++ data_of (contentKey n));
    [rewrite Hbuf; subst size s0; lia|].
  emit_step E (be_bytes 2 (uint16 (Z.of_nat (length xs))));
    [rewrite Hbuf; subst size s0; lia|].
  match goal with
  | |- context [(?W, drop (length ?W) buf)] =>
      rewrite (bind_done _ _ _ _ _
                 (F _ serialized_attr (fun _ => True) _ xs W
                    ltac:(intros x c _ Hr; unfold bits.Puts, bits.Putb;
                          apply (emit_two _ _ c Hr))
                    ltac:(apply Forall_forall; intros; exact I)
                    ltac:(fold X; rewrite ?len_app, ?len_be_bytes, Hbuf;
                          subst size s0; lia)))
  end.
  fold X.
  assert (Hbody : forall (x : string * addr) (c : list byte * list byte),
            (exists k, h !! snd x = Some k /\ len (Key k) = NodeKeyLen) ->
            len (cenc x) <= len (snd c) ->
            match h !! snd x with
            | Some childNode =>
                (emit (fun b => bits.Puts b (fst x));;;
                 emit (fun b => bits.Putb b (Key childNode)))%go
            | None => panic "invalid memory address or nil pointer dereference"
            end c = Done (tt, (fst c ++ cenc x, drop (length (cenc x)) (snd c)))).
  { intros [name a] c (k & Hk & Hlen) Hr. unfold cenc in *.
    cbn [fst snd] in *. rewrite Hk in *.
    unfold bits.Puts, bits.Putb. apply (emit_two _ _ c Hr). }
  match goal with
  | |- context [(?W, drop (length ?W) buf)] =>
      assert (Hroom : len W + len (concat (map cenc cs)) <= len buf)
        by (fold C; rewrite ?len_app, ?len_be_bytes, Hbuf; subst size s0; lia);
      rewrite (F _ cenc _
                 (fun x : string * addr =>
                    match h !! snd x with
                    | Some childNode =>
                        (emit (fun b => bits.Puts b (fst x));;;
                         emit (fun b => bits.Putb b (Key childNode)))%go
                    | None => panic "invalid memory address or nil pointer dereference"
                    end) cs W Hbody HP Hroom)
  end.
  fold C. cbn [obind fst snd]. f_equal.
  rewrite drop_ge.
  - rewrite app_nil_r, <- !app_assoc. reflexivity.
  - match goal with |- (length buf <= length ?W)%nat => assert (len buf <= len W) end;
      [|unfold len in *; lia].
    rewrite ?len_app, ?len_be_bytes, Hbuf. subst size s0. lia.
Qed.

(** *** Reading the attributes and the children back *)

(** Assignments to a map in the order of a list without a repeated key. *)
Lemma foldl_insert_lookup {V W} (g : V -> W) (l : list (string * V)) :
  forall (m0 : gmap string W) (k : string),
    NoDup l.*1 ->
    foldl (fun m x => <[fst x := g (snd x)]> m) m0 l !! k =
      match (list_to_map l : gmap string V) !! k with
      | Some v => Some (g v)
      | None => m0 !! k
      end.
Proof.
  induction l as [|[a v] l IH]; intros m0 k Hnd; cbn [foldl fst snd].
  - change (list_to_map [] : gmap string V) with (∅ : gmap string V).
    rewrite lookup_empty. reflexivity.
  - cbn [fmap list_fmap] in Hnd. apply NoDup_cons in Hnd as [Ha Hnd].
    rewrite IH by exact Hnd. cbn [list_to_map foldr fst snd].
    destruct (decide (a = k)) as [->|Hne].
    + rewrite lookup_insert_eq.
      rewrite (not_elem_of_list_to_map_1 (M := gmap string)) by exact Ha.
      rewrite lookup_insert_eq. reflexivity.
    + rewrite !lookup_insert_ne by exact Hne. reflexivity.
Qed.

Lemma set_xattrs_twice (v w : option (gmap string bytes)) (n : CryptNode) :
  set_xattrs v (set_xattrs w n) = set_xattrs v n.
Proof. destruct n; reflexivity. Qed.

Lemma set_Children_twice (v w : option (gmap string addr)) (n : CryptNode) :
  set_Children v (set_Children w n) = set_Children v n.
Proof. destruct n; reflexivity. Qed.

(** The loop over the attributes reads what [serialize] wrote for them. *)
Lemma read_xattrs_serialized (xs : list (string * bytes)) :
  forall (rest : list byte) (node : CryptNode) (m0 : gmap string bytes),
    xattrs node = Some m0 ->
    Forall (fun av => strlen (fst av) < 65536 /\ len (data_of (snd av)) < 65536) xs ->
    read_xattrs (length xs) (concat (map serialized_attr xs) ++ rest) node =
      Done (rest,
            set_xattrs
              (Some (foldl (fun m av => <[fst av := Slice (data_of (snd av))]> m) m0 xs))
              node).
Proof.
  induction xs as [|[a v] xs IH]; intros rest node m0 Hm Hfit.
  - cbn. rewrite <- Hm. destruct node; reflexivity.
  - apply Forall_cons in Hfit as [[Ha Hv] Hfit]. cbn [fst snd] in Ha, Hv.
    cbn [length read_xattrs map concat foldl fst snd].
    set (tail := concat (map serialized_attr xs) ++ rest).
    assert (Hin : (serialized_attr (a, v) ++ concat (map serialized_attr xs)) ++ rest =
                  (be_bytes 2 (len (list_byte_of_string a)) ++ list_byte_of_string a) ++
                  (be_bytes 2 (len (data_of v)) ++ data_of v) ++ tail).
    { unfold serialized_attr, tail. cbn [fst snd]. rewrite <- !app_assoc. reflexivity. }
    rewrite Hin.
    rewrite (bind_done _ _ node node
               (a, (be_bytes 2 (len (data_of v)) ++ data_of v) ++ tail))
      by (unfold lift; rewrite Gets_put by exact Ha; reflexivity).
    cbn [fst snd].
    rewrite (bind_done _ _ node node (data_of v, tail))
      by (unfold lift; rewrite Getb_put by exact Hv; reflexivity).
    cbn [fst snd].
    rewrite (bind_done _ _ node (set_xattrs (Some (<[a := Slice (data_of v)]> m0)) node) tt);
      [|unfold assign; rewrite Hm; reflexivity].
    unfold tail.
    rewrite (IH rest _ (<[a := Slice (data_of v)]> m0)); [|destruct node; reflexivity|exact Hfit].
    rewrite set_xattrs_twice. reflexivity.
Qed.

Lemma ExistingNode_allocates (name : string) (key : list byte)
    (f : CryptNodeFactory) (h : heap) :
  exists f',
    ExistingNode name key (f, h) =
      Done (fresh (dom h), (f', <[fresh (dom h) := discovered name key]> h)).
Proof.
  unfold ExistingNode, allocate, addKnown. go_unfold. cbn [fst snd].
  rewrite lookup_insert_eq. cbn [Key].
  destruct (_ !! key); eexists; reflexivity.
Qed.

Lemma copy_whole (src : list byte) (n : Z) :
  len src = n -> copy (make n) src = src.
Proof.
  intros Hn. unfold copy, make. rewrite length_replicate.
  apply take_app_length'. unfold len in Hn. lia.
Qed.

(** The keys by name after one more child at a new address. *)
Lemma keys_insert_fresh (h : heap) (m0 : gmap string addr) (c : string) (k : CryptNode) :
  (forall c a, m0 !! c = Some a -> a ∈ dom h) ->
  omap (fun a => Key <$> <[fresh (dom h) := k]> h !! a) (<[c := fresh (dom h)]> m0) =
    <[c := Key k]> (omap (fun a => Key <$> h !! a) m0).
Proof.
  intros Hdom. apply map_eq. intros i. rewrite lookup_omap.
  destruct (decide (c = i)) as [->|Hne].
  - rewrite !lookup_insert_eq. cbn [mbind option_bind]. rewrite lookup_insert_eq. reflexivity.
  - rewrite !lookup_insert_ne by exact Hne. rewrite lookup_omap.
    destruct (m0 !! i) as [a|] eqn:Hi; [|reflexivity]. cbn [mbind option_bind].
    rewrite lookup_insert_ne; [reflexivity|].
    intros Heq. apply (is_fresh (dom h)). rewrite Heq. apply (Hdom i a Hi).
Qed.

(** The loop over the children reads what [serialize] wrote for them, and
    gives every child a node of its own. *)
Lemma read_children_serialized (keys : list (string * list byte)) :
  forall (fuel : nat) (node : CryptNode) (f : CryptNodeFactory) (h : heap)
         (m0 : gmap string addr),
    Children node = Some m0 ->
    (forall c a, m0 !! c = Some a -> a ∈ dom h) ->
    Forall (fun ck => strlen (fst ck) < 65536 /\ len (snd ck) = NodeKeyLen) keys ->
    (length (concat (map serialized_child keys)) <= fuel)%nat ->
    exists m' f' h',
      read_children fuel (concat (map serialized_child keys)) (node, (f, h)) =
        Done (tt, (set_Children (Some m') node, (f', h'))) /\
      omap (fun a => Key <$> h' !! a) m' =
        foldl (fun m ck => <[fst ck := snd ck]> m)
              (omap (fun a => Key <$> h !! a) m0) keys.
Proof.
  induction keys as [|[c key] keys IH]; intros fuel node f h m0 Hm Hdom Hfit Hfuel.
  - exists m0, f, h. cbn [map concat foldl]. split; [|reflexivity].
    rewrite <- Hm. replace (set_Children (Children node) node) with node
      by (destruct node; reflexivity).
    destruct fuel; reflexivity.
  - apply Forall_cons in Hfit as [[Hc Hkey] Hfit]. cbn [fst snd] in Hc, Hkey.
    cbn [map concat foldl fst snd] in *.
    set (tail := concat (map serialized_child keys)) in *.
    assert (Hin : serialized_child (c, key) ++ tail =
                  (be_bytes 2 (len (list_byte_of_string c)) ++ list_byte_of_string c) ++
                  (be_bytes 2 (len key) ++ key) ++ tail).
    { unfold serialized_child. cbn [fst snd]. rewrite <- !app_assoc. reflexivity. }
    assert (Hlen : len (serialized_child (c, key) ++ tail) = 24 + strlen c + len tail).
    { rewrite len_app, len_serialized_child. cbn [fst snd]. unfold NodeKeyLen in Hkey. lia. }
    pose proof (strlen_nonneg c) as Hc0. pose proof (len_nonneg tail) as Ht0.
    destruct fuel as [|fuel]; [unfold len in Hlen; lia|].
    cbn [read_children].
    destruct (Z.gtb_spec (len (serialized_child (c, key) ++ tail)) 0) as [_|Hle]; [|lia].
    rewrite Hin.
    rewrite (bind_done _ _ (node, (f, h)) (node, (f, h))
               (c, (be_bytes 2 (len key) ++ key) ++ tail))
      by (unfold lift; rewrite Gets_put by exact Hc; reflexivity).
    cbn [fst snd].
    rewrite (bind_done _ _ (node, (f, h)) (node, (f, h)) (key, tail))
      by (unfold lift; rewrite Getb_put by (unfold NodeKeyLen in Hkey; lia); reflexivity).
    cbn [fst snd]. rewrite (copy_whole key NodeKeyLen Hkey).
    destruct (ExistingNode_allocates c key f h) as (f1 & HE).
    rewrite (bind_done _ _ _ _ _ (on_snd_done _ node _ _ _ HE)).
    rewrite (bind_done _ _ _
               (set_Children (Some (<[c := fresh (dom h)]> m0)) node, _) tt)
      by (apply on_fst_done; unfold assign_child; rewrite Hm; reflexivity).
    destruct (IH fuel (set_Children (Some (<[c := fresh (dom h)]> m0)) node) f1
                (<[fresh (dom h) := discovered c key]> h) (<[c := fresh (dom h)]> m0))
      as (m' & f' & h' & Hrun & Hkeys).
    + destruct node; reflexivity.
    + intros i a Hi. rewrite dom_insert. apply elem_of_union.
      destruct (decide (c = i)) as [->|Hne].
      * rewrite lookup_insert_eq in Hi. injection Hi as <-. left.
        apply elem_of_singleton. reflexivity.
      * rewrite lookup_insert_ne in Hi by exact Hne. right. apply (Hdom i a Hi).
    + exact Hfit.
    + unfold len in Hlen. rewrite length_app in Hfuel, Hlen. unfold strlen in *. lia.
    + exists m', f', h'. rewrite Hrun, set_Children_twice. split; [reflexivity|].
      rewrite Hkeys, keys_insert_fresh by exact Hdom. reflexivity.
Qed.

(** *** The node that comes back *)

Lemma Get32_put (v : Z) (rest : list byte) :
  bits.Get32 (be_bytes 4 (uint32 v) ++ rest) = Done (uint32 v, rest).
Proof.
  unfold bits.Get32. rewrite get_be. change (2 ^ (8 * Z.of_nat 4)) with (2 ^ 32).
  unfold uint32. rewrite Z.mod_mod by lia. reflexivity.
Qed.

Lemma Get64_put (v : Z) (rest : list byte) :
  bits.Get64 (be_bytes 8 (uint64 v) ++ rest) = Done (uint64 v, rest).
Proof.
  unfold bits.Get64. rewrite get_be. change (2 ^ (8 * Z.of_nat 8)) with (2 ^ 64).
  unfold uint64. rewrite Z.mod_mod by lia. reflexivity.
Qed.

Lemma Get16_put (v : Z) (rest : list byte) :
  bits.Get16 (be_bytes 2 (uint16 v) ++ rest) = Done (uint16 v, rest).
Proof.
  unfold bits.Get16. rewrite get_be. change (2 ^ (8 * Z.of_nat 2)) with (2 ^ 16).
  unfold uint16. rewrite Z.mod_mod by lia. reflexivity.
Qed.

Lemma int64_uint64 (t : Z) : int64 (uint64 t) = int64 t.
Proof.
  unfold int64, uint64. rewrite Zplus_mod_idemp_l. reflexivity.
Qed.

(** The names of the children in the order of [serialize], and their keys
    by name. *)
Lemma keys_in_order_names (h : heap) (n : CryptNode) :
  children_loaded h n ->
  (keys_in_order h n).*1 = (map_to_list (entries (Children n))).*1.
Proof.
  intros Hch. unfold keys_in_order.
  assert (HP : Forall (fun c : string * addr => exists k, h !! snd c = Some k)
                 (map_to_list (entries (Children n)))).
  { apply Forall_forall. intros [name a] Hin.
    destruct (Hch name a) as (k & Hk & _); [apply elem_of_map_to_list; exact Hin|].
    exists k. exact Hk. }
  induction HP as [|c cs (k & Hk) _ IH]; [reflexivity|].
  cbn [omap list_omap fmap list_fmap]. rewrite Hk.
  cbn [fmap option_fmap option_map list_fmap fst]. f_equal. exact IH.
Qed.

Lemma keys_in_order_lookup (h : heap) (n : CryptNode) (c : string) :
  children_loaded h n ->
  (list_to_map (keys_in_order h n) : gmap string (list byte)) !! c = child_keys h n !! c.
Proof.
  intros Hch. apply option_eq. intros key.
  rewrite <- elem_of_list_to_map
    by (rewrite keys_in_order_names by exact Hch; apply NoDup_fst_map_to_list).
  unfold keys_in_order, child_keys. rewrite list_elem_of_omap, lookup_omap. split.
  - intros ([c' a] & Hin & Hkey). apply elem_of_map_to_list in Hin.
    cbn [fst snd] in Hkey. destruct (h !! a) as [k|] eqn:Hk; [|discriminate].
    cbn in Hkey. injection Hkey as <- <-. rewrite Hin. cbn [mbind option_bind].
    rewrite Hk. reflexivity.
  - intros Hkey. destruct (entries (Children n) !! c) as [a|] eqn:Ha; [|discriminate].
    cbn [mbind option_bind] in Hkey. exists (c, a). split.
    + apply elem_of_map_to_list. exact Ha.
    + cbn [fst snd]. destruct (h !! a) as [k|]; [|discriminate].
      cbn in *. injection Hkey as <-. reflexivity.
Qed.

Lemma lift_done {S A} (x : outcome A) (a : A) (s : S) :
  x = Done a -> lift x s = Done (a, s).
Proof. intros ->. reflexivity. Qed.

Lemma on_fst_modify {S T} (g : S -> S) (st : S * T) :
  on_fst (modify g) st = Done (tt, (g (fst st), snd st)).
Proof. reflexivity. Qed.

Lemma on_fst_get {S T} (st : S * T) :
  on_fst (get_state (S := S)) st = Done (fst st, st).
Proof. destruct st; reflexivity. Qed.

Lemma on_fst_modify_if {S T} (b : bool) (g : S -> S) (st : S * T) :
  (if b then on_fst (modify g) else ret tt) st =
    Done (tt, ((if b then g (fst st) else fst st), snd st)).
Proof. destruct b, st; reflexivity. Qed.

(** A step of [unserialize] that reads from the buffer. *)
Ltac read_step L :=
  rewrite (bind_done _ _ _ _ _ (lift_done _ _ _ L)); cbn [fst snd].

(** The attributes of [unserialize]: a new map when there are any. *)
Lemma unserialize_attributes {T} (xs : list (string * bytes)) (rest : list byte)
    (node : CryptNode) (t : T) :
  Forall (fun av => strlen (fst av) < 65536 /\ len (data_of (snd av)) < 65536) xs ->
  on_fst (read_xattrs (length xs) (concat (map serialized_attr xs) ++ rest))
    (if Z.of_nat (length xs) >? 0 then set_xattrs (Some ∅) node else node, t) =
    Done (rest,
          (match xs with
           | [] => node
           | _ =>
               set_xattrs
                 (Some (foldl (fun m av => <[fst av := Slice (data_of (snd av))]> m)
                          ∅ xs)) node
           end, t)).
Proof.
  intros Hfit. destruct xs as [|x xs]; [reflexivity|].
  replace (Z.of_nat (length (x :: xs)) >? 0) with true
    by (symmetry; apply Z.gtb_lt; cbn [length]; lia).
  apply on_fst_done.
  rewrite (read_xattrs_serialized (x :: xs) rest _ ∅); [|destruct node; reflexivity|exact Hfit].
  rewrite set_xattrs_twice. reflexivity.
Qed.

(** The children of [unserialize]. *)
Lemma unserialize_children (keys : list (string * list byte)) (node : CryptNode)
    (f : CryptNodeFactory) (h : heap) :
  Forall (fun ck => strlen (fst ck) < 65536 /\ len (snd ck) = NodeKeyLen) keys ->
  (keys <> [] -> Children node = Some ∅) ->
  let b := concat (map serialized_child keys) in
  exists n' f' h',
    (if len b >? 0 then read_children (length b) b else ret tt) (node, (f, h)) =
      Done (tt, (n', (f', h'))) /\
    match keys with
    | [] => n' = node
    | _ =>
        exists m', n' = set_Children (Some m') node /\
                   omap (fun a => Key <$> h' !! a) m' =
                     foldl (fun m ck => <[fst ck := snd ck]> m) ∅ keys
    end.
Proof.
  intros Hfit Hmap b. destruct keys as [|k keys].
  - exists node, f, h. split; reflexivity.
  - destruct (read_children_serialized (k :: keys) (length b) node f h ∅)
      as (m' & f' & h' & Hrun & Hkeys).
    + apply Hmap. discriminate.
    + intros c a Hc. rewrite lookup_empty in Hc. discriminate.
    + exact Hfit.
    + reflexivity.
    + exists (set_Children (Some m') node), f', h'. fold b in Hrun.
      replace (len b >? 0) with true.
      * split; [exact Hrun|]. exists m'. split; [reflexivity|].
        rewrite Hkeys, omap_empty. reflexivity.
      * symmetry. apply Z.gtb_lt. subst b. cbn [map concat]. rewrite len_app.
        rewrite len_serialized_child. pose proof (strlen_nonneg (fst k)).
        pose proof (len_nonneg (snd k)). pose proof (len_nonneg (concat (map serialized_child keys))).
        lia.
Qed.

(** [unserialize] on what [serialize] writes: the fields of the node that
    comes back, its attributes in the order of the assignments and its
    children with the keys of their nodes. *)
Lemma unserialize_serialized (h h0 : heap) (n n0 : CryptNode) (f : CryptNodeFactory) :
  children_loaded h n ->
  len (data_of (contentKey n)) < 65536 ->
  Z.of_nat (size (entries (xattrs n))) < 65536 ->
  (forall a v, entries (xattrs n) !! a = Some v ->
     strlen a < 65536 /\ len (data_of v) < 65536) ->
  (forall c a, entries (Children n) !! c = Some a -> strlen c < 65536) ->
  (entries (Children n) <> ∅ -> Z.land (uint32 (Mode n)) S_IFDIR <> 0) ->
  exists n' f' h',
    unserialize (serialized n (keys_in_order h n)) (n0, (f, h0)) =
      Done (tt, (n', (f', h'))) /\
    (User n' = uint32 (User n) /\ Group n' = uint32 (Group n) /\
     Mode n' = uint32 (Mode n) /\ Time n' = int64 (Time n) /\
     contentKey n' = Slice (data_of (contentKey n)) /\
     name n' = name n0 /\ Key n' = Key n0 /\ version n' = version n0 /\
     content n' = content n0) /\
    xattrs n' =
      match map_to_list (entries (xattrs n)) with
      | [] => xattrs n0
      | xs => Some (foldl (fun m av => <[fst av := Slice (data_of (snd av))]> m) ∅ xs)
      end /\
    match keys_in_order h n with
    | [] =>
        Children n' =
          if negb (Z.land (uint32 (Mode n)) S_IFDIR =? 0) then Some ∅ else Children n0
    | keys =>
        exists m', Children n' = Some m' /\
                   omap (fun a => Key <$> h' !! a) m' =
                     foldl (fun m ck => <[fst ck := snd ck]> m) ∅ keys
    end.
Proof.
  intros Hch Hck Hcount Hattr Hnames Hdir.
  set (xs := map_to_list (entries (xattrs n))).
  set (keys := keys_in_order h n).
  assert (Hxs : Forall (fun av : string * bytes =>
                          strlen (fst av) < 65536 /\ len (data_of (snd av)) < 65536) xs).
  { apply Forall_forall. intros [a v] Hin. apply (Hattr a v).
    apply elem_of_map_to_list. exact Hin. }
  assert (Hkeys : Forall (fun ck : string * list byte =>
                            strlen (fst ck) < 65536 /\ len (snd ck) = NodeKeyLen) keys).
  { apply Forall_forall. intros [c key] Hin. unfold keys, keys_in_order in Hin.
    apply list_elem_of_omap in Hin as ([c' a] & Hin & Hkey).
    apply elem_of_map_to_list in Hin. cbn [fst snd] in *.
    destruct (Hch c' a Hin) as (k & Hk & Hlen). rewrite Hk in Hkey.
    cbn in Hkey. injection Hkey as <- <-. split; [apply (Hnames c' a Hin)|exact Hlen]. }
  assert (Hlenxs : uint16 (Z.of_nat (length xs)) = Z.of_nat (length xs)).
  { unfold xs. rewrite length_map_to_list. unfold uint16. apply Z.mod_small. lia. }
  assert (Hknil : keys <> [] -> entries (Children n) <> ∅).
  { intros Hne Hempty. apply Hne. unfold keys, keys_in_order.
    rewrite Hempty, map_to_list_empty. reflexivity. }
  (* the fields of fixed width and the content key *)
  unfold unserialize, serialized. fold xs.
  do 3 (match goal with
        | |- context [bits.Get32 (be_bytes 4 (uint32 ?v) ++ ?rest)] =>
            read_step (Get32_put v rest)
        end;
        rewrite (bind_done _ _ _ _ _ (on_fst_modify _ _)); cbn [fst snd]).
  match goal with
  | |- context [bits.Get64 (be_bytes 8 (uint64 ?v) ++ ?rest)] =>
      read_step (Get64_put v rest)
  end.
  rewrite (bind_done _ _ _ _ _ (on_fst_modify _ _)). cbn [fst snd].
  match goal with
  | |- context [bits.Getb ((be_bytes 2 (len ?v) ++ ?v) ++ ?rest)] =>
      read_step (Getb_put v rest Hck)
  end.
  rewrite (bind_done _ _ _ _ _ (on_fst_modify _ _)). cbn [fst snd].
  rewrite (bind_done _ _ _ _ _ (on_fst_get _)). cbn [fst snd].
  rewrite int64_uint64.
  set (n4 := set_contentKey _ _).
  assert (HM4 : Mode n4 = uint32 (Mode n)) by reflexivity. rewrite HM4.
  rewrite (bind_done _ _ _ _ _ (on_fst_modify_if _ _ _)). cbn [fst snd].
  match goal with
  | |- context [bits.Get16 (be_bytes 2 (uint16 ?v) ++ ?rest)] =>
      read_step (Get16_put v rest)
  end.
  rewrite Hlenxs, Nat2Z.id.
  rewrite (bind_done _ _ _ _ _ (on_fst_modify_if _ _ _)). cbn [fst snd].
  (* the attributes *)
  rewrite (bind_done _ _ _ _ _ (unserialize_attributes xs _ _ _ Hxs)).
  (* the children *)
  set (n5 := if negb _ then _ else _).
  set (n7 := match xs with [] => n5 | _ => _ end).
  destruct (unserialize_children keys n7 f h0 Hkeys) as (n' & f' & h' & Hrun & Hn').
  { intros Hne. specialize (Hdir (Hknil Hne)).
    subst n7 n5. destruct (Z.eqb_spec (Z.land (uint32 (Mode n)) S_IFDIR) 0) as [|_];
      [contradiction|].
    destruct xs; reflexivity. }
  exists n', f', h'. split; [exact Hrun|].
  clear Hrun Hlenxs Hxs Hkeys. clearbody xs keys.
  destruct keys as [|k keys]; [|destruct Hn' as (m' & Hn' & Hm')]; subst n' n7 n5.
  - destruct (negb _), xs; repeat split; reflexivity.
  - destruct (negb _), xs; (split; [repeat split; reflexivity|]);
      (split; [reflexivity|]); exists m'; (split; [reflexivity|exact Hm']).
Qed.

(** X29. What [serialize] writes for a node whose children are in the
    heap, [unserialize] reads back into any node, when the content key, the
    names and the values of the attributes and the names of the children
    are shorter than 65536 bytes, the attributes fewer than 65536, and the
    node is a directory if it has children. The owner, the group and the
    mode come back as [uint32], the time as [int64], the content key with
    its bytes. The attributes come back with their bytes; when the saved
    node has none, the attributes of the reading node stay as they are. A
    directory gets a child for every name that was saved, a new node with
    the key that was saved under the name; a node that is no directory
    keeps the children it has. The name, the key, the version and the
    content of the reading node are not touched. *)
Theorem unserialize_reads_what_serialize_wrote (h h0 : heap) (n n0 : CryptNode)
    (f : CryptNodeFactory) :
  children_loaded h n ->
  len (data_of (contentKey n)) < 65536 ->
  Z.of_nat (size (entries (xattrs n))) < 65536 ->
  (forall a v, entries (xattrs n) !! a = Some v ->
     strlen a < 65536 /\ len (data_of v) < 65536) ->
  (forall c a, entries (Children n) !! c = Some a -> strlen c < 65536) ->
  (entries (Children n) <> ∅ -> Z.land (uint32 (Mode n)) S_IFDIR <> 0) ->
  exists buf n' f' h',
    serialize h n = Done buf /\
    unserialize buf (n0, (f, h0)) = Done (tt, (n', (f', h'))) /\
    User n' = uint32 (User n) /\ Group n' = uint32 (Group n) /\
    Mode n' = uint32 (Mode n) /\ Time n' = int64 (Time n) /\
    data_of (contentKey n') = data_of (contentKey n) /\
    (entries (xattrs n) = ∅ -> xattrs n' = xattrs n0) /\
    (entries (xattrs n) <> ∅ ->
     data_of <$> entries (xattrs n') = data_of <$> entries (xattrs n)) /\
    (Z.land (uint32 (Mode n)) S_IFDIR = 0 -> Children n' = Children n0) /\
    (Z.land (uint32 (Mode n)) S_IFDIR <> 0 -> child_keys h' n' = child_keys h n) /\
    name n' = name n0 /\ Key n' = Key n0 /\ version n' = version n0 /\
    content n' = content n0.
Proof.
  intros Hch Hck Hcount Hattr Hnames Hdir.
  destruct (unserialize_serialized h h0 n n0 f Hch Hck Hcount Hattr Hnames Hdir)
    as (n' & f' & h' & Hrun & Hfields & HX & HC).
  destruct Hfields as (HU & HG & HMo & HT & HCK & Hname & HKey & Hver & Hcont).
  exists (serialized n (keys_in_order h n)), n', f', h'.
  split; [apply serialize_serialized; exact Hch|]. split; [exact Hrun|].
  repeat (split; [first [assumption | rewrite HCK; reflexivity]|]).
  split; [|split; [|split; [|split; [|repeat split; assumption]]]].
  - (* no attribute was saved *)
    intros Hnone. rewrite HX, Hnone, map_to_list_empty. reflexivity.
  - (* the attributes that were saved *)
    intros Hsome. rewrite HX.
    destruct (map_to_list (entries (xattrs n))) as [|x xs] eqn:Hxs;
      [exfalso; apply Hsome, map_to_list_empty_iff; exact Hxs|].
    cbn [entries]. apply map_eq. intros k. rewrite !lookup_fmap.
    rewrite (foldl_insert_lookup (fun v => Slice (data_of v)))
      by (rewrite <- Hxs; apply NoDup_fst_map_to_list).
    rewrite <- Hxs, list_to_map_to_list, lookup_empty.
    destruct (entries (xattrs n) !! k); reflexivity.
  - (* not a directory *)
    intros Hfile. destruct (keys_in_order h n) as [|k keys] eqn:Hkeys.
    + rewrite HC, Hfile. reflexivity.
    + exfalso. apply Hdir; [|exact Hfile]. intros Hempty.
      unfold keys_in_order in Hkeys. rewrite Hempty, map_to_list_empty in Hkeys.
      discriminate Hkeys.
  - (* a directory *)
    intros Hdirectory. apply map_eq. intros c.
    rewrite <- (keys_in_order_lookup h n c Hch).
    assert (Hnd : NoDup (keys_in_order h n).*1)
      by (rewrite keys_in_order_names by exact Hch; apply NoDup_fst_map_to_list).
    destruct (keys_in_order h n) as [|k keys] eqn:Hkeys.
    + unfold child_keys. rewrite HC.
      destruct (Z.eqb_spec (Z.land (uint32 (Mode n)) S_IFDIR) 0) as [|_];
        [contradiction|].
      cbn [negb entries]. rewrite omap_empty. reflexivity.
    + destruct HC as (m' & HC & Hm'). unfold child_keys. rewrite HC. cbn [entries].
      rewrite Hm', (foldl_insert_lookup (fun v => v)) by exact Hnd.
      rewrite lookup_empty.
      destruct ((list_to_map (k :: keys) : gmap string (list byte)) !! c); reflexivity.
Qed.

Lemma tagged_dir_loaded : children_loaded heap2 tagged_dir.
Proof.
  intros child a Hc. change (entries (Children tagged_dir))
    with (<["a" := 1%positive]> (<["b" := 2%positive]> (∅ : gmap string addr))) in Hc.
  apply lookup_insert_Some in Hc as [[_ <-]|[_ Hc]].
  - eexists. split; vm_compute; reflexivity.
  - apply lookup_insert_Some in Hc as [[_ <-]|[_ Hc]].
    + eexists. split; vm_compute; reflexivity.
    + rewrite lookup_empty in Hc. discriminate.
Qed.

Lemma unserialize_reads_what_serialize_wrote_witness :
  exists buf n' f' h',
    serialize heap2 tagged_dir = Done buf /\
    unserialize buf (zero_CryptNode, ({| known := None |}, ∅)) =
      Done (tt, (n', (f', h'))) /\
    Mode n' = 16877 /\
    data_of <$> entries (xattrs n') = {[ "user.k" := list_byte_of_string "v" ]} /\
    child_keys h' n' = {[ "a" := make NodeKeyLen; "b" := make NodeKeyLen ]}.
Proof.
  destruct (unserialize_reads_what_serialize_wrote heap2 ∅ tagged_dir zero_CryptNode
              {| known := None |})
    as (buf & n' & f' & h' & Hs & Hu & _ & _ & HM & _ & _ & _ & HX & _ & HC & _).
  - exact tagged_dir_loaded.
  - vm_compute. reflexivity.
  - vm_compute. reflexivity.
  - intros a v Hx. change (entries (xattrs tagged_dir))
      with ({[ "user.k" := Slice (list_byte_of_string "v") ]} : gmap string bytes) in Hx.
    apply lookup_singleton_Some in Hx as [<- <-].
    split; vm_compute; reflexivity.
  - intros c a Hc. change (entries (Children tagged_dir))
      with (<["a" := 1%positive]> (<["b" := 2%positive]> (∅ : gmap string addr))) in Hc.
    apply lookup_insert_Some in Hc as [[<- _]|[_ Hc]]; [vm_compute; reflexivity|].
    apply lookup_insert_Some in Hc as [[<- _]|[_ Hc]]; [vm_compute; reflexivity|].
    rewrite lookup_empty in Hc. discriminate.
  - intros _. vm_compute. discriminate.
  - exists buf, n', f', h'. split; [exact Hs|]. split; [exact Hu|].
    split; [exact HM|]. split.
    + rewrite HX; [vm_compute; reflexivity|].
      intros Hnone. apply (f_equal (fun m => m !! "user.k")) in Hnone.
      vm_compute in Hnone. discriminate.
    + rewrite HC; [vm_compute; reflexivity|]. vm_compute. discriminate.
Defined.

(** X30. The test of the serialization, for every node: after a
    [saveMetadata] into the versioned wrapper of an in-memory store that
    returned no error, [LoadMetadata] of the key of the node into any node
    returns no error and leaves the store as it is; the node that was
    loaded has the owner, the group and the mode of the saved one (as
    [uint32]), its time (as [int64]), its key, the version under which it
    was saved, one above the version before (as [uint64]), and the bytes of
    its content key. The lengths are as for [unserialize]. *)
Theorem saved_metadata_loads_back {B : Type} (h h0 : heap) (n n1 n0 : CryptNode)
    (m m1 : InMemorySTore.InMemorySTore) (b b1 : B) (f : CryptNodeFactory) :
  saveMetadata (HM := VersionedWrapper_VersionedStore) h (n, (m, b)) =
    Done (None, (n1, (m1, b1))) ->
  children_loaded h n ->
  len (data_of (contentKey n)) < 65536 ->
  Z.of_nat (size (entries (xattrs n))) < 65536 ->
  (forall a v, entries (xattrs n) !! a = Some v ->
     strlen a < 65536 /\ len (data_of v) < 65536) ->
  (forall c a, entries (Children n) !! c = Some a -> strlen c < 65536) ->
  (entries (Children n) <> ∅ -> Z.land (uint32 (Mode n)) S_IFDIR <> 0) ->
  exists n' f' h',
    LoadMetadata (HM := VersionedWrapper_VersionedStore) (Key n) ((n0, (f, h0)), m1) =
      Done (None, ((n', (f', h')), m1)) /\
    User n' = uint32 (User n) /\ Group n' = uint32 (Group n) /\
    Mode n' = uint32 (Mode n) /\ Time n' = int64 (Time n) /\
    Key n' = Key n /\
    version n' = version n1 /\ version n1 = uint64 (version n + 1) /\
    data_of (contentKey n') = data_of (contentKey n).
Proof.
  intros Hsave Hch Hck Hcount Hattr Hnames Hdir.
  set (value := serialized n (keys_in_order h n)).
  set (v := uint64 (version n + 1)).
  (* what the save has put *)
  assert (Hput : VersionedWrapper.Put v (Key n) value m = Done (None, m1) /\
                 n1 = set_version v n).
  { revert Hsave. unfold saveMetadata, on_node, on_Metadata. go_unfold. cbn [fst snd].
    rewrite (serialize_serialized h n Hch). fold value v.
    cbn [VersionedStore.Put VersionedWrapper_VersionedStore fst snd].
    destruct (VersionedWrapper.Put v (Key n) value m) as [[[e|] m']|r];
      cbn [fst snd]; [discriminate| |discriminate].
    intros [= <- <- <-]. split; reflexivity. }
  destruct Hput as [Hput ->].
  destruct (WrapperFacts.Put_ends_in_raw_put _ _ _ _ _ Hput) as (s1 & Hraw).
  cbn [Store.Put InMemorySTore_Store] in Hraw. rewrite MemoryFacts.Put_memory in Hraw.
  injection Hraw as <-.
  assert (Hget : VersionedWrapper.Get (Key n)
                   {| InMemorySTore.m :=
                        <[string_of_list_byte (Key n) := Slice (be_bytes 8 v ++ value)]>
                          (InMemorySTore.m s1) |} =
                 Done ((v, Slice value, None),
                       {| InMemorySTore.m :=
                            <[string_of_list_byte (Key n) := Slice (be_bytes 8 v ++ value)]>
                              (InMemorySTore.m s1) |})).
  { apply WrapperFacts.Get_versioned_entry.
    - cbn [InMemorySTore.m]. apply lookup_insert_eq.
    - unfold is_uint64, v, uint64. apply Z.mod_pos_bound. lia. }
  (* what the load reads *)
  destruct (unserialize_serialized h h0 n (set_version v (set_Key (Key n) n0)) f
              Hch Hck Hcount Hattr Hnames Hdir)
    as (n' & f' & h' & Hrun & Hfields & _ & _).
  destruct Hfields as (HU & HG & HMo & HT & HCK & _ & HKey & Hver & _).
  fold value in Hrun.
  exists n', f', h'. split.
  - unfold LoadMetadata. cbn [VersionedStore.Get VersionedWrapper_VersionedStore].
    rewrite (bind_done _ _ _ _ _ (on_snd_done _ _ _ _ _ Hget)). cbn [fst snd data_of].
    rewrite (bind_done _ _ _ _ _ (on_fst_done _ _ _ _ _ (on_fst_modify _ _))).
    cbn [fst snd].
    rewrite (bind_done _ _ _ _ _ (on_fst_done _ _ _ _ _ (on_fst_modify _ _))).
    cbn [fst snd].
    rewrite (bind_done _ _ _ _ _ (on_fst_done _ _ _ _ _ Hrun)). reflexivity.
  - split; [exact HU|]. split; [exact HG|]. split; [exact HMo|]. split; [exact HT|].
    split; [rewrite HKey; reflexivity|]. split; [rewrite Hver; reflexivity|].
    split; [reflexivity|]. rewrite HCK. reflexivity.
Qed.

Lemma saved_metadata_loads_back_witness :
  exists n1 m1 n' f' h',
    saveMetadata (HM := VersionedWrapper_VersionedStore) heap2
      (tagged_dir, (InMemorySTore.NewInMemoryStore, tt)) = Done (None, (n1, (m1, tt))) /\
    LoadMetadata (HM := VersionedWrapper_VersionedStore) (Key tagged_dir)
      ((zero_CryptNode, ({| known := None |}, ∅)), m1) =
      Done (None, ((n', (f', h')), m1)) /\
    Mode n' = 16877 /\ version n' = 1.
Proof.
  edestruct (fun n1 m1 =>
               saved_metadata_loads_back (B := unit) heap2 ∅ tagged_dir n1 zero_CryptNode
                 InMemorySTore.NewInMemoryStore m1 tt tt {| known := None |})
    as (n' & f' & h' & HL & _ & _ & HMo & _ & _ & Hver & _).
  - vm_compute. reflexivity.
  - exact tagged_dir_loaded.
  - vm_compute. reflexivity.
  - vm_compute. reflexivity.
  - intros a v Hx. change (entries (xattrs tagged_dir))
      with ({[ "user.k" := Slice (list_byte_of_string "v") ]} : gmap string bytes) in Hx.
    apply lookup_singleton_Some in Hx as [<- <-].
    split; vm_compute; reflexivity.
  - intros c a Hc. change (entries (Children tagged_dir))
      with (<["a" := 1%positive]> (<["b" := 2%positive]> (∅ : gmap string addr))) in Hc.
    apply lookup_insert_Some in Hc as [[<- _]|[_ Hc]]; [vm_compute; reflexivity|].
    apply lookup_insert_Some in Hc as [[<- _]|[_ Hc]]; [vm_compute; reflexivity|].
    rewrite lookup_empty in Hc. discriminate.
  - intros _. vm_compute. discriminate.
  - eexists _, _, n', f', h'. split; [vm_compute; reflexivity|].
    split; [exact HL|]. split; [exact HMo|]. rewrite Hver. reflexivity.
Defined.

End LoadingFacts.
